(** * utl_printf: a shallow embedding of the stand-alone printf family

    The embedded program is the small printf implementation of the
    repository (the translation unit that defines [utl_printf],
    [utl_sprintf], [utl_snprintf], [utl_vfctprintf], ...).  Every
    definition below follows one C function or macro of that file and
    keeps its name.

    Data model.
    - Machine integers are values of [Z]; every conversion to a C type is
      written out ([to_uint], [to_size_t], [to_int], ...).  The sizes are
      those of the repository's unix port (LP64): [int] has 32 bits,
      [long], [long long], [size_t] and pointers have 64 bits.
    - [char] is [ascii]; a C string is a [string], its terminating NUL is
      the end of the Rocq string (an embedded NUL character terminates it
      as well, as it does in C).
    - [double] is the kernel's binary64 [float]; casts between doubles and
      integers and the bit-level access of [double_with_bit_access] are
      defined through [Prim2SF] / [SF2Prim].  Every arithmetic operation
      is rounded to binary64 on its own (no fused or extended-precision
      evaluation).
    - Behaviour the C standard leaves undefined (a [va_arg] of the wrong
      type, reading past the end of the format or of [powers_of_10]) is
      [None].
    - The memory written by [_out_buffer] is a finite map from addresses to
      characters; calls of [__io_putchar] and of a user callback are
      recorded as events. *)

From Stdlib Require Import ZArith Lia List Ascii String Bool Floats.
From stdpp Require Import gmap.

Local Open Scope Z_scope.
Local Open Scope bool_scope.

(* Decimal floating-point literals are written as in the C source; each
   denotes the nearest double. *)
#[local] Set Warnings "-inexact-float".

(** ** Machine integers *)

Definition to_uint (x : Z) : Z := x mod 2 ^ 32.          (* (unsigned int) x *)
Definition to_size_t (x : Z) : Z := x mod 2 ^ 64.        (* (size_t) x *)
Definition to_ull (x : Z) : Z := x mod 2 ^ 64.           (* (unsigned long long) x *)
Definition to_uchar (x : Z) : Z := x mod 2 ^ 8.          (* (unsigned char) x *)
Definition to_ushort (x : Z) : Z := x mod 2 ^ 16.        (* (unsigned short) x *)
Definition to_schar (x : Z) : Z := (x + 2 ^ 7) mod 2 ^ 8 - 2 ^ 7.
Definition to_short (x : Z) : Z := (x + 2 ^ 15) mod 2 ^ 16 - 2 ^ 15.
Definition to_int (x : Z) : Z := (x + 2 ^ 31) mod 2 ^ 32 - 2 ^ 31.
Definition to_long (x : Z) : Z := (x + 2 ^ 63) mod 2 ^ 64 - 2 ^ 63.
Definition to_int64 (x : Z) : Z := (x + 2 ^ 63) mod 2 ^ 64 - 2 ^ 63.

Definition INT_MAX : Z := 2 ^ 31 - 1.
Definition INT_MIN : Z := - 2 ^ 31.
Definition INT64_MIN : Z := - 2 ^ 63.
Definition INT64_MAX : Z := 2 ^ 63 - 1.
Definition SIZE_MAX : Z := 2 ^ 64 - 1.                   (* (size_t)-1 *)

(** ** Characters *)

Definition char_code (c : ascii) : Z := Z.of_N (N_of_ascii c).
Definition to_char (x : Z) : ascii := ascii_of_N (Z.to_N (x mod 2 ^ 8)).
Definition NUL : ascii := Ascii.zero.

Definition char_eqb (a b : ascii) : bool := Ascii.eqb a b.

(** [*s] and [s + 1] on a NUL-terminated string. *)
Definition deref (s : string) : ascii :=
  match s with
  | EmptyString => NUL
  | String c _ => c
  end.

Definition chars (s : string) : list ascii := list_ascii_of_string s.

(** ** Configuration macros *)

Definition PRINTF_NTOA_BUFFER_SIZE : Z := 32.
Definition PRINTF_FTOA_BUFFER_SIZE : Z := 32.
Definition PRINTF_DEFAULT_FLOAT_PRECISION : Z := 6.
Definition PRINTF_MAX_INTEGRAL_DIGITS_FOR_DECIMAL : Z := 9.
Definition PRINTF_PREFER_DECIMAL : bool := false.
Definition PRINTF_PREFER_EXPONENTIAL : bool := true.

(** ** Internal flag definitions *)

Definition FLAGS_ZEROPAD : Z := Z.shiftl 1 0.
Definition FLAGS_LEFT : Z := Z.shiftl 1 1.
Definition FLAGS_PLUS : Z := Z.shiftl 1 2.
Definition FLAGS_SPACE : Z := Z.shiftl 1 3.
Definition FLAGS_HASH : Z := Z.shiftl 1 4.
Definition FLAGS_UPPERCASE : Z := Z.shiftl 1 5.
Definition FLAGS_CHAR : Z := Z.shiftl 1 6.
Definition FLAGS_SHORT : Z := Z.shiftl 1 7.
Definition FLAGS_LONG : Z := Z.shiftl 1 8.
Definition FLAGS_LONG_LONG : Z := Z.shiftl 1 9.
Definition FLAGS_PRECISION : Z := Z.shiftl 1 10.
Definition FLAGS_ADAPT_EXP : Z := Z.shiftl 1 11.
Definition FLAGS_POINTER : Z := Z.shiftl 1 12.

Definition BASE_BINARY : Z := 2.
Definition BASE_OCTAL : Z := 8.
Definition BASE_DECIMAL : Z := 10.
Definition BASE_HEX : Z := 16.

(** [flags & f] used as a condition. *)
Definition has (flags f : Z) : bool := negb (Z.land flags f =? 0).
(** [flags | f] and [flags & ~f]. *)
Definition set_flag (flags f : Z) : Z := Z.lor flags f.
Definition clear_flag (flags f : Z) : Z := Z.land flags (Z.lnot f).

(** [NTOA_ABS(_x)]: the magnitude of a signed value, computed in
    [unsigned long long]. *)
Definition NTOA_ABS (x : Z) : Z :=
  if 0 <? x then to_ull x else to_ull (- to_ull x).

(** [PRINTF_ABS(_x)] on an [int]. *)
Definition PRINTF_ABS (x : Z) : Z := if 0 <? x then x else to_int (- x).

(** ** The world the output functions act on *)

(** [out_fct_wrap_type]: a callback (named by its address) and its
    opaque argument. *)
Record out_fct_wrap_type := { fct : Z; arg : Z }.

Inductive event :=
| Putchar (character : ascii)                   (* __io_putchar(character) *)
| Callback (f : Z) (character : ascii) (a : Z). (* f(character, a) *)

Record world := { memory : gmap Z ascii; events : list event }.

(** What the [void* buffer] of the output functions points to. *)
Inductive void_ptr :=
| CharPtr (addr : Z)                 (* a char* into memory; address 0 is NULL *)
| LocalPtr                           (* the local char buffer[1] of utl_printf *)
| WrapPtr (w : out_fct_wrap_type).   (* the local out_fct_wrap_type of utl_vfctprintf *)

Definition is_null (p : void_ptr) : bool :=
  match p with
  | CharPtr addr => addr =? 0
  | _ => false
  end.

(** The output function type, over the state [W] the function acts on. *)
Definition out_fct_type (W : Type) : Type := ascii -> void_ptr -> Z -> Z -> W -> W.

Definition _out_buffer : out_fct_type world :=
  fun character buffer idx maxlen w =>
    if idx <? maxlen then
      match buffer with
      | CharPtr addr =>
          {| memory := <[addr + idx := character]> (memory w); events := events w |}
      | _ => w
      end
    else w.

Definition _out_null {W : Type} : out_fct_type W :=
  fun character buffer idx maxlen w => w.

Definition _out_char : out_fct_type world :=
  fun character buffer idx maxlen w =>
    if char_eqb character NUL then w
    else {| memory := memory w; events := events w ++ [Putchar character] |}.

Definition _out_fct : out_fct_type world :=
  fun character buffer idx maxlen w =>
    if char_eqb character NUL then w
    else match buffer with
         | WrapPtr wr =>
             {| memory := memory w;
                events := events w ++ [Callback (fct wr) character (arg wr)] |}
         | _ => w
         end.

(** A recording output function: the sequence of characters handed to
    [out], whatever the destination does with them. *)
Definition out_record : out_fct_type (list ascii) :=
  fun character buffer idx maxlen l => l ++ [character].

(** ** Small helpers of the C file *)

Definition _is_digit (ch : ascii) : bool :=
  (char_code "0" <=? char_code ch) && (char_code ch <=? char_code "9").

(** [_atoi(&str)]: returns the number read and the advanced pointer. *)
Fixpoint _atoi_from (str : string) (i : Z) : Z * string :=
  match str with
  | String c rest =>
      if _is_digit c
      then _atoi_from rest (to_uint (i * 10 + to_uint (char_code c - char_code "0")))
      else (i, str)
  | EmptyString => (i, str)
  end.

Definition _atoi (str : string) : Z * string := _atoi_from str 0.

(** [_strnlen_s(str, maxsize)]: [for (s = str; *s && maxsize--; ++s);] *)
Fixpoint strnlen_from (str : string) (maxsize : Z) (n : Z) : Z :=
  match str with
  | String c rest =>
      if char_eqb c NUL then n
      else if maxsize =? 0 then n
      else strnlen_from rest (to_size_t (maxsize - 1)) (n + 1)
  | EmptyString => n
  end.

Definition _strnlen_s (str : string) (maxsize : Z) : Z :=
  to_uint (strnlen_from str maxsize 0).

(** ** Formatting state: the destination and the write index *)

Section Formatter.

Context {W : Type}.

Record state := { dest : W; idx : Z }.

Variable out : out_fct_type W.
Variable buffer : void_ptr.
Variable maxlen : Z.

(** [out(c, buffer, idx++, maxlen)] *)
Definition put (c : ascii) (st : state) : state :=
  {| dest := out c buffer (idx st) maxlen (dest st);
     idx := to_size_t (idx st + 1) |}.

(** [n] times [out(c, buffer, idx++, maxlen)] *)
Fixpoint put_n (n : nat) (c : ascii) (st : state) : state :=
  match n with
  | O => st
  | S k => put_n k c (put c st)
  end.

(** the characters of [l], first to last *)
Fixpoint put_list (l : list ascii) (st : state) : state :=
  match l with
  | [] => st
  | c :: l' => put_list l' (put c st)
  end.

(** [while (idx - start_idx < width) out(' ', buffer, idx++, maxlen);]
    The loop runs at most [width] times, which is the fuel it gets
    from its callers. *)
Fixpoint pad_right (fuel : nat) (start_idx width : Z) (st : state) : state :=
  match fuel with
  | O => st
  | S k =>
      if to_size_t (idx st - start_idx) <? width
      then pad_right k start_idx width (put " " st)
      else st
  end.

(** [_out_rev]: [buf] holds the characters [buf[0] .. buf[len-1]]. *)
Definition _out_rev (st : state) (buf : list ascii) (width flags : Z) : state :=
  let start_idx := idx st in
  let len := Z.of_nat (length buf) in
  (* pad spaces up to given width *)
  let st :=
    if negb (has flags FLAGS_LEFT) && negb (has flags FLAGS_ZEROPAD)
    then put_n (Z.to_nat (width - len)) " " st
    else st in
  (* reverse string *)
  let st := put_list (rev buf) st in
  (* append pad spaces up to given width *)
  if has flags FLAGS_LEFT
  then pad_right (Z.to_nat width) start_idx width st
  else st.

(** Appending to a scratch buffer while there is room:
    [while (cond && len < SIZE) buf[len++] = c;] for [n] candidates. *)
Definition room (buf : list ascii) (size : Z) : bool :=
  Z.of_nat (length buf) <? size.

(** [while ((len < target) && (len < PRINTF_NTOA_BUFFER_SIZE)) buf[len++] = '0';] *)
Fixpoint pad_zeros (fuel : nat) (buf : list ascii) (target size : Z) : list ascii :=
  match fuel with
  | O => buf
  | S k =>
      if (Z.of_nat (length buf) <? target) && room buf size
      then pad_zeros k (buf ++ ["0"%char]) target size
      else buf
  end.

(** [_ntoa_format] *)
Definition _ntoa_format (st : state) (buf : list ascii) (negative : bool)
    (base precision width flags : Z) : state :=
  let unpadded_len := Z.of_nat (length buf) in
  let SIZE := PRINTF_NTOA_BUFFER_SIZE in
  (* pad with leading zeros *)
  let width :=
    if negb (has flags FLAGS_LEFT) then
      if negb (width =? 0) && has flags FLAGS_ZEROPAD
         && (negative || has flags (Z.lor FLAGS_PLUS FLAGS_SPACE))
      then to_uint (width - 1) else width
    else width in
  let buf :=
    if negb (has flags FLAGS_LEFT) && has flags FLAGS_ZEROPAD
    then pad_zeros (Z.to_nat SIZE) buf width SIZE
    else buf in
  let buf := pad_zeros (Z.to_nat SIZE) buf precision SIZE in
  let flags :=
    if (base =? BASE_OCTAL) && (unpadded_len <? Z.of_nat (length buf))
    then clear_flag flags FLAGS_HASH else flags in
  (* handle hash *)
  let buf :=
    if has flags (Z.lor FLAGS_HASH FLAGS_POINTER) then
      let len := Z.of_nat (length buf) in
      let buf :=
        if negb (has flags FLAGS_PRECISION) && negb (len =? 0)
           && ((len =? precision) || (len =? width))
        then
          let buf := if unpadded_len <? len then removelast buf else buf in
          if negb (Z.of_nat (length buf) =? 0) && (base =? BASE_HEX)
          then if unpadded_len <? Z.of_nat (length buf) then removelast buf else buf
          else buf
        else buf in
      let buf :=
        if (base =? BASE_HEX) && negb (has flags FLAGS_UPPERCASE) && room buf SIZE
        then buf ++ ["x"%char]
        else if (base =? BASE_HEX) && has flags FLAGS_UPPERCASE && room buf SIZE
        then buf ++ ["X"%char]
        else if (base =? BASE_BINARY) && room buf SIZE
        then buf ++ ["b"%char]
        else buf in
      if room buf SIZE then buf ++ ["0"%char] else buf
    else buf in
  let buf :=
    if room buf SIZE then
      if negative then buf ++ ["-"%char]
      else if has flags FLAGS_PLUS then buf ++ ["+"%char]
      else if has flags FLAGS_SPACE then buf ++ [" "%char]
      else buf
    else buf in
  _out_rev st buf width flags.

(** the digit of [_ntoa]: ['0' + digit] or ['a'/'A' + digit - 10] *)
Definition ntoa_digit (digit flags : Z) : ascii :=
  if digit <? 10 then to_char (char_code "0" + digit)
  else to_char ((if has flags FLAGS_UPPERCASE then char_code "A" else char_code "a")
                + digit - 10).

(** [do { ... } while (value && (len < PRINTF_NTOA_BUFFER_SIZE));] *)
Fixpoint ntoa_digits (fuel : nat) (value base flags : Z) (buf : list ascii)
    : list ascii :=
  match fuel with
  | O => buf
  | S k =>
      let digit := value mod base in
      let buf := buf ++ [ntoa_digit digit flags] in
      let value := value / base in
      if negb (value =? 0) && room buf PRINTF_NTOA_BUFFER_SIZE
      then ntoa_digits k value base flags buf
      else buf
  end.

(** [_ntoa]: [value] is an [unsigned long long]. *)
Definition _ntoa (st : state) (value : Z) (negative : bool)
    (base precision width flags : Z) : state :=
  if value =? 0 then
    if negb (has flags FLAGS_PRECISION)
    then _ntoa_format st ["0"%char] negative base precision width
                      (clear_flag flags FLAGS_HASH)
    else if base =? BASE_HEX
    then _ntoa_format st [] negative base precision width
                      (clear_flag flags FLAGS_HASH)
    else _ntoa_format st [] negative base precision width flags
  else
    _ntoa_format st
      (ntoa_digits (Z.to_nat PRINTF_NTOA_BUFFER_SIZE) value base flags [])
      negative base precision width flags.

End Formatter.

Arguments state : clear implicits.

(** ** Doubles *)

Definition double : Set := float.

(** [(double) z] for an integer [z]: the nearest double, ties to even. *)
Definition double_of_Z (z : Z) : double :=
  SF2Prim (binary_normalize prec emax z 0 false).

(** The value of a finite double, truncated toward zero. *)
Definition trunc_double (x : double) : option Z :=
  match Prim2SF x with
  | S754_zero _ => Some 0
  | S754_finite s m e =>
      let a := if 0 <=? e then Zpos m * 2 ^ e else Zpos m / 2 ^ (- e) in
      Some (if s then - a else a)
  | _ => None
  end.

(** [(int_fast64_t) x].  A value that does not fit is undefined in C; the
    model returns what the conversion instruction of the unix port's
    processor returns (the most negative integer). *)
Definition int64_of_double (x : double) : Z :=
  match trunc_double x with
  | Some v => if (INT64_MIN <=? v) && (v <=? INT64_MAX) then v else INT64_MIN
  | None => INT64_MIN
  end.

(** [(int) x], with the same convention. *)
Definition int_of_double (x : double) : Z :=
  match trunc_double x with
  | Some v => if (INT_MIN <=? v) && (v <=? INT_MAX) then v else INT_MIN
  | None => INT_MIN
  end.

(** [double_with_bit_access]: the [U] view of a double and back. *)
Definition sign_bit (s : bool) : Z := if s then Z.shiftl 1 63 else 0.

Definition double_to_bits (x : double) : Z :=
  match Prim2SF x with
  | S754_zero s => sign_bit s
  | S754_infinity s => Z.lor (sign_bit s) (Z.shiftl 2047 52)
  | S754_nan => Z.lor (Z.shiftl 2047 52) (Z.shiftl 1 51)
  | S754_finite s m e =>
      if Zpos m <? 2 ^ 52
      then Z.lor (sign_bit s) (Zpos m)
      else Z.lor (sign_bit s) (Z.lor (Z.shiftl (e + 1075) 52) (Zpos m - 2 ^ 52))
  end.

Definition bits_to_double (u : Z) : double :=
  let s := Z.testbit u 63 in
  let e := Z.land (Z.shiftr u 52) 2047 in
  let f := Z.land u (2 ^ 52 - 1) in
  if e =? 0 then
    match f with
    | Zpos m => SF2Prim (S754_finite s m (-1074))
    | _ => SF2Prim (S754_zero s)
    end
  else if e =? 2047 then
    if f =? 0 then SF2Prim (S754_infinity s) else SF2Prim S754_nan
  else
    match 2 ^ 52 + f with
    | Zpos m => SF2Prim (S754_finite s m (e - 1075))
    | _ => SF2Prim S754_nan
    end.

Definition get_bit_access (x : double) : Z := double_to_bits x.

Definition get_sign (x : double) : bool :=
  negb (Z.shiftr (get_bit_access x) 63 =? 0).

Definition get_exp2 (u : Z) : Z :=
  to_int (Z.land (Z.shiftr u 52) 2047) - 1023.

Definition DBL_MAX : double := 0x1.fffffffffffffp+1023%float.
(* PRINTF_EXPAND_THEN_CONCATENATE(1e, PRINTF_MAX_INTEGRAL_DIGITS_FOR_DECIMAL) *)
Definition PRINTF_FLOAT_NOTATION_THRESHOLD : double := 1e9%float.

Record double_components :=
  { integral : Z; fractional : Z; is_negative : bool }.

Definition NUM_DECIMAL_DIGITS_IN_INT64_T : Z := 18.
Definition PRINTF_MAX_PRECOMPUTED_POWER_OF_10 : Z := NUM_DECIMAL_DIGITS_IN_INT64_T.
Definition PRINTF_MAX_SUPPORTED_PRECISION : Z := NUM_DECIMAL_DIGITS_IN_INT64_T - 1.

Definition powers_of_10 : list double :=
  [ 1e00; 1e01; 1e02; 1e03; 1e04; 1e05; 1e06; 1e07; 1e08;
    1e09; 1e10; 1e11; 1e12; 1e13; 1e14; 1e15; 1e16; 1e17 ]%float.

(** [powers_of_10[i]]; an index outside the array has no defined value. *)
Definition powers_of_10_at (i : Z) : option double :=
  if (0 <=? i) && (i <? NUM_DECIMAL_DIGITS_IN_INT64_T)
  then nth_error powers_of_10 (Z.to_nat i)
  else None.

(** [get_components] *)
Definition get_components (number : double) (precision : Z)
    : option double_components :=
  match powers_of_10_at precision with
  | None => None
  | Some p10 =>
      let is_negative := get_sign number in
      let abs_number := (if is_negative then - number else number)%float in
      let integral := int64_of_double abs_number in
      let remainder := ((abs_number - double_of_Z integral) * p10)%float in
      let fractional := int64_of_double remainder in
      let remainder := (remainder - double_of_Z fractional)%float in
      let '(integral, fractional) :=
        if (0.5 <? remainder)%float then
          let fractional := to_int64 (fractional + 1) in
          (* handle rollover, e.g. case 0.99 with precision 1 is 1.0 *)
          if (p10 <=? double_of_Z fractional)%float
          then (to_int64 (integral + 1), 0)
          else (integral, fractional)
        else if (remainder =? 0.5)%float then
          if (fractional =? 0) || negb (Z.land fractional 1 =? 0)
          then (* if halfway, round up if odd OR if last digit is 0 *)
            (integral, to_int64 (fractional + 1))
          else (integral, fractional)
        else (integral, fractional) in
      let integral :=
        if precision =? 0 then
          let remainder := (abs_number - double_of_Z integral)%float in
          if (negb (remainder <? 0.5)%float || (0.5 <? remainder)%float)
             && negb (Z.land integral 1 =? 0)
          then (* exactly 0.5 and ODD, then round up *)
            to_int64 (integral + 1)
          else integral
        else integral in
      Some {| integral := integral; fractional := fractional;
              is_negative := is_negative |}
  end.

Arguments get_components number%_float precision%_Z.

Record scaling_factor := { raw_factor : double; multiply : bool }.

Definition apply_scaling (num : double) (normalization : scaling_factor) : double :=
  (if multiply normalization then num * raw_factor normalization
   else num / raw_factor normalization)%float.

Definition unapply_scaling (normalized : double) (normalization : scaling_factor)
    : double :=
  (if multiply normalization then normalized / raw_factor normalization
   else normalized * raw_factor normalization)%float.

Definition update_normalization (sf : scaling_factor)
    (extra_multiplicative_factor : double) : scaling_factor :=
  if multiply sf then
    {| multiply := true;
       raw_factor := (raw_factor sf * extra_multiplicative_factor)%float |}
  else
    let factor_exp2 := get_exp2 (get_bit_access (raw_factor sf)) in
    let extra_factor_exp2 := get_exp2 (get_bit_access extra_multiplicative_factor) in
    (* Divide the larger-exponent raw raw_factor by the smaller *)
    if PRINTF_ABS extra_factor_exp2 <? PRINTF_ABS factor_exp2 then
      {| multiply := false;
         raw_factor := (raw_factor sf / extra_multiplicative_factor)%float |}
    else
      {| multiply := true;
         raw_factor := (extra_multiplicative_factor / raw_factor sf)%float |}.

(** [get_normalized_components] *)
Definition get_normalized_components (negative : bool) (precision : Z)
    (non_normalized : double) (normalization : scaling_factor)
    : option double_components :=
  let integral := int64_of_double (apply_scaling non_normalized normalization) in
  let remainder :=
    (non_normalized - unapply_scaling (double_of_Z integral) normalization)%float in
  match powers_of_10_at precision with
  | None => None
  | Some prec_power_of_10 =>
      let account_for_precision := update_normalization normalization prec_power_of_10 in
      let scaled_remainder := apply_scaling remainder account_for_precision in
      let rounding_threshold := 0.5%float in
      if precision =? 0 then
        let integral :=
          to_int64 (integral + (if (rounding_threshold <=? scaled_remainder)%float
                                then 1 else 0)) in
        let integral :=
          if (scaled_remainder =? rounding_threshold)%float
          then (* banker's rounding: Round towards the even number *)
            Z.land integral (Z.lnot 1)
          else integral in
        Some {| integral := integral; fractional := 0; is_negative := negative |}
      else
        let fractional := int64_of_double scaled_remainder in
        let scaled_remainder := (scaled_remainder - double_of_Z fractional)%float in
        let fractional :=
          to_int64 (fractional + (if (rounding_threshold <=? scaled_remainder)%float
                                  then 1 else 0)) in
        let fractional :=
          if (scaled_remainder =? rounding_threshold)%float
          then Z.land fractional (Z.lnot 1)
          else fractional in
        (* handle rollover, e.g. the case of 0.99 with precision 1 becoming (0,100),
           and must then be corrected into (1, 0). *)
        if (prec_power_of_10 <=? double_of_Z fractional)%float
        then Some {| integral := to_int64 (integral + 1); fractional := 0;
                     is_negative := negative |}
        else Some {| integral := integral; fractional := fractional;
                     is_negative := negative |}
  end.

(** ** Floating-point formatting *)

Section FloatFormatter.

Context {W : Type}.
Variable out : out_fct_type W.
Variable buffer : void_ptr.
Variable maxlen : Z.

Abbreviation state := (state W).

(** [while (true) { digit = fractional % 10U; if (digit != 0) break;
    --count; fractional /= 10U; }], entered with [fractional > 0]:
    a positive 64-bit value has fewer than 19 trailing zeros. *)
Fixpoint strip_trailing_zeros (fuel : nat) (fractional count : Z) : Z * Z :=
  match fuel with
  | O => (fractional, count)
  | S k =>
      if negb (Z.rem fractional 10 =? 0) then (fractional, count)
      else strip_trailing_zeros k (Z.quot fractional 10) (to_uint (count - 1))
  end.

(** [while (len < SIZE) { --count; buf[len++] = '0' + fractional % 10U;
    if (!(fractional /= 10U)) break; }] *)
Fixpoint fractional_digits (fuel : nat) (fractional count : Z) (buf : list ascii)
    : list ascii * Z :=
  match fuel with
  | O => (buf, count)
  | S k =>
      if room buf PRINTF_FTOA_BUFFER_SIZE then
        let count := to_uint (count - 1) in
        let buf := buf ++ [to_char (char_code "0" + Z.rem fractional 10)] in
        let fractional := Z.quot fractional 10 in
        if fractional =? 0 then (buf, count)
        else fractional_digits k fractional count buf
      else (buf, count)
  end.

(** [while ((len < SIZE) && (count-- > 0U)) buf[len++] = '0';] *)
Fixpoint extra_zeros (fuel : nat) (count : Z) (buf : list ascii) : list ascii :=
  match fuel with
  | O => buf
  | S k =>
      if room buf PRINTF_FTOA_BUFFER_SIZE && (0 <? count)
      then extra_zeros k (to_uint (count - 1)) (buf ++ ["0"%char])
      else buf
  end.

(** [while (len < SIZE) { buf[len++] = '0' + integral % 10;
    if (!(integral /= 10)) break; }] *)
Fixpoint integral_digits (fuel : nat) (integral : Z) (buf : list ascii)
    : list ascii :=
  match fuel with
  | O => buf
  | S k =>
      if room buf PRINTF_FTOA_BUFFER_SIZE then
        let buf := buf ++ [to_char (char_code "0" + Z.rem integral 10)] in
        let integral := Z.quot integral 10 in
        if integral =? 0 then buf else integral_digits k integral buf
      else buf
  end.

Definition FTOA_FUEL : nat := Z.to_nat PRINTF_FTOA_BUFFER_SIZE.

(** [sprint_broken_up_decimal] *)
Definition sprint_broken_up_decimal (number_ : double_components) (st : state)
    (precision width flags : Z) (buf : list ascii) : state :=
  let SIZE := PRINTF_FTOA_BUFFER_SIZE in
  let buf :=
    if negb (precision =? 0) then
      (* do fractional part, as an unsigned number *)
      let count := precision in
      let '(fractional, count) :=
        if has flags FLAGS_ADAPT_EXP && negb (has flags FLAGS_HASH) then
          (* %g/%G mandates we skip the trailing 0 digits... *)
          if 0 <? fractional number_
          then strip_trailing_zeros 19 (fractional number_) count
          else (fractional number_, count)
        else (fractional number_, count) in
      if (0 <? fractional) || negb (has flags FLAGS_ADAPT_EXP)
         || has flags FLAGS_HASH
      then
        let '(buf, count) := fractional_digits FTOA_FUEL fractional count buf in
        (* add extra 0s *)
        let buf := extra_zeros FTOA_FUEL count buf in
        if room buf SIZE then buf ++ ["."%char] else buf
      else buf
    else
      if has flags FLAGS_HASH && room buf SIZE then buf ++ ["."%char] else buf in
  (* Write the integer part of the number *)
  let buf := integral_digits FTOA_FUEL (integral number_) buf in
  (* pad leading zeros *)
  let zeropad := negb (has flags FLAGS_LEFT) && has flags FLAGS_ZEROPAD in
  let width :=
    if zeropad && negb (width =? 0)
       && (is_negative number_ || has flags (Z.lor FLAGS_PLUS FLAGS_SPACE))
    then to_uint (width - 1) else width in
  let buf := if zeropad then pad_zeros FTOA_FUEL buf width SIZE else buf in
  let buf :=
    if room buf SIZE then
      if is_negative number_ then buf ++ ["-"%char]
      else if has flags FLAGS_PLUS then buf ++ ["+"%char]
      else if has flags FLAGS_SPACE then buf ++ [" "%char]
      else buf
    else buf in
  _out_rev out buffer maxlen st buf width flags.

(** [sprint_decimal_number] *)
Definition sprint_decimal_number (st : state) (number : double)
    (precision width flags : Z) (buf : list ascii) : option state :=
  match get_components number precision with
  | Some value_ =>
      Some (sprint_broken_up_decimal value_ st precision width flags buf)
  | None => None
  end.

(** The decimal exponent of a non-zero [abs_number] and the matching power
    of ten, as [sprint_exponential_number] estimates them (after the
    algorithm of David Gay's dtoa). *)
Definition estimate_exp10 (abs_number : double) : Z * double :=
  let conv := get_bit_access abs_number in
  let exp2 := get_exp2 conv in
  (* drop the exponent so conv.F is now in [1,2) *)
  let conv := Z.lor (Z.land conv (Z.shiftl 1 52 - 1)) (Z.shiftl 1023 52) in
  (* now approximate log10 from the log2 integer part and an expansion of ln
     around 1.5 *)
  let exp10 :=
    int_of_double
      (0.1760912590558 + double_of_Z exp2 * 0.301029995663981
       + (bits_to_double conv - 1.5) * 0.289529654602168)%float in
  (* now we want to compute 10^exp10 but we want to be sure it won't overflow *)
  let exp2 :=
    int_of_double (double_of_Z exp10 * 3.321928094887362 + 0.5)%float in
  let z := (double_of_Z exp10 * 2.302585092994046
            - double_of_Z exp2 * 0.6931471805599453)%float in
  let z2 := (z * z)%float in
  let conv := Z.shiftl (to_ull (to_int (exp2 + 1023))) 52 mod 2 ^ 64 in
  (* compute exp(z) using continued fractions *)
  let convF :=
    (bits_to_double conv
     * (1 + 2 * z / (2 - z + (z2 / (6 + (z2 / (10 + z2 / 14)))))))%float in
  (* correct for rounding errors *)
  if (abs_number <? convF)%float
  then (to_int (exp10 - 1), (convF / 10)%float)
  else (exp10, convF).

(** [sprint_exponential_number] *)
Definition sprint_exponential_number (st : state) (number : double)
    (precision width flags : Z) (buf : list ascii) : option state :=
  let negative := get_sign number in
  let abs_number := (if negative then - number else number)%float in
  (* Determine the decimal exponent.  For 0.0 the C code leaves
     [abs_exp10_covered_by_powers_table] and [normalization.raw_factor]
     unset and never reads them ([exp10] is 0); any value does here. *)
  let '(exp10, covered, raw) :=
    if (abs_number =? 0)%float then (0, Some false, Some 0%float)
    else
      let '(exp10, convF) := estimate_exp10 abs_number in
      let covered := PRINTF_ABS exp10 <? PRINTF_MAX_PRECOMPUTED_POWER_OF_10 in
      (exp10, Some covered,
       if covered then powers_of_10_at (PRINTF_ABS exp10) else Some convF) in
  match covered, raw with
  | Some abs_exp10_covered_by_powers_table, Some raw =>
      let '(fall_back_to_decimal_only_mode, precision, flags) :=
        if has flags FLAGS_ADAPT_EXP then
          let required_significant_digits :=
            if precision =? 0 then 1 else to_int precision in
          let fall_back :=
            (-4 <=? exp10) && (exp10 <? required_significant_digits) in
          let precision_ :=
            if fall_back then to_int (to_int (to_int precision - 1) - exp10)
            else to_int (to_int precision - 1) in
          (fall_back,
           (if 0 <? precision_ then to_uint precision_ else 0),
           set_flag flags FLAGS_PRECISION)
        else (false, precision, flags) in
      let normalization :=
        {| raw_factor := raw;
           multiply := (exp10 <? 0) && abs_exp10_covered_by_powers_table |} in
      let should_skip_normalization :=
        fall_back_to_decimal_only_mode || (exp10 =? 0) in
      let decimal_part_components :=
        if should_skip_normalization
        then get_components
               (if negative then - abs_number else abs_number)%float precision
        else get_normalized_components negative precision abs_number
               normalization in
      match decimal_part_components with
      | None => None
      | Some decimal_part_components =>
          (* Account for roll-over, e.g. rounding from 9.99 to 100.0 *)
          let rolled :=
            if fall_back_to_decimal_only_mode then
              if has flags FLAGS_ADAPT_EXP && (-1 <=? exp10) then
                match powers_of_10_at (exp10 + 1) with
                | Some p =>
                    Some (if (double_of_Z (integral decimal_part_components) =? p)%float
                          then (to_int (exp10 + 1), to_uint (precision - 1),
                                decimal_part_components)
                          else (exp10, precision, decimal_part_components))
                | None => None
                end
              else Some (exp10, precision, decimal_part_components)
            else
              if 10 <=? integral decimal_part_components
              then Some (to_int (exp10 + 1), precision,
                         {| integral := 1; fractional := 0;
                            is_negative := is_negative decimal_part_components |})
              else Some (exp10, precision, decimal_part_components) in
          match rolled with
          | None => None
          | Some (exp10, precision, decimal_part_components) =>
              (* the exp10 format is "E%+03d" and largest number is "307",
                 so set aside 4-5 characters *)
              let exp10_part_width :=
                if fall_back_to_decimal_only_mode then 0
                else if (exp10 <? 100) && (-100 <? exp10) then 4 else 5 in
              let decimal_part_width :=
                if has flags FLAGS_LEFT && negb (exp10_part_width =? 0) then 0
                else if exp10_part_width <? width
                     then to_uint (width - exp10_part_width) else 0 in
              let start_idx := idx st in
              let st :=
                sprint_broken_up_decimal decimal_part_components st precision
                  decimal_part_width flags buf in
              if negb fall_back_to_decimal_only_mode then
                let st :=
                  put out buffer maxlen
                    (if has flags FLAGS_UPPERCASE then "E" else "e")%char st in
                let st :=
                  _ntoa out buffer maxlen st (NTOA_ABS exp10) (exp10 <? 0) 10 0
                    (to_uint (exp10_part_width - 1))
                    (Z.lor FLAGS_ZEROPAD FLAGS_PLUS) in
                if has flags FLAGS_LEFT
                then (* We need to right-pad with spaces to meet the width
                        requirement *)
                  Some (pad_right out buffer maxlen (Z.to_nat width) start_idx
                          width st)
                else Some st
              else Some st
          end
      end
  | _, _ => None
  end.

(** [while ((len < SIZE) && (precision > PRINTF_MAX_SUPPORTED_PRECISION))
    { buf[len++] = '0'; precision--; }] *)
Fixpoint limit_precision (fuel : nat) (precision : Z) (buf : list ascii)
    : Z * list ascii :=
  match fuel with
  | O => (precision, buf)
  | S k =>
      if room buf PRINTF_FTOA_BUFFER_SIZE
         && (PRINTF_MAX_SUPPORTED_PRECISION <? precision)
      then limit_precision k (to_uint (precision - 1)) (buf ++ ["0"%char])
      else (precision, buf)
  end.

(** [sprint_floating_point] *)
Definition sprint_floating_point (st : state) (value : double)
    (precision width flags : Z) (prefer_exponential : bool) : option state :=
  (* test for special values *)
  if negb (value =? value)%float then
    Some (_out_rev out buffer maxlen st (chars "nan") width flags)
  else if (value <? - DBL_MAX)%float then
    Some (_out_rev out buffer maxlen st (chars "fni-") width flags)
  else if (DBL_MAX <? value)%float then
    Some (_out_rev out buffer maxlen st
            (if has flags FLAGS_PLUS then chars "fni+" else chars "fni")
            width flags)
  else if negb prefer_exponential
          && ((PRINTF_FLOAT_NOTATION_THRESHOLD <? value)%float
              || (value <? - PRINTF_FLOAT_NOTATION_THRESHOLD)%float)
  then sprint_exponential_number st value precision width flags []
  else
    (* set default precision, if not set explicitly *)
    let precision :=
      if negb (has flags FLAGS_PRECISION)
      then PRINTF_DEFAULT_FLOAT_PRECISION else precision in
    (* limit precision so that our integer holding the fractional part does
       not overflow *)
    let '(precision, buf) := limit_precision FTOA_FUEL precision [] in
    if prefer_exponential
    then sprint_exponential_number st value precision width flags buf
    else sprint_decimal_number st value precision width flags buf.

End FloatFormatter.

(** ** The variadic argument list *)

(** One argument after the default argument promotions. *)
Inductive va_value :=
| VInt (v : Z)                  (* int or unsigned int *)
| VLong (v : Z)                 (* long or unsigned long *)
| VLongLong (v : Z)             (* long long or unsigned long long *)
| VDouble (v : double)
| VString (s : option string)   (* char*; [None] is NULL *)
| VPointer (p : Z).             (* void*; 0 is NULL *)

Definition va_list : Type := list va_value.

Arguments VDouble v%_float.

(** [va_arg(va, T)].  Reading past the end of the list, or reading an
    argument at another type, has no defined result. *)
Definition va_arg_int (va : va_list) : option (Z * va_list) :=
  match va with VInt v :: va' => Some (to_int v, va') | _ => None end.
Definition va_arg_unsigned_int (va : va_list) : option (Z * va_list) :=
  match va with VInt v :: va' => Some (to_uint v, va') | _ => None end.
Definition va_arg_long (va : va_list) : option (Z * va_list) :=
  match va with VLong v :: va' => Some (to_long v, va') | _ => None end.
Definition va_arg_unsigned_long (va : va_list) : option (Z * va_list) :=
  match va with VLong v :: va' => Some (to_ull v, va') | _ => None end.
Definition va_arg_long_long (va : va_list) : option (Z * va_list) :=
  match va with VLongLong v :: va' => Some (to_int64 v, va') | _ => None end.
Definition va_arg_unsigned_long_long (va : va_list) : option (Z * va_list) :=
  match va with VLongLong v :: va' => Some (to_ull v, va') | _ => None end.
Definition va_arg_double (va : va_list) : option (double * va_list) :=
  match va with VDouble v :: va' => Some (v, va') | _ => None end.
(** a [char*] argument; a null [void*] may stand for it *)
Definition va_arg_char_ptr (va : va_list) : option (option string * va_list) :=
  match va with
  | VString s :: va' => Some (s, va')
  | VPointer 0 :: va' => Some (None, va')
  | _ => None
  end.
(** a [void*] argument as [uintptr_t]; a null [char*] may stand for it *)
Definition va_arg_void_ptr (va : va_list) : option (Z * va_list) :=
  match va with
  | VPointer p :: va' => Some (to_ull p, va')
  | VString None :: va' => Some (0, va')
  | _ => None
  end.

(** ** The format-string interpreter *)

Section Interpreter.

Context {W : Type}.
Variable out : out_fct_type W.
Variable buffer : void_ptr.
Variable maxlen : Z.

Abbreviation state := (state W).

(** evaluate flags: [do { switch ( *format ) ... } while (n);] *)
Fixpoint eval_flags (format : string) (flags : Z) : Z * string :=
  match format with
  | String c rest =>
      if char_eqb c "0" then eval_flags rest (set_flag flags FLAGS_ZEROPAD)
      else if char_eqb c "-" then eval_flags rest (set_flag flags FLAGS_LEFT)
      else if char_eqb c "+" then eval_flags rest (set_flag flags FLAGS_PLUS)
      else if char_eqb c " " then eval_flags rest (set_flag flags FLAGS_SPACE)
      else if char_eqb c "#" then eval_flags rest (set_flag flags FLAGS_HASH)
      else (flags, format)
  | EmptyString => (flags, format)
  end.

(** evaluate width field: the new flags, the width, the rest of the format
    and of the arguments *)
Definition eval_width (format : string) (flags : Z) (va : va_list)
    : option (Z * Z * string * va_list) :=
  match format with
  | String c rest =>
      if _is_digit c then
        let '(width, format) := _atoi format in
        Some (flags, width, format, va)
      else if char_eqb c "*" then
        match va_arg_int va with
        | Some (w, va) =>
            if w <? 0
            then (* reverse padding *)
              Some (set_flag flags FLAGS_LEFT, to_uint (- w), rest, va)
            else Some (flags, to_uint w, rest, va)
        | None => None
        end
      else Some (flags, 0, format, va)
  | EmptyString => Some (flags, 0, format, va)
  end.

(** evaluate precision field *)
Definition eval_precision (format : string) (flags : Z) (va : va_list)
    : option (Z * Z * string * va_list) :=
  match format with
  | String "." rest =>
      let flags := set_flag flags FLAGS_PRECISION in
      match rest with
      | String c rest' =>
          if _is_digit c then
            let '(precision, format) := _atoi rest in
            Some (flags, precision, format, va)
          else if char_eqb c "*" then
            match va_arg_int va with
            | Some (precision_, va) =>
                Some (flags, (if 0 <? precision_ then to_uint precision_ else 0),
                      rest', va)
            | None => None
            end
          else Some (flags, 0, rest, va)
      | EmptyString => Some (flags, 0, rest, va)
      end
  | _ => Some (flags, 0, format, va)
  end.

(** evaluate length field; [ptrdiff_t], [intmax_t] and [size_t] have the
    size of [long] *)
Definition eval_length (format : string) (flags : Z) : Z * string :=
  match format with
  | String "l" rest =>
      let flags := set_flag flags FLAGS_LONG in
      match rest with
      | String "l" rest' => (set_flag flags FLAGS_LONG_LONG, rest')
      | _ => (flags, rest)
      end
  | String "h" rest =>
      let flags := set_flag flags FLAGS_SHORT in
      match rest with
      | String "h" rest' => (set_flag flags FLAGS_CHAR, rest')
      | _ => (flags, rest)
      end
  | String "t" rest => (set_flag flags FLAGS_LONG, rest)
  | String "j" rest => (set_flag flags FLAGS_LONG, rest)
  | String "z" rest => (set_flag flags FLAGS_LONG, rest)
  | _ => (flags, format)
  end.

(** [while (l++ < width) out(' ', buffer, idx++, maxlen);]
    runs [width - l] times when [l < width] and not at all otherwise. *)
Definition pad_spaces (l width : Z) (st : state) : state :=
  put_n out buffer maxlen (Z.to_nat (width - l)) " " st.

(** [while (( *p != 0) && (!(flags & FLAGS_PRECISION) || precision--))
    out( *(p++), buffer, idx++, maxlen);] *)
Fixpoint put_str (p : string) (limited : bool) (precision : Z) (st : state)
    : state :=
  match p with
  | String c rest =>
      if char_eqb c NUL then st
      else if limited then
        if precision =? 0 then st
        else put_str rest limited (to_uint (precision - 1))
               (put out buffer maxlen c st)
      else put_str rest limited precision (put out buffer maxlen c st)
  | EmptyString => st
  end.

(** the integer conversions d, i, u, x, X, o, b; [c] is [*format] *)
Definition convert_integer (c : ascii) (flags width precision : Z)
    (va : va_list) (st : state) : option (va_list * state) :=
  (* set the base *)
  let '(base, flags) :=
    if char_eqb c "x" || char_eqb c "X" then (BASE_HEX, flags)
    else if char_eqb c "o" then (BASE_OCTAL, flags)
    else if char_eqb c "b" then (BASE_BINARY, flags)
    else (BASE_DECIMAL, clear_flag flags FLAGS_HASH) (* no hash for dec format *) in
  (* uppercase *)
  let flags := if char_eqb c "X" then set_flag flags FLAGS_UPPERCASE else flags in
  (* no plus or space flag for u, x, X, o, b *)
  let flags :=
    if negb (char_eqb c "i") && negb (char_eqb c "d")
    then clear_flag flags (Z.lor FLAGS_PLUS FLAGS_SPACE) else flags in
  (* ignore '0' flag when precision is given *)
  let flags :=
    if has flags FLAGS_PRECISION then clear_flag flags FLAGS_ZEROPAD else flags in
  let ntoa value negative :=
    _ntoa out buffer maxlen st value negative base precision width flags in
  (* convert the integer *)
  if char_eqb c "i" || char_eqb c "d" then
    (* signed *)
    if has flags FLAGS_LONG_LONG then
      match va_arg_long_long va with
      | Some (value, va) => Some (va, ntoa (NTOA_ABS value) (value <? 0))
      | None => None
      end
    else if has flags FLAGS_LONG then
      match va_arg_long va with
      | Some (value, va) => Some (va, ntoa (NTOA_ABS value) (value <? 0))
      | None => None
      end
    else
      match va_arg_int va with
      | Some (v, va) =>
          let value :=
            if has flags FLAGS_CHAR then to_schar v
            else if has flags FLAGS_SHORT then to_short v
            else v in
          Some (va, ntoa (NTOA_ABS value) (value <? 0))
      | None => None
      end
  else
    (* unsigned *)
    if has flags FLAGS_LONG_LONG then
      match va_arg_unsigned_long_long va with
      | Some (value, va) => Some (va, ntoa value false)
      | None => None
      end
    else if has flags FLAGS_LONG then
      match va_arg_unsigned_long va with
      | Some (value, va) => Some (va, ntoa value false)
      | None => None
      end
    else
      match va_arg_unsigned_int va with
      | Some (v, va) =>
          let value :=
            if has flags FLAGS_CHAR then to_uchar v
            else if has flags FLAGS_SHORT then to_ushort v
            else v in
          Some (va, ntoa value false)
      | None => None
      end.

Definition is_integer_specifier (c : ascii) : bool :=
  char_eqb c "d" || char_eqb c "i" || char_eqb c "u" || char_eqb c "x"
  || char_eqb c "X" || char_eqb c "o" || char_eqb c "b".

(** evaluate specifier: [switch ( *format )], with [*format = c] and
    [format + 1 = rest].  The result is the format pointer, the argument
    list and the output state after the conversion.  In the [default]
    case on the terminating NUL the C code steps [format] past the end of
    the string; what it reads next is not defined. *)
Definition eval_specifier (format : string) (flags width precision : Z)
    (va : va_list) (st : state) : option (string * va_list * state) :=
  let c := deref format in
  let rest := match format with String _ r => r | EmptyString => EmptyString end in
  if is_integer_specifier c then
    match convert_integer c flags width precision va st with
    | Some (va, st) => Some (rest, va, st)
    | None => None
    end
  else if char_eqb c "f" || char_eqb c "F" then
    let flags := if char_eqb c "F" then set_flag flags FLAGS_UPPERCASE else flags in
    match va_arg_double va with
    | Some (value, va) =>
        match sprint_floating_point out buffer maxlen st value precision width
                flags PRINTF_PREFER_DECIMAL with
        | Some st => Some (rest, va, st)
        | None => None
        end
    | None => None
    end
  else if char_eqb c "e" || char_eqb c "E" || char_eqb c "g" || char_eqb c "G" then
    let flags :=
      if char_eqb c "g" || char_eqb c "G"
      then set_flag flags FLAGS_ADAPT_EXP else flags in
    let flags :=
      if char_eqb c "E" || char_eqb c "G"
      then set_flag flags FLAGS_UPPERCASE else flags in
    match va_arg_double va with
    | Some (value, va) =>
        match sprint_floating_point out buffer maxlen st value precision width
                flags PRINTF_PREFER_EXPONENTIAL with
        | Some st => Some (rest, va, st)
        | None => None
        end
    | None => None
    end
  else if char_eqb c "c" then
    let l := 1 in
    (* pre padding *)
    let st := if negb (has flags FLAGS_LEFT) then pad_spaces l width st else st in
    (* char output *)
    match va_arg_int va with
    | Some (v, va) =>
        let st := put out buffer maxlen (to_char v) st in
        (* post padding *)
        let st := if has flags FLAGS_LEFT then pad_spaces l width st else st in
        Some (rest, va, st)
    | None => None
    end
  else if char_eqb c "s" then
    match va_arg_char_ptr va with
    | Some (None, va) =>
        Some (rest, va, _out_rev out buffer maxlen st (chars ")llun(") width flags)
    | Some (Some p, va) =>
        let l := _strnlen_s p (if negb (precision =? 0) then precision else SIZE_MAX) in
        (* pre padding *)
        let l :=
          if has flags FLAGS_PRECISION
          then (if l <? precision then l else precision) else l in
        let st := if negb (has flags FLAGS_LEFT) then pad_spaces l width st else st in
        (* string output *)
        let st := put_str p (has flags FLAGS_PRECISION) precision st in
        (* post padding *)
        let st := if has flags FLAGS_LEFT then pad_spaces l width st else st in
        Some (rest, va, st)
    | None => None
    end
  else if char_eqb c "p" then
    let width := 8 * 2 + 2 in (* 2 hex chars per byte + the "0x" prefix *)
    let flags := set_flag flags (Z.lor FLAGS_ZEROPAD FLAGS_POINTER) in
    match va_arg_void_ptr va with
    | Some (value, va) =>
        if value =? 0
        then Some (rest, va,
                   _out_rev out buffer maxlen st (chars ")lin(") width flags)
        else Some (rest, va,
                   _ntoa out buffer maxlen st value false BASE_HEX precision
                     width flags)
    | None => None
    end
  else if char_eqb c "%" then
    Some (rest, va, put out buffer maxlen "%" st)
  else
    (* default *)
    match format with
    | String _ _ =>
        if char_eqb c NUL then None
        else Some (rest, va, put out buffer maxlen c st)
    | EmptyString => None
    end.

(** the flags, width, precision and length fields of one directive,
    entered after the ['%'] has been skipped: the flags, the width, the
    precision, and the rest of the format and of the arguments *)
Definition eval_header (format : string) (va : va_list)
    : option (Z * Z * Z * string * va_list) :=
  let '(flags, format) := eval_flags format 0 in
  match eval_width format flags va with
  | None => None
  | Some (flags, width, format, va) =>
      match eval_precision format flags va with
      | None => None
      | Some (flags, precision, format, va) =>
          let '(flags, format) := eval_length format flags in
          Some (flags, width, precision, format, va)
      end
  end.

(** one [%...] directive *)
Definition eval_directive (format : string) (va : va_list) (st : state)
    : option (string * va_list * state) :=
  match eval_header format va with
  | None => None
  | Some (flags, width, precision, format, va) =>
      eval_specifier format flags width precision va st
  end.

(** [while ( *format ) { ... }]: every iteration consumes at least one
    character of the format, so [fuel] above its length is never used up. *)
Fixpoint vsnprintf_loop (fuel : nat) (format : string) (va : va_list)
    (st : state) : option state :=
  match fuel with
  | O => None
  | S fuel =>
      match format with
      | EmptyString => Some st
      | String c rest =>
          if char_eqb c NUL then Some st
          else if negb (char_eqb c "%") then
            vsnprintf_loop fuel rest va (put out buffer maxlen c st)
          else
            match eval_directive rest va st with
            | Some (format, va, st) => vsnprintf_loop fuel format va st
            | None => None
            end
      end
  end.

End Interpreter.

(** [_vsnprintf]: the returned [int] and the destination after the call. *)
Definition _vsnprintf {W : Type} (out : out_fct_type W) (buffer : void_ptr)
    (maxlen : Z) (format : string) (va : va_list) (w : W) : option (Z * W) :=
  let out := if is_null buffer then _out_null else out in
  match vsnprintf_loop out buffer maxlen (S (String.length format)) format va
          {| dest := w; idx := 0 |} with
  | Some st =>
      (* termination *)
      let w := out NUL buffer
                 (if idx st <? maxlen then idx st else to_size_t (maxlen - 1))
                 maxlen (dest st) in
      (* return written chars without terminating \0 *)
      Some (to_int (idx st), w)
  | None => None
  end.

(** ** Public entry points *)

Definition utl_printf (format : string) (va : va_list) (w : world)
    : option (Z * world) :=
  _vsnprintf _out_char LocalPtr SIZE_MAX format va w.

Definition utl_sprintf (buffer : Z) (format : string) (va : va_list) (w : world)
    : option (Z * world) :=
  _vsnprintf _out_buffer (CharPtr buffer) SIZE_MAX format va w.

Definition utl_snprintf (buffer : Z) (count : Z) (format : string) (va : va_list)
    (w : world) : option (Z * world) :=
  _vsnprintf _out_buffer (CharPtr buffer) count format va w.

Definition utl_vprintf := utl_printf.
Definition utl_vsprintf := utl_sprintf.
Definition utl_vsnprintf := utl_snprintf.

Definition utl_vfctprintf (out : Z) (arg : Z) (format : string) (va : va_list)
    (w : world) : option (Z * world) :=
  _vsnprintf _out_fct (WrapPtr {| fct := out; arg := arg |}) SIZE_MAX format va w.

Definition utl_fctprintf := utl_vfctprintf.

(** The characters a call hands to its output function before the
    terminator, in order: the logical output of the call. *)
Definition output (format : string) (va : va_list) : option (list ascii) :=
  match vsnprintf_loop out_record LocalPtr SIZE_MAX (S (String.length format))
          format va {| dest := []; idx := 0 |} with
  | Some st => Some (dest st)
  | None => None
  end.

(** ** Definitions used to state the properties *)

(** The number of iterations of [pad_right] when it is entered [d]
    characters after [start_idx]. *)
Fixpoint pad_count (fuel : nat) (d width : Z) : nat :=
  match fuel with
  | O => O
  | S k => if d <? width then S (pad_count k (to_size_t (d + 1)) width) else O
  end.

(** A formatting step, for every destination type and output function. *)
Definition emitter : Type :=
  forall W : Type, out_fct_type W -> void_ptr -> Z -> state W -> state W.

(** [emits f cs]: whatever the output function is, [f] hands it exactly
    the characters [cs], in order, at consecutive indices. *)
Definition emits (f : emitter) (cs : list ascii) : Prop :=
  forall (W : Type) (out : out_fct_type W) buffer maxlen (st : state W),
    f W out buffer maxlen st = put_list out buffer maxlen cs st.

(** The same for a step that may have no defined result and that also
    yields a value [a] (the rest of the format, of the arguments, ...). *)
Definition emitter_opt (A : Type) : Type :=
  forall W : Type, out_fct_type W -> void_ptr -> Z -> state W -> option (A * state W).

Definition emits_opt {A : Type} (f : emitter_opt A) (r : option (A * list ascii))
    : Prop :=
  forall (W : Type) (out : out_fct_type W) buffer maxlen (st : state W),
    f W out buffer maxlen st
    = match r with
      | Some (a, cs) => Some (a, put_list out buffer maxlen cs st)
      | None => None
      end.

(** A step that may have no defined result and yields only the state. *)
Definition emits_st
    (f : forall W : Type,
        out_fct_type W -> void_ptr -> Z -> state W -> option (state W))
    (r : option (list ascii)) : Prop :=
  forall (W : Type) (out : out_fct_type W) buffer maxlen (st : state W),
    f W out buffer maxlen st
    = match r with
      | Some cs => Some (put_list out buffer maxlen cs st)
      | None => None
      end.

(** The characters a step emits, read off from a run with the recording
    output function. *)
Definition start {W : Type} (w : W) : state W := {| dest := w; idx := 0 |}.

Definition emitted (f : emitter) : list ascii :=
  dest (f _ out_record LocalPtr SIZE_MAX (start [])).

Definition emitted_st
    (f : forall W : Type,
        out_fct_type W -> void_ptr -> Z -> state W -> option (state W))
    : option (list ascii) :=
  match f _ out_record LocalPtr SIZE_MAX (start []) with
  | Some st => Some (dest st)
  | None => None
  end.

Definition emitted_opt {A : Type} (f : emitter_opt A) : option (A * list ascii) :=
  match f _ out_record LocalPtr SIZE_MAX (start []) with
  | Some (a, st) => Some (a, dest st)
  | None => None
  end.

(** [f] does nothing but emit characters, the same for every output
    function and at every index. *)
Definition is_emitter (f : emitter) : Prop := emits f (emitted f).
Definition is_emitter_st f : Prop := emits_st f (emitted_st f).
Definition is_emitter_opt {A : Type} (f : emitter_opt A) : Prop :=
  emits_opt f (emitted_opt f).

(** A sequence of stores [buffer[i] = c] applied to the memory. *)
Definition store (buffer : Z) (writes : list (Z * ascii)) (w : world) : world :=
  fold_left
    (fun w '(i, c) =>
       {| memory := <[buffer + i := c]> (memory w); events := events w |})
    writes w.

(** A sequence of events appended to the log. *)
Definition log (evs : list event) (w : world) : world :=
  {| memory := memory w; events := events w ++ evs |}.

(** The stores [_out_buffer] performs for the characters [cs] handed to it
    from index [i] on: those at an index below [maxlen]. *)
Fixpoint writes_from (maxlen : Z) (cs : list ascii) (i : Z) : list (Z * ascii) :=
  match cs with
  | [] => []
  | c :: cs' =>
      (if i <? maxlen then [(i, c)] else [])
      ++ writes_from maxlen cs' (to_size_t (i + 1))
  end.

(** The characters [_out_char] and [_out_fct] pass on: all but NUL. *)
Definition passed_on (cs : list ascii) : list ascii :=
  List.filter (fun c => negb (char_eqb c NUL)) cs.

(** The world before anything was written. *)
Definition w0 : world := {| memory := ∅; events := [] |}.

(** Reading a decimal numeral, most significant digit first. *)
Definition digit_value (c : ascii) : option Z :=
  if (48 <=? char_code c) && (char_code c <=? 57) then Some (char_code c - 48)
  else None.

Fixpoint decimal_value_from (acc : Z) (s : list ascii) : option Z :=
  match s with
  | [] => Some acc
  | c :: s' =>
      match digit_value c with
      | Some d => decimal_value_from (10 * acc + d) s'
      | None => None
      end
  end.



(** The conversion letters the interpreter recognizes. *)
Definition is_specifier (c : ascii) : bool :=
  existsb (Ascii.eqb c) (chars "diuxXobfFeEgGcsp%").

(** The locals of [get_components] before it rounds: the integral part,
    the truncated scaled fractional part, and the remainder it compares
    with 0.5. *)
Definition scaled_fraction (number : double) (precision : Z)
    : option (Z * Z * double) :=
  match powers_of_10_at precision with
  | None => None
  | Some p10 =>
      let abs_number := (if get_sign number then - number else number)%float in
      let integral := int64_of_double abs_number in
      let remainder := ((abs_number - double_of_Z integral) * p10)%float in
      let fractional := int64_of_double remainder in
      Some (integral, fractional, (remainder - double_of_Z fractional)%float)
  end.

Arguments scaled_fraction number%_float precision%_Z.

(** ** Definitions used to state further properties *)

(** The characters of a C string: those before its first NUL. *)
Fixpoint c_str (s : string) : list ascii :=
  match s with
  | String c rest => if char_eqb c NUL then [] else c :: c_str rest
  | EmptyString => []
  end.

(** The text printed for a value that is not a finite number. *)
Definition special_float (x : spec_float) (plus : bool) : option string :=
  match x with
  | S754_nan => Some "nan"%string
  | S754_infinity true => Some "-inf"%string
  | S754_infinity false => Some (if plus then "+inf" else "inf")%string
  | _ => None
  end.

(** The bit of a flag character. *)
Definition flag_of (c : ascii) : option Z :=
  if char_eqb c "0" then Some FLAGS_ZEROPAD
  else if char_eqb c "-" then Some FLAGS_LEFT
  else if char_eqb c "+" then Some FLAGS_PLUS
  else if char_eqb c " " then Some FLAGS_SPACE
  else if char_eqb c "#" then Some FLAGS_HASH
  else None.

(** The flags a sequence of flag characters sets. *)
Definition flags_of (fl : list ascii) (flags : Z) : Z :=
  fold_left (fun f c => match flag_of c with
                        | Some b => set_flag f b
                        | None => f
                        end) fl flags.

(** Ordinary text of a format: neither the terminator nor ['%']. *)
Definition literal (c : ascii) : Prop := c <> NUL /\ c <> "%"%char.

(** The value of a digit character in the alphabet of [_ntoa]:
    ['0'..'9'], then ['a'..'f'] or, in upper case, ['A'..'F']. *)
Definition digit_of (upper : bool) (c : ascii) : option Z :=
  let n := char_code c in
  if (48 <=? n) && (n <=? 57) then Some (n - 48)
  else if upper then (if (65 <=? n) && (n <=? 70) then Some (n - 55) else None)
  else (if (97 <=? n) && (n <=? 102) then Some (n - 87) else None).

(** Reading a numeral in base [base], most significant digit first. *)
Fixpoint numeral_value_from (upper : bool) (base acc : Z) (s : list ascii)
    : option Z :=
  match s with
  | [] => Some acc
  | c :: s' =>
      match digit_of upper c with
      | Some d =>
          if d <? base then numeral_value_from upper base (base * acc + d) s'
          else None
      | None => None
      end
  end.

(** at least one digit *)
Definition numeral_value (upper : bool) (base : Z) (s : list ascii) : option Z :=
  match s with
  | [] => None
  | _ => numeral_value_from upper base 0 s
  end.

(** no leading zero, except for the numeral ["0"] itself *)
Definition canonical_numeral (s : list ascii) : bool :=
  match s with
  | "0"%char :: _ :: _ => false
  | _ => true
  end.

(** The sign character of a number. *)
Definition sign_chars (negative : bool) (flags : Z) : list ascii :=
  if negative then ["-"%char]
  else if has flags FLAGS_PLUS then ["+"%char]
  else if has flags FLAGS_SPACE then [" "%char]
  else [].

(** The field of an integer conversion without ['#'], for the digits
    [digits] (most significant first): zeros bring the number to the
    precision and, with the ['0'] flag of a right-justified field, to the
    width less the sign, but to no more than the 32 characters of the
    conversion buffer; the sign is added if the buffer has room for it;
    spaces bring the field to the width, on the right with the ['-'] flag,
    on the left without ['-'] and ['0']. *)
Definition integer_field (digits : list ascii) (negative : bool)
    (precision width flags : Z) : list ascii :=
  let left := has flags FLAGS_LEFT in
  let zero := has flags FLAGS_ZEROPAD in
  let sign := sign_chars negative flags in
  let len := Z.of_nat (length digits) in
  let zero_width :=
    if negb left && zero then
      match sign with
      | [] => width
      | _ => if width =? 0 then 0 else width - 1
      end
    else 0 in
  let n := Z.max len (Z.min (Z.max zero_width precision) PRINTF_NTOA_BUFFER_SIZE) in
  let number :=
    (if n <? PRINTF_NTOA_BUFFER_SIZE then sign else [])
    ++ repeat "0"%char (Z.to_nat (n - len)) ++ digits in
  let pad := repeat " "%char (Z.to_nat (width - Z.of_nat (length number))) in
  if left then number ++ pad
  else if zero then number
  else pad ++ number.

(** The flags the integer conversions look at. *)
Definition same_format_flags (f1 f2 : Z) : Prop :=
  has f1 FLAGS_ZEROPAD = has f2 FLAGS_ZEROPAD
  /\ has f1 FLAGS_LEFT = has f2 FLAGS_LEFT
  /\ has f1 FLAGS_PLUS = has f2 FLAGS_PLUS
  /\ has f1 FLAGS_SPACE = has f2 FLAGS_SPACE
  /\ has f1 FLAGS_HASH = has f2 FLAGS_HASH
  /\ has f1 FLAGS_UPPERCASE = has f2 FLAGS_UPPERCASE
  /\ has f1 FLAGS_PRECISION = has f2 FLAGS_PRECISION
  /\ has f1 FLAGS_POINTER = has f2 FLAGS_POINTER.


(** The flags, width and precision fields of a header set six flags and
    no other: a flag [b] that shares no bit with them is left as it was. *)
Definition not_header_flag (b : Z) : Prop :=
  has FLAGS_ZEROPAD b = false /\ has FLAGS_LEFT b = false
  /\ has FLAGS_PLUS b = false /\ has FLAGS_SPACE b = false
  /\ has FLAGS_HASH b = false /\ has FLAGS_PRECISION b = false.

(** A width or a precision as the format gives it: digits (none for an
    absent width, or for a ['.'] alone), or ['*'] with the [int] argument
    it takes. *)
Inductive header_field :=
| Digits (ds : list ascii)
| Star (v : Z).

Definition field_text (f : header_field) : string :=
  match f with
  | Digits ds => string_of_list_ascii ds
  | Star _ => "*"%string
  end.

Definition field_args (f : header_field) : va_list :=
  match f with
  | Digits _ => []
  | Star v => [VInt v]
  end.

Definition field_digits (f : header_field) : Prop :=
  match f with
  | Digits ds => Forall (fun c => _is_digit c = true) ds
  | Star _ => True
  end.

(** The header of a directive, between ['%'] and the length modifier:
    flag characters, a width and, after a ['.'], a precision; and the
    arguments its ['*'] fields take. *)
Definition header_text (fl : list ascii) (width : header_field)
    (precision : option header_field) : string :=
  (string_of_list_ascii fl ++ field_text width
   ++ match precision with
      | Some f => String "." (field_text f)
      | None => ""
      end)%string.

Definition header_args (width : header_field) (precision : option header_field)
    : va_list :=
  field_args width ++ match precision with
                      | Some f => field_args f
                      | None => []
                      end.

(** A number, not a NaN, of sign bit [s]. *)
Definition has_sign (s : bool) (x : spec_float) : Prop :=
  match x with
  | S754_zero s' | S754_infinity s' | S754_finite s' _ _ => s' = s
  | S754_nan => False
  end.

(** * Properties *)

(** ** Output functions and the write index *)

Section PutFacts.

Context {W : Type}.
Variable out : out_fct_type W.
Variable buffer : void_ptr.
Variable maxlen : Z.

Lemma put_list_app (a b : list ascii) (st : state W) :
  put_list out buffer maxlen (a ++ b) st = put_list out buffer maxlen b (put_list out buffer maxlen a st).
Proof.
  revert st; induction a as [|c a IH]; intros st; simpl; [reflexivity|].
  apply IH.
Qed.

Lemma put_list_snoc (a : list ascii) (c : ascii) (st : state W) :
  put_list out buffer maxlen (a ++ [c]) st = put out buffer maxlen c (put_list out buffer maxlen a st).
Proof. rewrite put_list_app; reflexivity. Qed.

Lemma put_n_repeat (n : nat) (c : ascii) (st : state W) :
  put_n out buffer maxlen n c st = put_list out buffer maxlen (repeat c n) st.
Proof.
  revert st; induction n as [|n IH]; intros st; simpl; [reflexivity|].
  apply IH.
Qed.

(** The index moves by the number of characters, modulo the range of
    [size_t]. *)
Lemma idx_put_list (cs : list ascii) (st : state W) :
  to_size_t (idx (put_list out buffer maxlen cs st)) = to_size_t (idx st + Z.of_nat (length cs)).
Proof.
  revert st; induction cs as [|c cs IH]; intros st.
  - simpl. f_equal. lia.
  - cbn [put_list length]. rewrite IH. cbn [put idx].
    unfold to_size_t. rewrite Zplus_mod_idemp_l. f_equal. lia.
Qed.

Lemma idx_put_list_diff (cs : list ascii) (st : state W) :
  to_size_t (idx (put_list out buffer maxlen cs st) - idx st) = to_size_t (Z.of_nat (length cs)).
Proof.
  pose proof (idx_put_list cs st) as H. unfold to_size_t in *.
  rewrite Zminus_mod, H, <- Zminus_mod. f_equal. lia.
Qed.

Lemma idx_put_list_from_0 (cs : list ascii) (w : W) :
  idx (put_list out buffer maxlen cs {| dest := w; idx := 0 |}) = to_size_t (Z.of_nat (length cs)).
Proof.
  destruct cs as [|c cs] using rev_ind; [reflexivity|].
  rewrite put_list_snoc. cbn [put idx].
  rewrite length_app, Nat2Z.inj_add. cbn [length].
  pose proof (idx_put_list cs {| dest := w; idx := 0 |}) as H.
  cbn [idx] in H. unfold to_size_t in *.
  rewrite <- Zplus_mod_idemp_l, H, Zplus_mod_idemp_l. f_equal.
Qed.

Lemma pad_right_count (fuel : nat) (start_idx width : Z) (st : state W) :
  pad_right out buffer maxlen fuel start_idx width st
  = put_n out buffer maxlen (pad_count fuel (to_size_t (idx st - start_idx)) width) " " st.
Proof.
  revert st; induction fuel as [|fuel IH]; intros st; [reflexivity|].
  cbn [pad_right pad_count].
  destruct (to_size_t (idx st - start_idx) <? width); [|reflexivity].
  rewrite IH. cbn [put_n put idx]. do 2 f_equal.
  unfold to_size_t. rewrite Zminus_mod_idemp_l, Zplus_mod_idemp_l. f_equal. lia.
Qed.

End PutFacts.

Lemma emits_put (c : ascii) :
  emits (fun W out buffer maxlen st => put out buffer maxlen c st) [c].
Proof. intros W out buffer maxlen st. reflexivity. Qed.

Lemma emits_put_n (n : nat) (c : ascii) :
  emits (fun W out buffer maxlen st => put_n out buffer maxlen n c st) (repeat c n).
Proof. intros W out buffer maxlen st. apply put_n_repeat. Qed.

Lemma emits_seq (f g : emitter) (a b : list ascii) :
  emits f a -> emits g b ->
  emits (fun W out buffer maxlen st =>
           g W out buffer maxlen (f W out buffer maxlen st)) (a ++ b).
Proof.
  intros Hf Hg W out buffer maxlen st. rewrite Hf, Hg, put_list_app. reflexivity.
Qed.

(** [pad_right] after [f], counted from where [f] started. *)
Lemma emits_pad_right (f : emitter) (a : list ascii) (fuel : nat) (width : Z) :
  emits f a ->
  emits (fun W out buffer maxlen st =>
           pad_right out buffer maxlen fuel (idx st) width
             (f W out buffer maxlen st))
        (a ++ repeat " "%char
                (pad_count fuel (to_size_t (Z.of_nat (length a))) width)).
Proof.
  intros Hf W out buffer maxlen st.
  rewrite pad_right_count, Hf, idx_put_list_diff, put_n_repeat, put_list_app.
  reflexivity.
Qed.

Lemma _out_rev_emits (buf : list ascii) (width flags : Z) :
  exists n1 n2 : nat,
    emits (fun W out buffer maxlen st => _out_rev out buffer maxlen st buf width flags)
          (repeat " "%char n1 ++ rev buf ++ repeat " "%char n2).
Proof.
  unfold _out_rev.
  set (n := Z.to_nat (width - Z.of_nat (length buf))).
  destruct (negb (has flags FLAGS_LEFT) && negb (has flags FLAGS_ZEROPAD)) eqn:Hpre;
    destruct (has flags FLAGS_LEFT) eqn:Hleft.
  - exists n. eexists. rewrite app_assoc.
    apply (emits_pad_right
             (fun W out buffer maxlen st =>
                put_list out buffer maxlen (rev buf) (put_n out buffer maxlen n " " st))).
    intros W out buffer maxlen st. rewrite put_n_repeat, put_list_app. reflexivity.
  - exists n, 0%nat. intros W out buffer maxlen st.
    rewrite put_n_repeat, !put_list_app. reflexivity.
  - exists 0%nat. eexists.
    apply (emits_pad_right
             (fun W out buffer maxlen st => put_list out buffer maxlen (rev buf) st)).
    intros W out buffer maxlen st. reflexivity.
  - exists 0%nat, 0%nat. intros W out buffer maxlen st.
    rewrite !put_list_app. reflexivity.
Qed.

(** The recording output function records exactly the emitted characters. *)
Lemma put_list_record (buffer : void_ptr) (maxlen : Z) (cs : list ascii)
    (st : state (list ascii)) :
  dest (put_list out_record buffer maxlen cs st) = dest st ++ cs.
Proof.
  revert st; induction cs as [|c cs IH]; intros st; simpl.
  - rewrite app_nil_r. reflexivity.
  - rewrite IH. cbn [put dest]. unfold out_record. rewrite <- app_assoc.
    reflexivity.
Qed.

Lemma emits_is_emitter (f : emitter) (cs : list ascii) : emits f cs -> is_emitter f.
Proof.
  intros H. unfold is_emitter, emitted. rewrite H, put_list_record. exact H.
Qed.

Lemma emits_st_is_emitter f r : emits_st f r -> is_emitter_st f.
Proof.
  intros H. unfold is_emitter_st, emitted_st. rewrite H.
  destruct r as [cs|]; [rewrite put_list_record|]; exact H.
Qed.

Lemma emits_opt_is_emitter {A : Type} (f : emitter_opt A) r :
  emits_opt f r -> is_emitter_opt f.
Proof.
  intros H. unfold is_emitter_opt, emitted_opt. rewrite H.
  destruct r as [[a cs]|]; [rewrite put_list_record|]; exact H.
Qed.

(** *** Combinators *)

Lemma is_emitter_id : is_emitter (fun W out buffer maxlen st => st).
Proof. apply (emits_is_emitter _ []). intros W out buffer maxlen st. reflexivity. Qed.

Lemma is_emitter_put (c : ascii) (f : emitter) :
  is_emitter f ->
  is_emitter (fun W out buffer maxlen st =>
                put out buffer maxlen c (f W out buffer maxlen st)).
Proof. intros H. exact (emits_is_emitter _ _ (emits_seq _ _ _ _ H (emits_put c))). Qed.

Lemma is_emitter_put_n (n : nat) (c : ascii) (f : emitter) :
  is_emitter f ->
  is_emitter (fun W out buffer maxlen st =>
                put_n out buffer maxlen n c (f W out buffer maxlen st)).
Proof. intros H. exact (emits_is_emitter _ _ (emits_seq _ _ _ _ H (emits_put_n n c))). Qed.

Lemma is_emitter_put_list (cs : list ascii) (f : emitter) :
  is_emitter f ->
  is_emitter (fun W out buffer maxlen st =>
                put_list out buffer maxlen cs (f W out buffer maxlen st)).
Proof.
  intros H. apply (emits_is_emitter _ (emitted f ++ cs)).
  intros W out buffer maxlen st. rewrite H, put_list_app. reflexivity.
Qed.

Lemma is_emitter_pad_spaces (l width : Z) (f : emitter) :
  is_emitter f ->
  is_emitter (fun W out buffer maxlen st =>
                pad_spaces out buffer maxlen l width (f W out buffer maxlen st)).
Proof. intros H. unfold pad_spaces. apply is_emitter_put_n, H. Qed.

Lemma is_emitter_pad_right (fuel : nat) (width : Z) (f : emitter) :
  is_emitter f ->
  is_emitter (fun W out buffer maxlen st =>
                pad_right out buffer maxlen fuel (idx st) width
                  (f W out buffer maxlen st)).
Proof. intros H. exact (emits_is_emitter _ _ (emits_pad_right _ _ fuel width H)). Qed.

Lemma is_emitter_put_str (p : string) (limited : bool) (precision : Z) (f : emitter) :
  is_emitter f ->
  is_emitter (fun W out buffer maxlen st =>
                put_str out buffer maxlen p limited precision
                  (f W out buffer maxlen st)).
Proof.
  revert precision f; induction p as [|c p IH]; intros precision f H; cbn [put_str].
  - exact H.
  - destruct (char_eqb c NUL); [exact H|].
    destruct limited; [destruct (precision =? 0); [exact H|]|];
      apply (IH _ (fun W out buffer maxlen st =>
                     put out buffer maxlen c (f W out buffer maxlen st)));
      apply is_emitter_put, H.
Qed.

Lemma is_emitter__out_rev (buf : list ascii) (width flags : Z) (f : emitter) :
  is_emitter f ->
  is_emitter (fun W out buffer maxlen st =>
                _out_rev out buffer maxlen (f W out buffer maxlen st) buf width flags).
Proof.
  intros H. destruct (_out_rev_emits buf width flags) as (n1 & n2 & E).
  exact (emits_is_emitter _ _ (emits_seq _ _ _ _ H E)).
Qed.

Lemma is_emitter__ntoa_format (buf : list ascii) (negative : bool)
    (base precision width flags : Z) (f : emitter) :
  is_emitter f ->
  is_emitter (fun W out buffer maxlen st =>
                _ntoa_format out buffer maxlen (f W out buffer maxlen st) buf
                  negative base precision width flags).
Proof. intros H. unfold _ntoa_format. cbv zeta. apply is_emitter__out_rev, H. Qed.

Lemma is_emitter__ntoa (value : Z) (negative : bool) (base precision width flags : Z)
    (f : emitter) :
  is_emitter f ->
  is_emitter (fun W out buffer maxlen st =>
                _ntoa out buffer maxlen (f W out buffer maxlen st) value negative
                  base precision width flags).
Proof.
  intros H. unfold _ntoa.
  destruct (value =? 0); [destruct (negb (has flags FLAGS_PRECISION));
                          [|destruct (base =? BASE_HEX)]|];
    apply is_emitter__ntoa_format, H.
Qed.

Lemma is_emitter_sprint_broken_up_decimal (number_ : double_components)
    (precision width flags : Z) (buf : list ascii) (f : emitter) :
  is_emitter f ->
  is_emitter (fun W out buffer maxlen st =>
                sprint_broken_up_decimal out buffer maxlen number_
                  (f W out buffer maxlen st) precision width flags buf).
Proof.
  intros H. unfold sprint_broken_up_decimal. cbv zeta. apply is_emitter__out_rev, H.
Qed.

Lemma is_emitter_st_none : is_emitter_st (fun W out buffer maxlen st => None).
Proof. apply (emits_st_is_emitter _ None). intros W out buffer maxlen st. reflexivity. Qed.

Lemma is_emitter_st_some (f : emitter) :
  is_emitter f -> is_emitter_st (fun W out buffer maxlen st => Some (f W out buffer maxlen st)).
Proof.
  intros H. apply (emits_st_is_emitter _ (Some (emitted f))).
  intros W out buffer maxlen st. rewrite H. reflexivity.
Qed.

Lemma is_emitter_opt_none (A : Type) :
  is_emitter_opt (fun W out buffer maxlen st => @None (A * state W)).
Proof.
  apply (emits_opt_is_emitter _ None). intros W out buffer maxlen st. reflexivity.
Qed.

Lemma is_emitter_opt_some (A : Type) (a : A) (f : emitter) :
  is_emitter f ->
  is_emitter_opt (fun W out buffer maxlen st => Some (a, f W out buffer maxlen st)).
Proof.
  intros H. apply (emits_opt_is_emitter _ (Some (a, emitted f))).
  intros W out buffer maxlen st. rewrite H. reflexivity.
Qed.

Lemma is_emitter_opt_of_st (A : Type) (a : A) g :
  is_emitter_st g ->
  is_emitter_opt (fun W out buffer maxlen st =>
                    match g W out buffer maxlen st with
                    | Some st' => Some (a, st')
                    | None => None
                    end).
Proof.
  intros H.
  apply (emits_opt_is_emitter _ match emitted_st g with
                                | Some cs => Some (a, cs)
                                | None => None
                                end).
  intros W out buffer maxlen st. rewrite H. destruct (emitted_st g); reflexivity.
Qed.

Lemma is_emitter_opt_map (A B : Type) (h : A -> B) (g : emitter_opt A) :
  is_emitter_opt g ->
  is_emitter_opt (fun W out buffer maxlen st =>
                    match g W out buffer maxlen st with
                    | Some (a, st') => Some (h a, st')
                    | None => None
                    end).
Proof.
  intros H.
  apply (emits_opt_is_emitter _ match emitted_opt g with
                                | Some (a, cs) => Some (h a, cs)
                                | None => None
                                end).
  intros W out buffer maxlen st. rewrite H.
  destruct (emitted_opt g) as [[a cs]|]; reflexivity.
Qed.

(** Walks down a formatting function: case analysis on every condition
    that does not depend on the output state, then one combinator per
    emitting call. *)
Ltac emit :=
  lazymatch goal with
  | |- is_emitter (fun W o b m st => st) => exact is_emitter_id
  | |- is_emitter (fun W o b m st => match ?c with _ => _ end) =>
      first [ destruct c; emit | idtac ]
  | |- is_emitter (fun W o b m st => put o b m _ _) =>
      apply is_emitter_put; emit
  | |- is_emitter (fun W o b m st => put_n o b m _ _ _) =>
      apply is_emitter_put_n; emit
  | |- is_emitter (fun W o b m st => put_list o b m _ _) =>
      apply is_emitter_put_list; emit
  | |- is_emitter (fun W o b m st => pad_spaces o b m _ _ _) =>
      apply is_emitter_pad_spaces; emit
  | |- is_emitter (fun W o b m st => put_str o b m _ _ _ _) =>
      apply is_emitter_put_str; emit
  | |- is_emitter (fun W o b m st => pad_right o b m _ (idx st) _ _) =>
      apply is_emitter_pad_right; emit
  | |- is_emitter (fun W o b m st => _out_rev o b m _ _ _ _) =>
      apply is_emitter__out_rev; emit
  | |- is_emitter (fun W o b m st => _ntoa o b m _ _ _ _ _ _ _) =>
      apply is_emitter__ntoa; emit
  | |- is_emitter (fun W o b m st => sprint_broken_up_decimal o b m _ _ _ _ _ _) =>
      apply is_emitter_sprint_broken_up_decimal; emit
  | |- is_emitter_st (fun W o b m st => None) => exact is_emitter_st_none
  | |- is_emitter_st (fun W o b m st => Some _) => apply is_emitter_st_some; emit
  | |- is_emitter_st (fun W o b m st => match ?c with _ => _ end) =>
      first [ destruct c; emit | idtac ]
  | |- is_emitter_opt (fun W o b m st => None) => exact (is_emitter_opt_none _)
  | |- is_emitter_opt (fun W o b m st => Some (_, _)) =>
      apply is_emitter_opt_some; emit
  | |- is_emitter_opt (fun W o b m st => match ?c with _ => _ end) =>
      first [ destruct c; emit | idtac ]
  | |- _ => idtac
  end.

Lemma is_emitter_sprint_decimal_number (number : double)
    (precision width flags : Z) (buf : list ascii) :
  is_emitter_st (fun W out buffer maxlen st =>
                   sprint_decimal_number out buffer maxlen st number precision width
                     flags buf).
Proof. unfold sprint_decimal_number. emit. Qed.

Lemma is_emitter_sprint_exponential_number (number : double)
    (precision width flags : Z) (buf : list ascii) :
  is_emitter_st (fun W out buffer maxlen st =>
                   sprint_exponential_number out buffer maxlen st number precision
                     width flags buf).
Proof. unfold sprint_exponential_number. cbv zeta. emit. Qed.

Lemma is_emitter_sprint_floating_point (value : double)
    (precision width flags : Z) (prefer_exponential : bool) :
  is_emitter_st (fun W out buffer maxlen st =>
                   sprint_floating_point out buffer maxlen st value precision width
                     flags prefer_exponential).
Proof.
  unfold sprint_floating_point. cbv zeta. emit;
    first [ apply is_emitter_sprint_exponential_number
          | apply is_emitter_sprint_decimal_number ].
Qed.

Lemma is_emitter_convert_integer (c : ascii) (flags width precision : Z)
    (va : va_list) :
  is_emitter_opt (fun W out buffer maxlen st =>
                    convert_integer out buffer maxlen c flags width precision va st).
Proof. unfold convert_integer. cbv beta zeta. emit. Qed.

Lemma is_emitter_eval_specifier (format : string) (flags width precision : Z)
    (va : va_list) :
  is_emitter_opt (fun W out buffer maxlen st =>
                    eval_specifier out buffer maxlen format flags width precision va
                      st).
Proof.
  unfold eval_specifier. cbv zeta. emit.
  - apply (is_emitter_opt_map _ _ (fun va => (_, va))), is_emitter_convert_integer.
  - apply (is_emitter_opt_of_st _ (_, _)), is_emitter_sprint_floating_point.
  - apply (is_emitter_opt_of_st _ (_, _)), is_emitter_sprint_floating_point.
Qed.

Lemma is_emitter_eval_directive (format : string) (va : va_list) :
  is_emitter_opt (fun W out buffer maxlen st =>
                    eval_directive out buffer maxlen format va st).
Proof.
  unfold eval_directive.
  destruct (eval_header format va) as [[[[[flags width] precision] format'] va']|].
  - apply is_emitter_eval_specifier.
  - apply is_emitter_opt_none.
Qed.

(** A step with no defined result ends the run; otherwise the run goes on
    after the characters of the step. *)
Lemma is_emitter_st_bind (A : Type) (g : emitter_opt A)
    (k : A -> forall W : Type,
         out_fct_type W -> void_ptr -> Z -> state W -> option (state W)) :
  is_emitter_opt g ->
  (forall a, is_emitter_st (k a)) ->
  is_emitter_st (fun W out buffer maxlen st =>
                   match g W out buffer maxlen st with
                   | Some (a, st') => k a W out buffer maxlen st'
                   | None => None
                   end).
Proof.
  intros Hg Hk.
  apply (emits_st_is_emitter _
           match emitted_opt g with
           | Some (a, cs) =>
               match emitted_st (k a) with
               | Some cs' => Some (cs ++ cs')
               | None => None
               end
           | None => None
           end).
  intros W out buffer maxlen st. rewrite Hg.
  destruct (emitted_opt g) as [[a cs]|]; [|reflexivity].
  rewrite Hk. destruct (emitted_st (k a)) as [cs'|]; [|reflexivity].
  rewrite put_list_app. reflexivity.
Qed.

Lemma is_emitter_st_after_put (c : ascii)
    (k : forall W : Type,
        out_fct_type W -> void_ptr -> Z -> state W -> option (state W)) :
  is_emitter_st k ->
  is_emitter_st (fun W out buffer maxlen st =>
                   k W out buffer maxlen (put out buffer maxlen c st)).
Proof.
  intros Hk.
  apply (emits_st_is_emitter _ match emitted_st k with
                               | Some cs => Some (c :: cs)
                               | None => None
                               end).
  intros W out buffer maxlen st. rewrite Hk.
  destruct (emitted_st k); reflexivity.
Qed.

Lemma is_emitter_vsnprintf_loop (fuel : nat) (format : string) (va : va_list) :
  is_emitter_st (fun W out buffer maxlen st =>
                   vsnprintf_loop out buffer maxlen fuel format va st).
Proof.
  revert format va; induction fuel as [|fuel IH]; intros format va;
    cbn [vsnprintf_loop]; [apply is_emitter_st_none|].
  destruct format as [|c rest]; [apply is_emitter_st_some, is_emitter_id|].
  destruct (char_eqb c NUL); [apply is_emitter_st_some, is_emitter_id|].
  destruct (negb (char_eqb c "%")).
  - apply (is_emitter_st_after_put c
             (fun W out buffer maxlen st =>
                vsnprintf_loop out buffer maxlen fuel rest va st)), IH.
  - apply (is_emitter_st_bind _
             (fun W out buffer maxlen st =>
                eval_directive out buffer maxlen rest va st)
             (fun a W out buffer maxlen st =>
                let '(format, va) := a in
                vsnprintf_loop out buffer maxlen fuel format va st)).
    + apply is_emitter_eval_directive.
    + intros [format' va']. apply IH.
Qed.

(** ** The interpreter in terms of its logical output *)

Lemma output_emitted (format : string) (va : va_list) :
  output format va
  = emitted_st (fun W out buffer maxlen st =>
                  vsnprintf_loop out buffer maxlen (S (String.length format))
                    format va st).
Proof. reflexivity. Qed.

(** [_vsnprintf] hands the logical output to its output function (the null
    one for a NULL buffer), then the terminator, and returns the final
    index as an [int]. *)
Lemma _vsnprintf_output {W : Type} (out : out_fct_type W) (buffer : void_ptr)
    (maxlen : Z) (format : string) (va : va_list) (w : W) :
  _vsnprintf out buffer maxlen format va w
  = match output format va with
    | Some cs =>
        let out := if is_null buffer then _out_null else out in
        let n := to_size_t (Z.of_nat (length cs)) in
        Some (to_int n,
              out NUL buffer (if n <? maxlen then n else to_size_t (maxlen - 1))
                maxlen (dest (put_list out buffer maxlen cs (start w))))
    | None => None
    end.
Proof.
  unfold _vsnprintf. rewrite output_emitted.
  rewrite (is_emitter_vsnprintf_loop (S (String.length format)) format va).
  destruct (emitted_st _) as [cs|]; [|reflexivity].
  cbv zeta. unfold start. rewrite idx_put_list_from_0. reflexivity.
Qed.

(** *** The four output functions *)

Lemma put_list_null {W : Type} (buffer : void_ptr) (maxlen : Z) (cs : list ascii)
    (st : state W) :
  dest (put_list _out_null buffer maxlen cs st) = dest st.
Proof.
  revert st; induction cs as [|c cs IH]; intros st; [reflexivity|].
  cbn [put_list]. rewrite IH. reflexivity.
Qed.

Lemma put_list_buffer_events (p : void_ptr) (maxlen : Z) (cs : list ascii)
    (st : state world) :
  events (dest (put_list _out_buffer p maxlen cs st)) = events (dest st).
Proof.
  revert st; induction cs as [|c cs IH]; intros st; [reflexivity|].
  cbn [put_list]. rewrite IH. cbn [put dest]. unfold _out_buffer.
  destruct (idx st <? maxlen); [destruct p|]; reflexivity.
Qed.

(** While the index does not wrap around, the character at position [i] of
    the output is stored at [buffer + i] if [i < maxlen], and nothing else
    is touched. *)
Lemma put_list_buffer_lookup (addr maxlen : Z) (cs : list ascii) (st : state world)
    (x : Z) :
  0 <= idx st -> idx st + Z.of_nat (length cs) <= 2 ^ 64 ->
  memory (dest (put_list _out_buffer (CharPtr addr) maxlen cs st)) !! x
  = if (addr + idx st <=? x) && (x <? addr + idx st + Z.of_nat (length cs))
       && (x - addr <? maxlen)
    then cs !! Z.to_nat (x - addr - idx st)
    else memory (dest st) !! x.
Proof.
  revert st; induction cs as [|c cs IH]; intros st Hlo Hhi.
  - cbn [put_list length].
    destruct (Z.leb_spec (addr + idx st) x), (Z.ltb_spec x (addr + idx st + Z.of_nat 0));
      cbn [andb]; try reflexivity; lia.
  - cbn [put_list].
    assert (Hput : forall y,
               memory (dest (put _out_buffer (CharPtr addr) maxlen c st)) !! y
               = if (y =? addr + idx st) && (idx st <? maxlen) then Some c
                 else memory (dest st) !! y).
    { intros y. cbn [put dest]. unfold _out_buffer.
      destruct (Z.ltb_spec (idx st) maxlen), (Z.eqb_spec y (addr + idx st));
        cbn [andb memory]; subst; try reflexivity.
      - apply lookup_insert_eq.
      - apply lookup_insert_ne. congruence. }
    destruct cs as [|c' cs'].
    + cbn [put_list length]. rewrite Hput.
      destruct (Z.leb_spec (addr + idx st) x),
        (Z.ltb_spec x (addr + idx st + Z.of_nat 1)),
        (Z.ltb_spec (x - addr) maxlen), (Z.eqb_spec x (addr + idx st)),
        (Z.ltb_spec (idx st) maxlen); cbn [andb]; try reflexivity; try lia.
      replace (x - addr - idx st) with 0 by lia. reflexivity.
    + assert (Hidx : idx (put _out_buffer (CharPtr addr) maxlen c st) = idx st + 1).
      { cbn [put idx]. unfold to_size_t. cbn [length] in Hhi.
        apply Z.mod_small. lia. }
      rewrite IH by (rewrite Hidx; cbn [length] in *; lia).
      rewrite Hidx, Hput.
      set (n := Z.of_nat (length (c' :: cs'))) in *.
      replace (Z.of_nat (length (c :: c' :: cs'))) with (n + 1)
        by (subst n; cbn [length]; lia).
      destruct (Z.leb_spec (addr + idx st) x),
        (Z.leb_spec (addr + (idx st + 1)) x),
        (Z.ltb_spec x (addr + idx st + (n + 1))),
        (Z.ltb_spec x (addr + (idx st + 1) + n)),
        (Z.ltb_spec (x - addr) maxlen), (Z.eqb_spec x (addr + idx st)),
        (Z.ltb_spec (idx st) maxlen); cbn [andb]; try reflexivity; try lia.
      * replace (Z.to_nat (x - addr - idx st))
          with (S (Z.to_nat (x - addr - (idx st + 1)))) by lia.
        reflexivity.
      * subst x. replace (addr + idx st - addr - idx st) with 0 by lia. reflexivity.
Qed.

Lemma store_app (buffer : Z) (a b : list (Z * ascii)) (w : world) :
  store buffer (a ++ b) w = store buffer b (store buffer a w).
Proof. unfold store. apply fold_left_app. Qed.

Lemma put_list_buffer_store (addr maxlen : Z) (cs : list ascii) (st : state world) :
  dest (put_list _out_buffer (CharPtr addr) maxlen cs st)
  = store addr (writes_from maxlen cs (idx st)) (dest st).
Proof.
  revert st; induction cs as [|c cs IH]; intros st; [reflexivity|].
  cbn [put_list writes_from]. rewrite IH, store_app. cbn [put dest idx].
  unfold _out_buffer. destruct (idx st <? maxlen); reflexivity.
Qed.

Lemma log_nil (w : world) : log [] w = w.
Proof. destruct w. unfold log. cbn [memory events]. rewrite app_nil_r. reflexivity. Qed.

Lemma put_list_char (p : void_ptr) (maxlen : Z) (cs : list ascii) (st : state world) :
  dest (put_list _out_char p maxlen cs st)
  = log (map Putchar (passed_on cs)) (dest st).
Proof.
  revert st; induction cs as [|c cs IH]; intros st.
  - cbn. rewrite log_nil. reflexivity.
  - cbn [put_list]. rewrite IH. cbn [put dest]. unfold _out_char, passed_on.
    cbn [List.filter]. destruct (char_eqb c NUL); cbn [negb]; [reflexivity|].
    cbn [map]. unfold log. cbn [memory events]. rewrite <- app_assoc. reflexivity.
Qed.

Lemma put_list_fct (wr : out_fct_wrap_type) (maxlen : Z) (cs : list ascii)
    (st : state world) :
  dest (put_list _out_fct (WrapPtr wr) maxlen cs st)
  = log (map (fun c => Callback (fct wr) c (arg wr)) (passed_on cs)) (dest st).
Proof.
  revert st; induction cs as [|c cs IH]; intros st.
  - cbn. rewrite log_nil. reflexivity.
  - cbn [put_list]. rewrite IH. cbn [put dest]. unfold _out_fct, passed_on.
    cbn [List.filter]. destruct (char_eqb c NUL); cbn [negb]; [reflexivity|].
    cbn [map]. unfold log. cbn [memory events]. rewrite <- app_assoc. reflexivity.
Qed.

(** ** The fuel of the main loop is never used up *)

Lemma eval_flags_length (format : string) (flags : Z) :
  (String.length (snd (eval_flags format flags)) <= String.length format)%nat.
Proof.
  revert flags; induction format as [|c rest IH]; intros flags; cbn [eval_flags].
  - cbn. lia.
  - repeat (destruct (char_eqb c _);
            [etransitivity; [apply IH|cbn [String.length]; lia]|]).
    cbn. lia.
Qed.

Lemma _atoi_from_length (str : string) (i : Z) :
  (String.length (snd (_atoi_from str i)) <= String.length str)%nat.
Proof.
  revert i; induction str as [|c rest IH]; intros i; cbn [_atoi_from].
  - cbn. lia.
  - destruct (_is_digit c);
      [etransitivity; [apply IH|cbn [String.length]; lia]|cbn; lia].
Qed.

Lemma eval_width_length (format : string) (flags : Z) (va : va_list)
    flags' width format' va' :
  eval_width format flags va = Some (flags', width, format', va') ->
  (String.length format' <= String.length format)%nat.
Proof.
  unfold eval_width. destruct format as [|c rest].
  - intros H. injection H as <- <- <- <-. lia.
  - destruct (_is_digit c).
    + unfold _atoi. pose proof (_atoi_from_length (String c rest) 0) as Hl.
      destruct (_atoi_from (String c rest) 0) as [w f]. cbn [snd] in Hl.
      intros H. injection H as <- <- <- <-. exact Hl.
    + destruct (char_eqb c "*").
      * destruct (va_arg_int va) as [[w va1]|]; [|discriminate].
        destruct (w <? 0); intros H; injection H as <- <- <- <-;
          cbn [String.length]; lia.
      * intros H. injection H as <- <- <- <-. lia.
Qed.

Lemma eval_precision_length (format : string) (flags : Z) (va : va_list)
    flags' precision format' va' :
  eval_precision format flags va = Some (flags', precision, format', va') ->
  (String.length format' <= String.length format)%nat.
Proof.
  unfold eval_precision. destruct format as [|c rest].
  - intros H. injection H as <- <- <- <-. lia.
  - destruct (Ascii.eqb_spec c ".") as [->|Hne].
    + destruct rest as [|c' rest'].
      * intros H. injection H as <- <- <- <-. cbn. lia.
      * destruct (_is_digit c').
        -- unfold _atoi. pose proof (_atoi_from_length (String c' rest') 0) as Hl.
           destruct (_atoi_from (String c' rest') 0) as [w f]. cbn [snd] in Hl.
           intros H. injection H as <- <- <- <-. cbn [String.length] in *. lia.
        -- destruct (char_eqb c' "*").
           ++ destruct (va_arg_int va) as [[w va1]|]; [|discriminate].
              intros H. injection H as <- <- <- <-. cbn [String.length]. lia.
           ++ intros H. injection H as <- <- <- <-. cbn [String.length]. lia.
    + intros H.
      assert (E : Some (flags, 0, String c rest, va)
                  = Some (flags', precision, format', va')).
      { rewrite <- H. destruct c as [[] [] [] [] [] [] [] []];
          try reflexivity. exfalso. apply Hne. reflexivity. }
      injection E as <- <- <- <-. lia.
Qed.

Lemma eval_length_length (format : string) (flags : Z) :
  (String.length (snd (eval_length format flags)) <= String.length format)%nat.
Proof.
  destruct format as [|c rest]; [cbn; lia|].
  unfold eval_length.
  destruct c as [[] [] [] [] [] [] [] []]; cbn [snd String.length]; try lia;
    destruct rest as [|c' rest']; cbn [snd String.length]; try lia;
    destruct c' as [[] [] [] [] [] [] [] []]; cbn [snd String.length]; lia.
Qed.

Lemma eval_header_length (format : string) (va : va_list)
    flags width precision format' va' :
  eval_header format va = Some (flags, width, precision, format', va') ->
  (String.length format' <= String.length format)%nat.
Proof.
  unfold eval_header.
  pose proof (eval_flags_length format 0) as H1.
  destruct (eval_flags format 0) as [fl f1]. cbn [snd] in H1.
  destruct (eval_width f1 fl va) as [[[[fl2 w] f2] va2]|] eqn:Hw; [|discriminate].
  apply eval_width_length in Hw.
  destruct (eval_precision f2 fl2 va2) as [[[[fl3 p] f3] va3]|] eqn:Hp;
    [|discriminate].
  apply eval_precision_length in Hp.
  pose proof (eval_length_length f3 fl3) as H4.
  destruct (eval_length f3 fl3) as [fl4 f4]. cbn [snd] in H4.
  intros H. injection H as <- <- <- <- <-. lia.
Qed.

(** A conversion consumes exactly its letter. *)
Lemma eval_specifier_length {W : Type} (out : out_fct_type W) buffer maxlen
    (format : string) (flags width precision : Z) (va : va_list) (st : state W)
    format' va' st' :
  eval_specifier out buffer maxlen format flags width precision va st
  = Some (format', va', st') ->
  String.length format = S (String.length format').
Proof.
  intros H.
  assert (E : exists c, format = String c format').
  { destruct format as [|c rest].
    - exfalso. revert H. unfold eval_specifier. cbn [deref].
      change (is_integer_specifier NUL) with false.
      change (char_eqb NUL ?x) with false. cbn [orb]. intros H.
      exact (Some_ne_None _ (eq_sym H)).
    - exists c. revert H. unfold eval_specifier. cbn [deref]. cbv zeta.
      repeat match goal with
             | |- context [match ?x with _ => _ end] =>
                 lazymatch x with
                 | context [st] => fail
                 | _ => destruct x
                 end
             end.
      all: try (intros H; exfalso; exact (Some_ne_None _ (eq_sym H))).
      all: repeat match goal with
             | |- context [match ?x with _ => _ end] => destruct x as [[? ?]|]
             | |- context [match ?x with _ => _ end] => destruct x
             end.
      all: try (intros H; exfalso; exact (Some_ne_None _ (eq_sym H))).
      all: intros H;
        apply (f_equal (fun o => match o with
                                 | Some (f, _, _) => f
                                 | None => ""%string
                                 end)) in H; cbv beta iota in H; rewrite H;
        reflexivity. }
  destruct E as [c ->]. reflexivity.
Qed.

Lemma eval_directive_length {W : Type} (out : out_fct_type W) buffer maxlen
    (format : string) (va : va_list) (st : state W) format' va' st' :
  eval_directive out buffer maxlen format va st = Some (format', va', st') ->
  (String.length format' < String.length format)%nat.
Proof.
  unfold eval_directive.
  destruct (eval_header format va) as [[[[[flags width] precision] f1] va1]|] eqn:Hh;
    [|discriminate].
  apply eval_header_length in Hh. intros H. apply eval_specifier_length in H. lia.
Qed.

(** Any fuel above the length of the format gives the same run: the loop
    ends at the terminator of the format, or at a step without a defined
    result, never for lack of fuel. *)
Lemma vsnprintf_loop_fuel {W : Type} (out : out_fct_type W) buffer maxlen
    (fuel1 fuel2 : nat) (format : string) (va : va_list) (st : state W) :
  (String.length format < fuel1)%nat -> (String.length format < fuel2)%nat ->
  vsnprintf_loop out buffer maxlen fuel1 format va st
  = vsnprintf_loop out buffer maxlen fuel2 format va st.
Proof.
  revert fuel2 format va st; induction fuel1 as [|fuel1 IH];
    intros fuel2 format va st H1 H2; [lia|].
  destruct fuel2 as [|fuel2]; [lia|]. cbn [vsnprintf_loop].
  destruct format as [|c rest]; [reflexivity|]. cbn [String.length] in *.
  destruct (char_eqb c NUL); [reflexivity|].
  destruct (negb (char_eqb c "%")).
  - apply IH; lia.
  - destruct (eval_directive out buffer maxlen rest va st)
      as [[[format' va'] st']|] eqn:Hd; [|reflexivity].
    apply eval_directive_length in Hd. apply IH; lia.
Qed.

(** ** The bounded buffer: truncation and the returned length *)

Lemma _out_buffer_lookup (c : ascii) (addr i maxlen : Z) (w : world) (x : Z) :
  memory (_out_buffer c (CharPtr addr) i maxlen w) !! x
  = if (x =? addr + i) && (i <? maxlen) then Some c else memory w !! x.
Proof.
  unfold _out_buffer.
  destruct (Z.ltb_spec i maxlen), (Z.eqb_spec x (addr + i));
    cbn [andb memory]; subst; try reflexivity.
  - apply lookup_insert_eq.
  - apply lookup_insert_ne. congruence.
Qed.

Lemma _out_buffer_events (c : ascii) (p : void_ptr) (i maxlen : Z) (w : world) :
  events (_out_buffer c p i maxlen w) = events w.
Proof. unfold _out_buffer. destruct (i <? maxlen); [destruct p|]; reflexivity. Qed.

Lemma to_size_t_small (x : Z) : 0 <= x < 2 ^ 64 -> to_size_t x = x.
Proof. apply Z.mod_small. Qed.

Lemma to_int_small (x : Z) : - 2 ^ 31 <= x < 2 ^ 31 -> to_int x = x.
Proof. intros H. unfold to_int. rewrite Z.mod_small; lia. Qed.

(** C1 (as amended).  [utl_snprintf] into a non-NULL destination of capacity
    [count]: as long as the logical output [cs] has at most [INT_MAX]
    characters, the call returns its full length, whatever [count] is; no
    address outside [buffer, buffer + count) is written, so every character
    at a position [>= count] is dropped; the first [min (length cs)
    (count - 1)] characters are stored in order, followed by the NUL
    terminator when [count > 0]; nothing is logged. *)
Theorem snprintf_truncates (buffer count : Z) (format : string) (va : va_list)
    (w : world) (cs : list ascii) :
  buffer <> 0 -> 0 <= count ->
  output format va = Some cs ->
  Z.of_nat (length cs) <= INT_MAX ->
  exists w',
    utl_snprintf buffer count format va w = Some (Z.of_nat (length cs), w')
    /\ events w' = events w
    /\ (forall x, x < buffer \/ buffer + count <= x ->
                  memory w' !! x = memory w !! x)
    /\ (forall i, 0 <= i < Z.min (Z.of_nat (length cs)) (count - 1) ->
                  memory w' !! (buffer + i) = cs !! Z.to_nat i)
    /\ (0 < count ->
        memory w' !! (buffer + Z.min (Z.of_nat (length cs)) (count - 1)) = Some NUL)
    /\ (forall i, Z.of_nat (length cs) < i ->
                  memory w' !! (buffer + i) = memory w !! (buffer + i)).
Proof.
  intros Hbuf Hcount Hout Hlen. unfold INT_MAX in Hlen.
  unfold utl_snprintf. rewrite _vsnprintf_output, Hout. cbv zeta.
  assert (Hnull : is_null (CharPtr buffer) = false)
    by (cbn [is_null]; apply Z.eqb_neq; exact Hbuf).
  rewrite Hnull.
  set (n := Z.of_nat (length cs)) in *.
  rewrite (to_size_t_small n), (to_int_small n) by lia.
  set (pos := if n <? count then n else to_size_t (count - 1)).
  assert (Hpos : pos < count -> pos = Z.min n (count - 1)).
  { subst pos. destruct (Z.ltb_spec n count); [lia|].
    destruct (Z.eq_dec count 0) as [->|]; [vm_compute; discriminate|].
    rewrite to_size_t_small; lia. }
  assert (Hpos' : 0 < count -> pos < count).
  { subst pos. destruct (Z.ltb_spec n count); [lia|].
    intros. rewrite to_size_t_small; lia. }
  assert (Hpos0 : 0 <= pos).
  { subst pos. destruct (n <? count); [lia|]. unfold to_size_t.
    apply Z.mod_pos_bound. lia. }
  eexists. split; [reflexivity|].
  assert (Hlook : forall x,
             memory (dest (put_list _out_buffer (CharPtr buffer) count cs (start w))) !! x
             = if (buffer <=? x) && (x <? buffer + n) && (x - buffer <? count)
               then cs !! Z.to_nat (x - buffer)
               else memory w !! x).
  { intros x. rewrite put_list_buffer_lookup by (cbn [start idx]; lia).
    cbn [start idx dest]. rewrite !Z.add_0_r, Z.sub_0_r. reflexivity. }
  split; [|split; [|split; [|split]]].
  - rewrite _out_buffer_events, put_list_buffer_events. reflexivity.
  - intros x Hx. rewrite _out_buffer_lookup, Hlook.
    destruct (Z.eqb_spec x (buffer + pos)), (Z.ltb_spec pos count),
      (Z.leb_spec buffer x), (Z.ltb_spec x (buffer + n)),
      (Z.ltb_spec (x - buffer) count); cbn [andb]; try reflexivity; lia.
  - intros i Hi. rewrite _out_buffer_lookup, Hlook.
    destruct (Z.eqb_spec (buffer + i) (buffer + pos)), (Z.ltb_spec pos count),
      (Z.leb_spec buffer (buffer + i)), (Z.ltb_spec (buffer + i) (buffer + n)),
      (Z.ltb_spec (buffer + i - buffer) count); cbn [andb]; try lia.
    all: replace (buffer + i - buffer) with i by lia; reflexivity.
  - intros Hc. rewrite _out_buffer_lookup, <- (Hpos (Hpos' Hc)).
    rewrite Z.eqb_refl. destruct (Z.ltb_spec pos count); [reflexivity|].
    specialize (Hpos' Hc). lia.
  - intros i Hi. rewrite _out_buffer_lookup, Hlook.
    destruct (Z.eqb_spec (buffer + i) (buffer + pos)), (Z.ltb_spec pos count),
      (Z.leb_spec buffer (buffer + i)), (Z.ltb_spec (buffer + i) (buffer + n)),
      (Z.ltb_spec (buffer + i - buffer) count); cbn [andb]; try reflexivity; try lia.
Qed.

(** C1 at the example of the specification: ["hello"] through [%s] into a
    destination of 4 bytes returns 5 and stores ["hel"] and the
    terminator. *)
Lemma snprintf_truncates_hello :
  exists w',
    utl_snprintf 4096 4 "%s" [VString (Some "hello"%string)] w0 = Some (5, w')
    /\ memory w' !! 4096 = Some "h"%char
    /\ memory w' !! 4097 = Some "e"%char
    /\ memory w' !! 4098 = Some "l"%char
    /\ memory w' !! 4099 = Some NUL
    /\ memory w' !! 4100 = None.
Proof.
  destruct (snprintf_truncates 4096 4 "%s" [VString (Some "hello"%string)] w0
              (chars "hello"))
    as (w' & Hret & _ & Hout & Hdata & Hnul & _).
  - lia.
  - lia.
  - vm_compute. reflexivity.
  - vm_compute. discriminate.
  - exists w'. split; [exact Hret|].
    split; [exact (Hdata 0 ltac:(vm_compute; split; [discriminate|reflexivity]))|].
    split; [exact (Hdata 1 ltac:(vm_compute; split; [discriminate|reflexivity]))|].
    split; [exact (Hdata 2 ltac:(vm_compute; split; [discriminate|reflexivity]))|].
    split; [exact (Hnul ltac:(lia))|].
    exact (Hout 4100 ltac:(lia)).
Defined.

Lemma eval_specifier_c {W : Type} (out : out_fct_type W) buffer maxlen
    (rest : string) (flags width precision v : Z) (va : va_list) (st : state W) :
  eval_specifier out buffer maxlen (String "c" rest) flags width precision
    (VInt v :: va) st
  = Some (rest, va,
          let st := if negb (has flags FLAGS_LEFT)
                    then pad_spaces out buffer maxlen 1 width st else st in
          let st := put out buffer maxlen (to_char (to_int v)) st in
          if has flags FLAGS_LEFT
          then pad_spaces out buffer maxlen 1 width st else st).
Proof. reflexivity. Qed.

(** A [%c] directive with a plain decimal width: [width - 1] spaces, then
    the character. *)
Lemma output_wide_char (digits : string) (width v : Z) :
  eval_header digits [VInt v] = Some (0, width, 0, "c"%string, [VInt v]) ->
  output (String "%" digits) [VInt v]
  = Some (repeat " "%char (Z.to_nat (width - 1)) ++ [to_char (to_int v)]).
Proof.
  intros Hh. unfold output. cbn [vsnprintf_loop].
  change (char_eqb "%" NUL) with false. change (char_eqb "%" "%") with true.
  cbn [negb]. unfold eval_directive. rewrite Hh, eval_specifier_c.
  change (has 0 FLAGS_LEFT) with false. cbn [negb].
  destruct (String.length (String "%" digits)) eqn:E; [discriminate|].
  cbn [vsnprintf_loop]. unfold pad_spaces.
  rewrite put_n_repeat.
  change (put out_record LocalPtr SIZE_MAX ?c ?s)
    with (put_list out_record LocalPtr SIZE_MAX [c] s).
  rewrite <- put_list_app, put_list_record. reflexivity.
Qed.

(** C1, counterexample.  A logical output of 2^31 characters (a [%c] with
    width 2147483648): the returned [int] is [-2147483648], not the
    length. *)
Lemma snprintf_return_wraps :
  exists cs w',
    output "%2147483648c" [VInt 65] = Some cs
    /\ Z.of_nat (length cs) = 2147483648
    /\ utl_snprintf 4096 4 "%2147483648c" [VInt 65] w0 = Some (-2147483648, w').
Proof.
  assert (Hout := output_wide_char "2147483648c" 2147483648 65 eq_refl).
  eexists. eexists. split; [exact Hout|]. split.
  - rewrite length_app, repeat_length. cbn [length]. lia.
  - unfold utl_snprintf. rewrite _vsnprintf_output, Hout. cbv zeta.
    rewrite length_app, repeat_length. cbn [length].
    replace (Z.of_nat (Z.to_nat (2147483648 - 1) + 1)) with 2147483648 by lia.
    reflexivity.
Qed.

(** ** No destination, no capacity *)

Lemma writes_from_0 (cs : list ascii) (i : Z) : 0 <= i -> writes_from 0 cs i = [].
Proof.
  revert i; induction cs as [|c cs IH]; intros i Hi; [reflexivity|].
  cbn [writes_from]. destruct (Z.ltb_spec i 0); [lia|].
  apply IH. unfold to_size_t. apply Z.mod_pos_bound. lia.
Qed.

(** The terminator store of [_vsnprintf], as a list of stores. *)
Lemma _out_buffer_store (c : ascii) (addr i maxlen : Z) (w : world) :
  _out_buffer c (CharPtr addr) i maxlen w
  = store addr (if i <? maxlen then [(i, c)] else []) w.
Proof. unfold _out_buffer. destruct (i <? maxlen); reflexivity. Qed.

(** C9 (as amended).  With a NULL destination, whatever the capacity, and
    with capacity 0, whatever the destination, [utl_snprintf] changes
    nothing in the world (not even a terminator is stored) and, as long as
    the logical output has at most [INT_MAX] characters, returns its full
    length. *)
Theorem no_write_without_destination (format : string) (va : va_list)
    (cs : list ascii) :
  output format va = Some cs ->
  Z.of_nat (length cs) <= INT_MAX ->
  (forall count w,
      utl_snprintf 0 count format va w = Some (Z.of_nat (length cs), w))
  /\ (forall buffer w,
         utl_snprintf buffer 0 format va w = Some (Z.of_nat (length cs), w)).
Proof.
  intros Hout Hlen. unfold INT_MAX in Hlen.
  assert (Hnull : forall count w,
             utl_snprintf 0 count format va w = Some (Z.of_nat (length cs), w)).
  { intros count w. unfold utl_snprintf. rewrite _vsnprintf_output, Hout.
    cbv zeta. cbn [is_null Z.eqb]. unfold _out_null at 1.
    rewrite put_list_null, to_size_t_small, to_int_small by lia. reflexivity. }
  split; [exact Hnull|].
  intros buffer w. destruct (Z.eq_dec buffer 0) as [->|Hbuf]; [apply Hnull|].
  unfold utl_snprintf. rewrite _vsnprintf_output, Hout. cbv zeta.
  replace (is_null (CharPtr buffer)) with false
    by (symmetry; apply Z.eqb_neq; exact Hbuf).
  rewrite put_list_buffer_store, _out_buffer_store.
  rewrite writes_from_0 by (cbn; lia).
  rewrite to_size_t_small, to_int_small by lia.
  destruct (Z.ltb_spec (Z.of_nat (length cs)) 0); [lia|].
  change (to_size_t (0 - 1) <? 0) with false. reflexivity.
Qed.

(** C9, counterexample.  With a NULL destination and a logical output of
    3000000000 characters nothing is written, but the returned [int] is
    [3000000000 - 2^32], not the formatted length. *)
Lemma null_destination_return_wraps :
  exists cs,
    output "%3000000000c" [VInt 65] = Some cs
    /\ Z.of_nat (length cs) = 3000000000
    /\ utl_snprintf 0 16 "%3000000000c" [VInt 65] w0 = Some (-1294967296, w0).
Proof.
  assert (Hout := output_wide_char "3000000000c" 3000000000 65 eq_refl).
  eexists. split; [exact Hout|]. split.
  - rewrite length_app, repeat_length. cbn [length]. lia.
  - unfold utl_snprintf. rewrite _vsnprintf_output, Hout. cbv zeta.
    cbn [is_null Z.eqb]. unfold _out_null at 1. rewrite put_list_null.
    rewrite length_app, repeat_length. cbn [length].
    replace (Z.of_nat (Z.to_nat (3000000000 - 1) + 1)) with 3000000000 by lia.
    reflexivity.
Qed.

(** C9 at ["hello"] through [%s]. *)
Lemma no_write_without_destination_hello :
  utl_snprintf 0 4 "%s" [VString (Some "hello"%string)] w0 = Some (5, w0)
  /\ utl_snprintf 4096 0 "%s" [VString (Some "hello"%string)] w0 = Some (5, w0).
Proof.
  destruct (no_write_without_destination "%s" [VString (Some "hello"%string)]
              (chars "hello")) as [Hnull Hzero].
  - vm_compute. reflexivity.
  - vm_compute. discriminate.
  - split; [exact (Hnull 4 w0)|exact (Hzero 4096 w0)].
Defined.

(** ** Determinism *)

(** C8.  The outcome of every entry point is fixed by its arguments alone:
    there is one return value and one sequence of stores (for the buffer
    variants, relative to the destination) or of events (for the
    character and callback variants) such that the call, on whatever
    destination and whatever its previous contents, returns that value and
    performs exactly those stores or events.  Two calls with the same
    arguments on independent destinations therefore return the same value
    and write the same bytes.  When the call has no defined result, it has
    none on any destination. *)
Theorem entry_points_deterministic (format : string) (va : va_list) :
  match output format va with
  | Some cs =>
      let ret := to_int (to_size_t (Z.of_nat (length cs))) in
      (forall w,
          utl_printf format va w = Some (ret, log (map Putchar (passed_on cs)) w))
      /\ (exists writes, forall buffer w,
             utl_sprintf buffer format va w
             = Some (ret, if buffer =? 0 then w else store buffer writes w))
      /\ (forall count, exists writes, forall buffer w,
             utl_snprintf buffer count format va w
             = Some (ret, if buffer =? 0 then w else store buffer writes w))
      /\ (forall out arg w,
             utl_vfctprintf out arg format va w
             = Some (ret, log (map (fun c => Callback out c arg) (passed_on cs)) w))
  | None =>
      (forall w, utl_printf format va w = None)
      /\ (forall buffer w, utl_sprintf buffer format va w = None)
      /\ (forall buffer count w, utl_snprintf buffer count format va w = None)
      /\ (forall out arg w, utl_vfctprintf out arg format va w = None)
  end.
Proof.
  assert (Hbuf : forall cs count,
             output format va = Some cs ->
             exists writes, forall buffer w,
               utl_snprintf buffer count format va w
               = Some (to_int (to_size_t (Z.of_nat (length cs))),
                       if buffer =? 0 then w else store buffer writes w)).
  { intros cs count Hout. eexists. intros buffer w.
    unfold utl_snprintf. rewrite _vsnprintf_output, Hout. cbv zeta.
    cbn [is_null]. destruct (buffer =? 0).
    - unfold _out_null at 1. rewrite put_list_null. reflexivity.
    - rewrite put_list_buffer_store, _out_buffer_store, <- store_app.
      cbn [start idx dest]. reflexivity. }
  destruct (output format va) as [cs|] eqn:Hout.
  - cbv zeta. repeat split.
    + intros w. unfold utl_printf. rewrite _vsnprintf_output, Hout. cbv zeta.
      cbn [is_null]. rewrite put_list_char. reflexivity.
    + apply (Hbuf cs SIZE_MAX eq_refl).
    + intros count. apply (Hbuf cs count eq_refl).
    + intros out arg w. unfold utl_vfctprintf.
      rewrite _vsnprintf_output, Hout. cbv zeta. cbn [is_null].
      rewrite put_list_fct. reflexivity.
  - repeat split; intros; unfold utl_printf, utl_sprintf, utl_snprintf, utl_vfctprintf;
      rewrite _vsnprintf_output, Hout; reflexivity.
Qed.

(** ** Signed integers *)



Lemma decimal_value_from_snoc (acc : Z) (s : list ascii) (c : ascii) (x d : Z) :
  decimal_value_from acc s = Some x -> digit_value c = Some d ->
  decimal_value_from acc (s ++ [c]) = Some (10 * x + d).
Proof.
  revert acc; induction s as [|a s IH]; intros acc Hs Hd; cbn in *.
  - injection Hs as <-. rewrite Hd. reflexivity.
  - destruct (digit_value a); [|discriminate]. apply IH; assumption.
Qed.





Lemma eval_directive_ld {W : Type} (out : out_fct_type W) buffer maxlen
    (v : Z) (va : va_list) (st : state W) :
  eval_directive out buffer maxlen "ld" (VLong v :: va) st
  = Some (""%string, va,
          _ntoa out buffer maxlen st (NTOA_ABS (to_long v)) (to_long v <? 0)
            BASE_DECIMAL 0 0 FLAGS_LONG).
Proof. reflexivity. Qed.

Lemma eval_directive_lld {W : Type} (out : out_fct_type W) buffer maxlen
    (v : Z) (va : va_list) (st : state W) :
  eval_directive out buffer maxlen "lld" (VLongLong v :: va) st
  = Some (""%string, va,
          _ntoa out buffer maxlen st (NTOA_ABS (to_int64 v)) (to_int64 v <? 0)
            BASE_DECIMAL 0 0 (Z.lor FLAGS_LONG FLAGS_LONG_LONG)).
Proof. reflexivity. Qed.

Lemma eval_directive_d {W : Type} (out : out_fct_type W) buffer maxlen
    (v : Z) (va : va_list) (st : state W) :
  eval_directive out buffer maxlen "d" (VInt v :: va) st
  = Some (""%string, va,
          _ntoa out buffer maxlen st (NTOA_ABS (to_int v)) (to_int v <? 0)
            BASE_DECIMAL 0 0 0).
Proof. reflexivity. Qed.

Lemma to_int64_small (v : Z) : INT64_MIN <= v <= INT64_MAX -> to_int64 v = v.
Proof.
  unfold INT64_MIN, INT64_MAX, to_int64. intros H. rewrite Z.mod_small; lia.
Qed.


(** The logical output of a format made of one directive. *)
Lemma output_one_directive (directive : string) (va : va_list)
    (f : emitter) (s : list ascii) :
  (forall W (out : out_fct_type W) buffer maxlen st,
      eval_directive out buffer maxlen directive va st
      = Some (""%string, [], f W out buffer maxlen st)) ->
  f _ out_record LocalPtr SIZE_MAX (start []) = put_list out_record LocalPtr SIZE_MAX s (start []) ->
  output (String "%" directive) va = Some s.
Proof.
  intros Hd Hf. unfold output. cbn [String.length vsnprintf_loop].
  change (char_eqb "%" NUL) with false. change (char_eqb "%" "%") with true.
  cbn [negb]. rewrite Hd.
  destruct (String.length directive); cbn [vsnprintf_loop];
    unfold start in Hf; rewrite Hf, put_list_record; reflexivity.
Qed.

(** ** Unrecognized conversion letters *)

(** C4 (as amended).  A directive whose conversion letter [c] is not
    recognized (and is not the terminator) hands the output function the
    letter [c] alone, the ['%'] is not emitted; the conversion consumes no
    argument: the arguments left are those left by the flags, width,
    precision and length fields ([va'], where a ['*'] has taken its
    [int]). *)
Theorem unrecognized_letter_only (directive : string) (va va' : va_list)
    (flags width precision : Z) (c : ascii) (rest : string) :
  eval_header directive va = Some (flags, width, precision, String c rest, va') ->
  is_specifier c = false -> c <> NUL ->
  forall (W : Type) (out : out_fct_type W) buffer maxlen (st : state W),
    eval_directive out buffer maxlen directive va st
    = Some (rest, va', put out buffer maxlen c st).
Proof.
  intros Hh Hc Hnul W out buffer maxlen st.
  unfold eval_directive. rewrite Hh.
  destruct c as [[] [] [] [] [] [] [] []];
    try discriminate Hc; try (exfalso; apply Hnul; reflexivity); reflexivity.
Qed.

(** C4 at the directive [%y]. *)
Lemma unrecognized_letter_y :
  eval_header "y" [] = Some (0, 0, 0, "y"%string, [])
  /\ is_specifier "y" = false /\ "y"%char <> NUL
  /\ forall (W : Type) (out : out_fct_type W) buffer maxlen (st : state W),
      eval_directive out buffer maxlen "y" [] st
      = Some (""%string, [], put out buffer maxlen "y" st).
Proof.
  split; [reflexivity|]. split; [reflexivity|]. split; [discriminate|].
  apply (unrecognized_letter_only "y" [] [] 0 0 0 "y" "");
    [reflexivity | reflexivity | discriminate].
Defined.

(** C4, counterexample.  The output of ["%y"] is ["y"], not ["%y"]; and
    the token ["%*y"] consumes the [int] of its width. *)
Lemma percent_not_emitted :
  output "%y" [] = Some (chars "y")
  /\ output "%y" [] <> Some (chars "%y")
  /\ output "%*y" [VInt 5] = Some (chars "y")
  /\ eval_header "*y" [VInt 5] = Some (0, 5, 0, "y"%string, []).
Proof. repeat split; try reflexivity. discriminate. Qed.

(** ** NULL arguments of [%s] and [%p] *)

(** With the zero-pad flag [_out_rev] pads on the right only. *)
Lemma _out_rev_emits_zeropad (buf : list ascii) (width flags : Z) :
  has flags FLAGS_ZEROPAD = true ->
  exists n2 : nat,
    emits (fun W out buffer maxlen st => _out_rev out buffer maxlen st buf width flags)
          (rev buf ++ repeat " "%char n2).
Proof.
  intros HZ. unfold _out_rev. rewrite HZ, andb_false_r.
  destruct (has flags FLAGS_LEFT).
  - eexists.
    apply (emits_pad_right
             (fun W out buffer maxlen st => put_list out buffer maxlen (rev buf) st)).
    intros W out buffer maxlen st. reflexivity.
  - exists 0%nat. intros W out buffer maxlen st. rewrite app_nil_r. reflexivity.
Qed.

Lemma has_set_flag_zeropad (flags : Z) :
  has (set_flag flags (Z.lor FLAGS_ZEROPAD FLAGS_POINTER)) FLAGS_ZEROPAD = true.
Proof.
  unfold has, set_flag. apply negb_true_iff, Z.eqb_neq. intros H.
  apply (f_equal (fun z => Z.testbit z 0)) in H.
  rewrite Z.land_spec, Z.lor_spec in H. cbn in H.
  rewrite orb_true_r in H. discriminate.
Qed.

(** C7.  For every flags, width and precision, [%s] applied to a NULL
    string emits ["(null)"] and [%p] applied to a NULL pointer emits
    ["(nil)"], with nothing but padding spaces around them; the argument
    is consumed, nothing is dereferenced, and the conversion has a defined
    result for every output function.  A whole call with such arguments
    completes. *)
Theorem null_pointer_placeholder (rest : string) (flags width precision : Z)
    (va : va_list) :
  (exists n1 n2 : nat,
      forall (W : Type) (out : out_fct_type W) buffer maxlen (st : state W),
        eval_specifier out buffer maxlen (String "s" rest) flags width precision
          (VString None :: va) st
        = Some (rest, va,
                put_list out buffer maxlen
                  (repeat " "%char n1 ++ chars "(null)" ++ repeat " "%char n2) st))
  /\ (exists n2 : nat,
         forall (W : Type) (out : out_fct_type W) buffer maxlen (st : state W),
           eval_specifier out buffer maxlen (String "p" rest) flags width precision
             (VPointer 0 :: va) st
           = Some (rest, va,
                   put_list out buffer maxlen
                     (chars "(nil)" ++ repeat " "%char n2) st))
  /\ output "[%8s|%-8s|%.3s|%p|%-20p]"
       [VString None; VString None; VString None; VPointer 0; VPointer 0]
     = Some (chars "[  (null)|(null)  |(null)|(nil)|(nil)             ]").
Proof.
  split; [|split].
  - destruct (_out_rev_emits (chars ")llun(") width flags) as (n1 & n2 & H).
    exists n1, n2. intros W out buffer maxlen st.
    change (eval_specifier out buffer maxlen (String "s" rest) flags width precision
              (VString None :: va) st)
      with (Some (rest, va, _out_rev out buffer maxlen st (chars ")llun(") width flags)).
    rewrite H. reflexivity.
  - destruct (_out_rev_emits_zeropad (chars ")lin(") (8 * 2 + 2)
                (set_flag flags (Z.lor FLAGS_ZEROPAD FLAGS_POINTER))
                (has_set_flag_zeropad flags)) as (n2 & H).
    exists n2. intros W out buffer maxlen st.
    change (eval_specifier out buffer maxlen (String "p" rest) flags width precision
              (VPointer 0 :: va) st)
      with (Some (rest, va,
                  _out_rev out buffer maxlen st (chars ")lin(") (8 * 2 + 2)
                    (set_flag flags (Z.lor FLAGS_ZEROPAD FLAGS_POINTER)))).
    rewrite H. reflexivity.
  - vm_compute. reflexivity.
Qed.

(** ** Rounding of the fixed-decimal decomposition *)

Lemma Prim2SF_half : Prim2SF 0.5 = S754_finite false 4503599627370496 (-53).
Proof. vm_compute. reflexivity. Qed.

(** C3, the code at the failing input.  0.95 at precision 1: the scaled
    remainder is exactly 0.5 and the truncated fractional part is 9; the
    tie branch increments it to 10 = 10^1 without the carry of the branch
    above it, and [%.1f] prints thirty zeros and ["10"]. *)
Lemma carry_missed_on_tie :
  scaled_fraction 0.95 1 = Some (0, 9, 0.5%float)
  /\ get_components 0.95 1
     = Some {| integral := 0; fractional := 10; is_negative := false |}
  /\ output "%.1f" [VDouble 0.95] = Some (chars "00000000000000000000000000000010").
Proof. repeat split; vm_compute; reflexivity. Qed.

(** C5.  [%.2f] applied to 0.005 produces exactly ["0.01"]: the scaled
    remainder is a tie on a zero fractional part, which [get_components]
    rounds up. *)
Lemma half_cent_rounds_up :
  get_components 0.005 2
  = Some {| integral := 0; fractional := 1; is_negative := false |}
  /\ output "%.2f" [VDouble 0.005] = Some (chars "0.01")
  /\ utl_sprintf 4096 "%.2f" [VDouble 0.005] w0
     = Some (4, store 4096 [(0, "0"); (1, "."); (2, "0"); (3, "1"); (4, NUL)]%char w0).
Proof. repeat split; vm_compute; reflexivity. Qed.

(** C6, the code at the failing input.  [%g] applied to 100000.0 produces
    ["100000"].  For 1000000.0 the exponent estimate is 5, not 6, the fixed
    notation is kept and the output is ["1000000"], not ["1e+06"]. *)
Lemma adaptive_million :
  output "%g" [VDouble 100000] = Some (chars "100000")
  /\ fst (estimate_exp10 1000000%float) = 5
  /\ output "%g" [VDouble 1000000] = Some (chars "1000000")
  /\ output "%g" [VDouble 1000000] <> Some (chars "1e+06").
Proof.
  assert (H : output "%g" [VDouble 1000000] = Some (chars "1000000"))
    by (vm_compute; reflexivity).
  repeat split; try (vm_compute; reflexivity).
  rewrite H. intros E. apply (f_equal (fun o => match o with
                                                | Some l => length l
                                                | None => 0%nat
                                                end)) in E.
  vm_compute in E. lia.
Qed.

(** * Further properties *)

(** ** The helpers [_atoi] and [_strnlen_s] *)

Lemma digit_value_is_digit (c : ascii) (d : Z) :
  digit_value c = Some d ->
  _is_digit c = true /\ d = char_code c - char_code "0" /\ 0 <= d <= 9.
Proof.
  unfold digit_value, _is_digit. change (char_code "0") with 48.
  change (char_code "9") with 57.
  destruct (Z.leb_spec 48 (char_code c)), (Z.leb_spec (char_code c) 57);
    cbn [andb]; intros Hs; try discriminate Hs.
  injection Hs as <-. repeat split; lia.
Qed.

Lemma _atoi_from_digits (ds : list ascii) (rest : string) (acc i v : Z) :
  decimal_value_from acc ds = Some v ->
  _is_digit (deref rest) = false ->
  i = to_uint acc ->
  _atoi_from (string_of_list_ascii ds ++ rest) i = (to_uint v, rest).
Proof.
  revert acc i; induction ds as [|c ds IH]; intros acc i Hv Hrest Hi.
  - cbn in Hv. injection Hv as <-. change (_atoi_from rest i = (to_uint acc, rest)).
    destruct rest as [|c rest]; cbn [_atoi_from]; [subst; reflexivity|].
    cbn [deref] in Hrest. rewrite Hrest. subst. reflexivity.
  - cbn [decimal_value_from] in Hv.
    destruct (digit_value c) as [d|] eqn:Hd; [|discriminate].
    destruct (digit_value_is_digit c d Hd) as (Hdig & Hdv & Hr).
    change (_atoi_from (String c (string_of_list_ascii ds ++ rest)) i
            = (to_uint v, rest)).
    cbn [_atoi_from]. rewrite Hdig.
    apply (IH (10 * acc + d)); [exact Hv|exact Hrest|].
    rewrite <- Hdv. subst i. unfold to_uint.
    rewrite Zplus_mod, Zmult_mod_idemp_l, Zmod_mod, <- Zplus_mod. f_equal. lia.
Qed.

(** X1.  [_atoi] reads the longest run of decimal digits at the start of
    the string: for digits [ds] of value [v] followed by a text [rest] that
    does not start with a digit, it returns [v] reduced to [unsigned int]
    and leaves the pointer on [rest]. *)
Theorem _atoi_reads_digits (ds : list ascii) (rest : string) (v : Z) :
  decimal_value_from 0 ds = Some v ->
  _is_digit (deref rest) = false ->
  _atoi (string_of_list_ascii ds ++ rest) = (v mod 2 ^ 32, rest).
Proof.
  intros Hv Hrest. exact (_atoi_from_digits ds rest 0 0 v Hv Hrest eq_refl).
Qed.

Lemma _atoi_reads_digits_wraps :
  decimal_value_from 0 (chars "4294967301") = Some 4294967301
  /\ _is_digit (deref "d") = false
  /\ _atoi "4294967301d" = (5, "d"%string).
Proof.
  split; [reflexivity|]. split; [reflexivity|].
  exact (_atoi_reads_digits (chars "4294967301") "d" 4294967301 eq_refl eq_refl).
Defined.

Lemma strnlen_from_min (str : string) (maxsize n : Z) :
  0 <= maxsize < 2 ^ 64 ->
  strnlen_from str maxsize n = n + Z.min (Z.of_nat (length (c_str str))) maxsize.
Proof.
  revert maxsize n; induction str as [|c rest IH]; intros maxsize n Hm.
  - cbn. lia.
  - cbn [strnlen_from c_str]. destruct (char_eqb c NUL); [cbn; lia|].
    destruct (Z.eqb_spec maxsize 0) as [->|Hnz]; [cbn [length]; lia|].
    rewrite IH.
    + unfold to_size_t. rewrite Z.mod_small by lia. cbn [length]. lia.
    + unfold to_size_t. rewrite Z.mod_small by lia. lia.
Qed.

(** X2.  [_strnlen_s] returns the length of the string, but never more than
    [maxsize]: the minimum of the two, as an [unsigned int]. *)
Theorem _strnlen_s_min (str : string) (maxsize : Z) :
  0 <= maxsize < 2 ^ 64 ->
  _strnlen_s str maxsize
  = (Z.min (Z.of_nat (length (c_str str))) maxsize) mod 2 ^ 32.
Proof.
  intros Hm. unfold _strnlen_s. rewrite strnlen_from_min by exact Hm. reflexivity.
Qed.

Lemma _strnlen_s_min_hello :
  0 <= 3 < 2 ^ 64 /\ _strnlen_s "hello" 3 = 3 /\ _strnlen_s "hello" 0 = 0.
Proof.
  split; [lia|]. split.
  - exact (_strnlen_s_min "hello" 3 ltac:(lia)).
  - reflexivity.
Defined.

(** ** Field layout *)

Lemma pad_count_exact (fuel : nat) (d width : Z) :
  0 <= d -> width < 2 ^ 64 -> (Z.to_nat (width - d) <= fuel)%nat ->
  pad_count fuel d width = Z.to_nat (width - d).
Proof.
  revert d; induction fuel as [|fuel IH]; intros d Hd Hw Hf; cbn [pad_count].
  - lia.
  - destruct (Z.ltb_spec d width); [|lia].
    unfold to_size_t. rewrite Z.mod_small by lia.
    rewrite IH by lia. lia.
Qed.

(** [_out_rev] in closed form: the buffer reversed, brought to [width] with
    spaces on the right for a left-justified field, on the left otherwise,
    and not at all when the zero-pad flag is set. *)
Lemma _out_rev_exact (buf : list ascii) (width flags : Z) :
  0 <= width < 2 ^ 32 -> Z.of_nat (length buf) < 2 ^ 64 ->
  emits (fun W out buffer maxlen st => _out_rev out buffer maxlen st buf width flags)
        (let pad := repeat " "%char (Z.to_nat (width - Z.of_nat (length buf))) in
         if has flags FLAGS_LEFT then rev buf ++ pad
         else if has flags FLAGS_ZEROPAD then rev buf
         else pad ++ rev buf).
Proof.
  intros Hw Hlen. cbv zeta. unfold _out_rev.
  set (n := Z.to_nat (width - Z.of_nat (length buf))).
  destruct (has flags FLAGS_LEFT) eqn:Hleft; cbn [negb andb].
  - assert (E := emits_pad_right
                   (fun W out buffer maxlen st => put_list out buffer maxlen (rev buf) st)
                   (rev buf) (Z.to_nat width) width
                   (fun W out buffer maxlen st => eq_refl)).
    rewrite length_rev, to_size_t_small, pad_count_exact in E by lia.
    exact E.
  - destruct (has flags FLAGS_ZEROPAD); cbn [negb].
    + intros W out buffer maxlen st. reflexivity.
    + intros W out buffer maxlen st. rewrite put_n_repeat, put_list_app. reflexivity.
Qed.

(** X3.  [_out_rev] writes the conversion buffer back to front and brings
    the field to [width] with spaces: after the text under the ['-'] flag,
    before it when neither ['-'] nor ['0'] is set.  Under ['0'] without
    ['-'] it adds nothing: the zeros are already in the buffer. *)
Theorem _out_rev_layout (buf : list ascii) (width flags : Z) :
  0 <= width < 2 ^ 32 -> Z.of_nat (length buf) < 2 ^ 64 ->
  forall (W : Type) (out : out_fct_type W) buffer maxlen (st : state W),
    _out_rev out buffer maxlen st buf width flags
    = put_list out buffer maxlen
        (let pad := repeat " "%char (Z.to_nat (width - Z.of_nat (length buf))) in
         if has flags FLAGS_LEFT then rev buf ++ pad
         else if has flags FLAGS_ZEROPAD then rev buf
         else pad ++ rev buf) st.
Proof. intros Hw Hlen. exact (_out_rev_exact buf width flags Hw Hlen). Qed.

Lemma _out_rev_layout_right :
  0 <= 5 < 2 ^ 32
  /\ Z.of_nat (length (chars "24")) < 2 ^ 64
  /\ dest (_out_rev out_record LocalPtr SIZE_MAX {| dest := []; idx := 0 |}
             (chars "24") 5 0)
     = chars "   42".
Proof.
  assert (H1 : 0 <= 5 < 2 ^ 32) by lia.
  assert (H2 : Z.of_nat (length (chars "24")) < 2 ^ 64) by (vm_compute; reflexivity).
  split; [exact H1|]. split; [exact H2|].
  rewrite (_out_rev_layout (chars "24") 5 0 H1 H2). vm_compute. reflexivity.
Defined.

Lemma has_set_flag (f a b : Z) : has (set_flag f a) b = has f b || has a b.
Proof.
  unfold has, set_flag. rewrite Z.land_lor_distr_l.
  destruct (Z.eqb_spec (Z.land f b) 0) as [E1|E1],
    (Z.eqb_spec (Z.land a b) 0) as [E2|E2]; cbn [negb orb].
  - rewrite E1, E2. reflexivity.
  - apply negb_true_iff, Z.eqb_neq. intros E. apply Z.lor_eq_0_iff in E. tauto.
  - apply negb_true_iff, Z.eqb_neq. intros E. apply Z.lor_eq_0_iff in E. tauto.
  - apply negb_true_iff, Z.eqb_neq. intros E. apply Z.lor_eq_0_iff in E. tauto.
Qed.

Lemma to_uint_range (x : Z) : 0 <= to_uint x < 2 ^ 32.
Proof. unfold to_uint. apply Z.mod_pos_bound. lia. Qed.

Lemma _atoi_from_range (str : string) (i : Z) :
  0 <= i < 2 ^ 32 -> 0 <= fst (_atoi_from str i) < 2 ^ 32.
Proof.
  revert i; induction str as [|c rest IH]; intros i Hi; cbn [_atoi_from].
  - exact Hi.
  - destruct (_is_digit c); [apply IH, to_uint_range|exact Hi].
Qed.

Lemma eval_width_range (format : string) (flags : Z) (va : va_list)
    flags' width format' va' :
  eval_width format flags va = Some (flags', width, format', va') ->
  0 <= width < 2 ^ 32
  /\ (has flags FLAGS_PRECISION = has flags' FLAGS_PRECISION).
Proof.
  unfold eval_width. destruct format as [|c rest].
  - intros H. injection H as <- <- <- <-. split; [lia|reflexivity].
  - destruct (_is_digit c).
    + unfold _atoi. pose proof (_atoi_from_range (String c rest) 0 ltac:(lia)) as Hr.
      destruct (_atoi_from (String c rest) 0) as [w f]. cbn [fst] in Hr.
      intros H. injection H as <- <- <- <-. split; [exact Hr|reflexivity].
    + destruct (char_eqb c "*").
      * destruct (va_arg_int va) as [[w va1]|]; [|discriminate].
        destruct (w <? 0); intros H; injection H as <- <- <- <-;
          (split; [apply to_uint_range|]); [|reflexivity].
        rewrite has_set_flag. change (has FLAGS_LEFT FLAGS_PRECISION) with false.
        rewrite orb_false_r. reflexivity.
      * intros H. injection H as <- <- <- <-. split; [lia|reflexivity].
Qed.

Lemma eval_precision_range (format : string) (flags : Z) (va : va_list)
    flags' precision format' va' :
  eval_precision format flags va = Some (flags', precision, format', va') ->
  0 <= precision < 2 ^ 32
  /\ (has flags' FLAGS_PRECISION = false -> precision = 0).
Proof.
  assert (Hset : has (set_flag flags FLAGS_PRECISION) FLAGS_PRECISION = true).
  { rewrite has_set_flag. change (has FLAGS_PRECISION FLAGS_PRECISION) with true.
    apply orb_true_r. }
  unfold eval_precision. destruct format as [|c rest].
  - intros H. injection H as <- <- <- <-. split; [lia|reflexivity].
  - destruct (Ascii.eqb_spec c ".") as [->|Hne].
    + destruct rest as [|c' rest'].
      * intros H. injection H as <- <- <- <-. split; [lia|reflexivity].
      * destruct (_is_digit c').
        -- unfold _atoi.
           pose proof (_atoi_from_range (String c' rest') 0 ltac:(lia)) as Hr.
           destruct (_atoi_from (String c' rest') 0) as [w f]. cbn [fst] in Hr.
           intros H. injection H as <- <- <- <-. split; [exact Hr|].
           rewrite Hset. discriminate.
        -- destruct (char_eqb c' "*").
           ++ destruct (va_arg_int va) as [[w va1]|]; [|discriminate].
              intros H. injection H as <- <- <- <-. split.
              ** destruct (0 <? w); [apply to_uint_range|lia].
              ** rewrite Hset. discriminate.
           ++ intros H. injection H as <- <- <- <-. split; [lia|reflexivity].
    + intros H.
      assert (E : Some (flags, 0, String c rest, va)
                  = Some (flags', precision, format', va')).
      { rewrite <- H. destruct c as [[] [] [] [] [] [] [] []];
          try reflexivity. exfalso. apply Hne. reflexivity. }
      injection E as <- <- <- <-. split; [lia|reflexivity].
Qed.

Lemma eval_length_precision (format : string) (flags : Z) :
  has (fst (eval_length format flags)) FLAGS_PRECISION = has flags FLAGS_PRECISION.
Proof.
  assert (H1 : forall f a, has a FLAGS_PRECISION = false ->
                 has (set_flag f a) FLAGS_PRECISION = has f FLAGS_PRECISION).
  { intros f a Ha. rewrite has_set_flag, Ha. apply orb_false_r. }
  destruct format as [|c rest]; [reflexivity|].
  unfold eval_length.
  destruct c as [[] [] [] [] [] [] [] []]; cbn [fst]; try reflexivity;
    try (apply H1; reflexivity);
    destruct rest as [|c' rest']; cbn [fst]; try (apply H1; reflexivity);
    destruct c' as [[] [] [] [] [] [] [] []]; cbn [fst];
    rewrite ?H1 by reflexivity; reflexivity.
Qed.

(** What the header of a directive hands to the conversion: a width and a
    precision in the range of [unsigned int], and a precision of 0 when
    there was no ['.']. *)
Lemma eval_header_range (format : string) (va : va_list)
    flags width precision format' va' :
  eval_header format va = Some (flags, width, precision, format', va') ->
  0 <= width < 2 ^ 32 /\ 0 <= precision < 2 ^ 32
  /\ (has flags FLAGS_PRECISION = false -> precision = 0).
Proof.
  unfold eval_header.
  destruct (eval_flags format 0) as [fl f1].
  destruct (eval_width f1 fl va) as [[[[fl2 w] f2] va2]|] eqn:Hw; [|discriminate].
  apply eval_width_range in Hw. destruct Hw as [Hw _].
  destruct (eval_precision f2 fl2 va2) as [[[[fl3 p] f3] va3]|] eqn:Hp;
    [|discriminate].
  apply eval_precision_range in Hp. destruct Hp as [Hp Hp0].
  pose proof (eval_length_precision f3 fl3) as H4.
  destruct (eval_length f3 fl3) as [fl4 f4]. cbn [fst] in H4.
  intros H. injection H as <- <- <- <- <-.
  split; [exact Hw|]. split; [exact Hp|]. intros Hf. apply Hp0.
  rewrite <- H4. exact Hf.
Qed.

(** ** Strings and characters *)

Section Conversions.

Context {W : Type}.
Variable out : out_fct_type W.
Variable buffer : void_ptr.
Variable maxlen : Z.

Lemma put_str_exact (p : string) (limited : bool) (precision : Z) (st : state W) :
  0 <= precision < 2 ^ 32 ->
  put_str out buffer maxlen p limited precision st
  = put_list out buffer maxlen
      (if limited then firstn (Z.to_nat precision) (c_str p) else c_str p) st.
Proof.
  revert precision st; induction p as [|c p IH]; intros precision st Hp;
    cbn [put_str c_str].
  - destruct limited; [rewrite firstn_nil|]; reflexivity.
  - destruct (char_eqb c NUL).
    + destruct limited; [rewrite firstn_nil|]; reflexivity.
    + destruct limited.
      * destruct (Z.eqb_spec precision 0) as [->|Hnz]; [reflexivity|].
        assert (E : to_uint (precision - 1) = precision - 1)
          by (apply Z.mod_small; lia).
        rewrite E, IH by lia.
        replace (Z.to_nat precision) with (S (Z.to_nat (precision - 1))) by lia.
        reflexivity.
      * rewrite IH by lia. reflexivity.
Qed.

Lemma pad_spaces_repeat (l width : Z) (st : state W) :
  pad_spaces out buffer maxlen l width st
  = put_list out buffer maxlen (repeat " "%char (Z.to_nat (width - l))) st.
Proof. unfold pad_spaces. apply put_n_repeat. Qed.

Lemma eval_specifier_s (rest : string) (flags width precision : Z) (p : string)
    (va : va_list) (st : state W) :
  eval_specifier out buffer maxlen (String "s" rest) flags width precision
    (VString (Some p) :: va) st
  = Some (rest, va,
          let l := _strnlen_s p (if negb (precision =? 0) then precision else SIZE_MAX) in
          let l :=
            if has flags FLAGS_PRECISION
            then (if l <? precision then l else precision) else l in
          let st := if negb (has flags FLAGS_LEFT)
                    then pad_spaces out buffer maxlen l width st else st in
          let st := put_str out buffer maxlen p (has flags FLAGS_PRECISION) precision st in
          if has flags FLAGS_LEFT then pad_spaces out buffer maxlen l width st else st).
Proof. reflexivity. Qed.

End Conversions.

(** X4.  [%s] with a non-NULL argument prints the characters of the string
    up to its terminator, at most [precision] of them when a precision is
    given, and pads with spaces to the width: on the right under the ['-']
    flag, on the left otherwise, also under ['0']. *)
Theorem string_conversion_layout (directive : string) (va va' : va_list)
    (flags width precision : Z) (rest p : string) :
  eval_header directive va
  = Some (flags, width, precision, String "s" rest, VString (Some p) :: va') ->
  Z.of_nat (length (c_str p)) < 2 ^ 32 ->
  forall (W : Type) (out : out_fct_type W) buffer maxlen (st : state W),
    eval_directive out buffer maxlen directive va st
    = Some (rest, va',
            put_list out buffer maxlen
              (let body :=
                 if has flags FLAGS_PRECISION
                 then firstn (Z.to_nat precision) (c_str p) else c_str p in
               let pad :=
                 repeat " "%char (Z.to_nat (width - Z.of_nat (length body))) in
               if has flags FLAGS_LEFT then body ++ pad else pad ++ body) st).
Proof.
  intros Hh Hlen W out buffer maxlen st.
  destruct (eval_header_range _ _ _ _ _ _ _ Hh) as (Hw & Hp & Hp0).
  unfold eval_directive. rewrite Hh, eval_specifier_s. cbv zeta.
  set (len := Z.of_nat (length (c_str p))) in *.
  assert (Hlen0 : 0 <= len) by (subst len; lia).
  set (body := if has flags FLAGS_PRECISION
               then firstn (Z.to_nat precision) (c_str p) else c_str p).
  assert (Hl : (let l := _strnlen_s p (if negb (precision =? 0) then precision else SIZE_MAX) in
                if has flags FLAGS_PRECISION
                then (if l <? precision then l else precision) else l)
               = Z.of_nat (length body)).
  { cbv zeta. unfold _strnlen_s. subst body.
    destruct (Z.eqb_spec precision 0) as [E|E]; cbn [negb].
    - rewrite strnlen_from_min by (unfold SIZE_MAX; lia).
      fold len. unfold SIZE_MAX. rewrite Z.min_l by lia.
      unfold to_uint. rewrite (Z.mod_small (0 + len)) by lia.
      destruct (has flags FLAGS_PRECISION).
      + rewrite E. change (Z.to_nat 0) with 0%nat. rewrite firstn_O.
        cbn [length]. destruct (Z.ltb_spec (0 + len) 0); lia.
      + lia.
    - rewrite strnlen_from_min by lia. fold len.
      unfold to_uint. rewrite (Z.mod_small (0 + Z.min len precision)) by lia.
      destruct (has flags FLAGS_PRECISION) eqn:Hf.
      + rewrite length_firstn. fold len.
        destruct (Z.ltb_spec (0 + Z.min len precision) precision); lia.
      + specialize (Hp0 eq_refl). lia. }
  cbv zeta in Hl. rewrite Hl.
  rewrite put_str_exact by exact Hp. fold body.
  destruct (has flags FLAGS_LEFT); cbn [negb]; rewrite pad_spaces_repeat, put_list_app;
    reflexivity.
Qed.

Lemma string_conversion_layout_abc :
  eval_header "-6.2s|" [VString (Some "abc"%string)]
  = Some (Z.lor FLAGS_LEFT FLAGS_PRECISION, 6, 2, "s|"%string,
          [VString (Some "abc"%string)])
  /\ Z.of_nat (length (c_str "abc")) < 2 ^ 32
  /\ eval_directive out_record LocalPtr SIZE_MAX "-6.2s|"
       [VString (Some "abc"%string)] (start [])
     = Some ("|"%string, [],
             put_list out_record LocalPtr SIZE_MAX (chars "ab    ") (start [])).
Proof.
  split; [reflexivity|]. split; [vm_compute; reflexivity|].
  exact (string_conversion_layout "-6.2s|" [VString (Some "abc"%string)] []
           (Z.lor FLAGS_LEFT FLAGS_PRECISION) 6 2 "|" "abc" eq_refl
           ltac:(vm_compute; reflexivity) _ out_record LocalPtr SIZE_MAX (start [])).
Defined.

Lemma to_char_to_int (v : Z) : to_char (to_int v) = to_char v.
Proof.
  unfold to_char, to_int. do 2 f_equal.
  pose proof (Z.div_mod (v + 2 ^ 31) (2 ^ 32) ltac:(lia)) as H.
  set (q := (v + 2 ^ 31) / 2 ^ 32) in *. set (a := (v + 2 ^ 31) mod 2 ^ 32) in *.
  replace (a - 2 ^ 31) with (v + (- q * 2 ^ 24) * 2 ^ 8) by lia.
  apply Z_mod_plus_full.
Qed.

(** X5.  [%c] prints its argument converted to [char], in a field of
    spaces of the given width: the character first under the ['-'] flag,
    last otherwise.  Precision and the other flags play no part. *)
Theorem char_conversion_layout (directive : string) (va va' : va_list)
    (flags width precision v : Z) (rest : string) :
  eval_header directive va
  = Some (flags, width, precision, String "c" rest, VInt v :: va') ->
  forall (W : Type) (out : out_fct_type W) buffer maxlen (st : state W),
    eval_directive out buffer maxlen directive va st
    = Some (rest, va',
            put_list out buffer maxlen
              (let pad := repeat " "%char (Z.to_nat (width - 1)) in
               if has flags FLAGS_LEFT then to_char v :: pad
               else pad ++ [to_char v]) st).
Proof.
  intros Hh W out buffer maxlen st.
  unfold eval_directive. rewrite Hh, eval_specifier_c, to_char_to_int. cbv zeta.
  destruct (has flags FLAGS_LEFT); cbn [negb]; rewrite pad_spaces_repeat.
  - reflexivity.
  - rewrite put_list_app. reflexivity.
Qed.

Lemma char_conversion_layout_star :
  eval_header "*c" [VInt (-3); VInt 65]
  = Some (FLAGS_LEFT, 3, 0, "c"%string, [VInt 65])
  /\ eval_directive out_record LocalPtr SIZE_MAX "*c" [VInt (-3); VInt 65] (start [])
     = Some (""%string, [],
             put_list out_record LocalPtr SIZE_MAX (chars "A  ") (start [])).
Proof.
  split; [reflexivity|].
  exact (char_conversion_layout "*c" [VInt (-3); VInt 65] [] FLAGS_LEFT 3 0 65 ""
           eq_refl _ out_record LocalPtr SIZE_MAX (start [])).
Defined.

(** ** Values that are not finite numbers *)

Lemma Prim2SF_DBL_MAX : exists q k, Prim2SF DBL_MAX = S754_finite false q k.
Proof. eexists. eexists. vm_compute. reflexivity. Qed.

Lemma Prim2SF_neg_DBL_MAX : exists q k, Prim2SF (- DBL_MAX) = S754_finite true q k.
Proof. eexists. eexists. vm_compute. reflexivity. Qed.

(** Evaluates the tests of one flag constant against another. *)
Ltac has_const :=
  repeat match goal with
         | |- context [has ?a ?b] =>
             let r := eval cbv in (has a b) in
             lazymatch r with
             | true => change (has a b) with true
             | false => change (has a b) with false
             end
         end.

(** Evaluates the comparisons of two character constants. *)
Ltac char_const :=
  repeat match goal with
         | |- context [char_eqb ?a ?b] =>
             let r := eval cbv in (char_eqb a b) in
             lazymatch r with
             | true => change (char_eqb a b) with true
             | false => change (char_eqb a b) with false
             end
         end.

Lemma sprint_floating_point_special {W : Type} (out : out_fct_type W) buffer maxlen
    (st : state W) (value : double) (precision width flags : Z)
    (prefer_exponential : bool) (text : string) :
  special_float (Prim2SF value) (has flags FLAGS_PLUS) = Some text ->
  sprint_floating_point out buffer maxlen st value precision width flags
    prefer_exponential
  = Some (_out_rev out buffer maxlen st (rev (chars text)) width flags).
Proof.
  intros Ht. unfold sprint_floating_point.
  rewrite FloatAxioms.eqb_spec, !FloatAxioms.ltb_spec.
  destruct Prim2SF_DBL_MAX as (q & k & ->).
  destruct Prim2SF_neg_DBL_MAX as (q' & k' & ->).
  destruct (Prim2SF value) as [s|s| |s m e]; cbn [special_float] in Ht.
  - exfalso. exact (Some_ne_None _ (eq_sym Ht)).
  - destruct s.
    + assert (E : text = "-inf"%string)
        by (apply (f_equal (fun o => match o with Some t => t | None => ""%string end))
              in Ht; symmetry; exact Ht).
      rewrite E. reflexivity.
    + assert (E : text = (if has flags FLAGS_PLUS then "+inf" else "inf")%string)
        by (apply (f_equal (fun o => match o with Some t => t | None => ""%string end))
              in Ht; symmetry; exact Ht).
      rewrite E. cbn. destruct (has flags FLAGS_PLUS); reflexivity.
  - assert (E : text = "nan"%string)
      by (apply (f_equal (fun o => match o with Some t => t | None => ""%string end))
            in Ht; symmetry; exact Ht).
    rewrite E. reflexivity.
  - exfalso. exact (Some_ne_None _ (eq_sym Ht)).
Qed.

(** X6.  Not-a-number and the infinities: under each of the letters
    [f F e E g G] the text is ["nan"], ["-inf"], ["inf"] or, under the
    ['+'] flag, ["+inf"], in lower case for the upper-case letters too.  It
    is padded with spaces to the width like any field of [_out_rev], so
    that ['0'] without ['-'] leaves it unpadded. *)
Theorem special_values_layout (directive : string) (va va' : va_list)
    (flags width precision : Z) (c : ascii) (rest : string) (v : double)
    (text : string) :
  eval_header directive va
  = Some (flags, width, precision, String c rest, VDouble v :: va') ->
  In c (chars "fFeEgG") ->
  special_float (Prim2SF v) (has flags FLAGS_PLUS) = Some text ->
  forall (W : Type) (out : out_fct_type W) buffer maxlen (st : state W),
    eval_directive out buffer maxlen directive va st
    = Some (rest, va',
            put_list out buffer maxlen
              (let pad :=
                 repeat " "%char
                   (Z.to_nat (width - Z.of_nat (String.length text))) in
               if has flags FLAGS_LEFT then chars text ++ pad
               else if has flags FLAGS_ZEROPAD then chars text
               else pad ++ chars text) st).
Proof.
  intros Hh Hc Ht W out buffer maxlen st.
  destruct (eval_header_range _ _ _ _ _ _ _ Hh) as (Hw & _ & _).
  assert (Hlen : Z.of_nat (length (rev (chars text))) = Z.of_nat (String.length text)).
  { rewrite length_rev. unfold chars. clear. induction text as [|a t IH]; [reflexivity|].
    cbn [list_ascii_of_string length String.length]. lia. }
  assert (Htl : Z.of_nat (length (rev (chars text))) < 2 ^ 64).
  { rewrite Hlen.
    destruct (Prim2SF v) as [s|[]| |s m e]; cbn [special_float] in Ht;
      try (exfalso; exact (Some_ne_None _ (eq_sym Ht)));
      apply (f_equal (fun o => match o with Some t => t | None => ""%string end)) in Ht;
      rewrite <- Ht; try destruct (has flags FLAGS_PLUS); cbn; lia. }
  unfold eval_directive. rewrite Hh.
  cbn in Hc.
  assert (Hgoal : forall flags',
             has flags' FLAGS_PLUS = has flags FLAGS_PLUS ->
             has flags' FLAGS_LEFT = has flags FLAGS_LEFT ->
             has flags' FLAGS_ZEROPAD = has flags FLAGS_ZEROPAD ->
             forall pe,
             match sprint_floating_point out buffer maxlen st v precision width
                     flags' pe with
             | Some st' => Some (rest, va', st')
             | None => None
             end
             = Some (rest, va',
                     put_list out buffer maxlen
                       (let pad :=
                          repeat " "%char
                            (Z.to_nat (width - Z.of_nat (String.length text))) in
                        if has flags FLAGS_LEFT then chars text ++ pad
                        else if has flags FLAGS_ZEROPAD then chars text
                        else pad ++ chars text) st)).
  { intros flags' HP HL HZ pe.
    rewrite (sprint_floating_point_special _ _ _ _ _ _ _ _ _ text)
      by (rewrite HP; exact Ht).
    rewrite (_out_rev_exact (rev (chars text)) width flags' Hw Htl).
    cbv zeta. rewrite HL, HZ, Hlen, rev_involutive. reflexivity. }
  destruct Hc as [<-|[<-|[<-|[<-|[<-|[<-|[]]]]]]];
    unfold eval_specifier; cbn [deref];
    apply Hgoal; char_const; cbn [orb]; rewrite ?has_set_flag; has_const;
    rewrite ?orb_false_r; reflexivity.
Qed.

Lemma special_values_layout_nan :
  eval_header "8E" [VDouble nan] = Some (0, 8, 0, "E"%string, [VDouble nan])
  /\ In "E"%char (chars "fFeEgG")
  /\ special_float (Prim2SF nan) (has 0 FLAGS_PLUS) = Some "nan"%string
  /\ eval_directive out_record LocalPtr SIZE_MAX "8E" [VDouble nan] (start [])
     = Some (""%string, [],
             put_list out_record LocalPtr SIZE_MAX (chars "     nan") (start [])).
Proof.
  assert (Hc : In "E"%char (chars "fFeEgG")) by (cbn; tauto).
  split; [reflexivity|]. split; [exact Hc|]. split; [reflexivity|].
  exact (special_values_layout "8E" [VDouble nan] [] 0 8 0 "E" "" nan "nan"
           eq_refl Hc eq_refl _ out_record LocalPtr SIZE_MAX (start [])).
Defined.

(** ** The main loop, piece by piece *)

Lemma vsnprintf_loop_output {W : Type} (out : out_fct_type W) buffer maxlen
    (fuel : nat) (format : string) (va : va_list) (st : state W) :
  (String.length format < fuel)%nat ->
  vsnprintf_loop out buffer maxlen fuel format va st
  = match output format va with
    | Some cs => Some (put_list out buffer maxlen cs st)
    | None => None
    end.
Proof.
  intros Hf.
  rewrite (vsnprintf_loop_fuel out buffer maxlen fuel (S (String.length format)))
    by lia.
  rewrite output_emitted.
  apply (is_emitter_vsnprintf_loop (S (String.length format)) format va).
Qed.

Lemma vsnprintf_loop_S {W : Type} (out : out_fct_type W) buffer maxlen
    (fuel : nat) (c : ascii) (rest : string) (va : va_list) (st : state W) :
  vsnprintf_loop out buffer maxlen (S fuel) (String c rest) va st
  = if char_eqb c NUL then Some st
    else if negb (char_eqb c "%") then
      vsnprintf_loop out buffer maxlen fuel rest va (put out buffer maxlen c st)
    else
      match eval_directive out buffer maxlen rest va st with
      | Some (format, va, st) => vsnprintf_loop out buffer maxlen fuel format va st
      | None => None
      end.
Proof. reflexivity. Qed.

Lemma output_cons (c : ascii) (rest : string) (va : va_list) :
  literal c ->
  output (String c rest) va = option_map (cons c) (output rest va).
Proof.
  intros [Hn Hp]. unfold output at 1. rewrite vsnprintf_loop_S.
  unfold char_eqb.
  destruct (Ascii.eqb_spec c NUL) as [E|_]; [contradiction|].
  destruct (Ascii.eqb_spec c "%") as [E|_]; [contradiction|]. cbn [negb].
  rewrite vsnprintf_loop_output by (cbn [String.length]; lia).
  destruct (output rest va) as [cs|]; [|reflexivity].
  cbn [option_map]. rewrite put_list_record. reflexivity.
Qed.

Lemma output_percent (directive : string) (va : va_list) :
  output (String "%" directive) va
  = match emitted_opt (fun W out buffer maxlen st =>
                         eval_directive out buffer maxlen directive va st) with
    | Some (format', va', cs) => option_map (app cs) (output format' va')
    | None => None
    end.
Proof.
  unfold output at 1. rewrite vsnprintf_loop_S.
  change (char_eqb "%" NUL) with false. change (char_eqb "%" "%") with true.
  cbn [negb].
  pose proof (is_emitter_eval_directive directive va _ out_record LocalPtr SIZE_MAX
                {| dest := []; idx := 0 |}) as E.
  cbv beta in E.
  destruct (emitted_opt _) as [[[format' va'] cs]|].
  - rewrite E. pose proof (eval_directive_length _ _ _ _ _ _ _ _ _ E) as Hl.
    rewrite vsnprintf_loop_output by (cbn [String.length]; lia).
    destruct (output format' va') as [cs'|]; [|reflexivity].
    cbn [option_map]. rewrite !put_list_record. reflexivity.
  - rewrite E. reflexivity.
Qed.

(** Literal text in front of a format. *)
Lemma output_literal_app (lit : list ascii) (format : string) (va : va_list) :
  Forall literal lit ->
  output (string_of_list_ascii lit ++ format) va
  = option_map (app lit) (output format va).
Proof.
  induction 1 as [|c lit Hc _ IH].
  - change (output format va = option_map (app []) (output format va)).
    destruct (output format va); reflexivity.
  - change (output (String c (string_of_list_ascii lit ++ format)) va
            = option_map (app (c :: lit)) (output format va)).
    rewrite (output_cons c _ va Hc), IH.
    destruct (output format va); reflexivity.
Qed.

(** X7.  Characters of the format other than ['%'] and the terminator are
    copied to the output as they are: the output of a format that starts
    with such text is the text followed by the output of the rest. *)
Theorem literal_prefix_verbatim (lit : list ascii) (format : string) (va : va_list) :
  Forall literal lit ->
  output (string_of_list_ascii lit ++ format) va
  = option_map (app lit) (output format va).
Proof. intros H. exact (output_literal_app lit format va H). Qed.

Lemma literal_prefix_verbatim_seed :
  Forall literal (chars "id=")
  /\ output "id=%d" [VInt 7] = Some (chars "id=7").
Proof.
  assert (H : Forall literal (chars "id=")).
  { repeat constructor; discriminate. }
  split; [exact H|].
  exact (literal_prefix_verbatim (chars "id=") "%d" [VInt 7] H).
Defined.

(** ** Flags, and the ['*'] width and precision *)

Lemma eval_flags_app (fl : list ascii) (s : string) (flags : Z) :
  Forall (fun c => flag_of c <> None) fl ->
  eval_flags (string_of_list_ascii fl ++ s) flags = eval_flags s (flags_of fl flags).
Proof.
  intros H. revert flags. induction H as [|c fl Hc _ IH]; intros flags.
  - reflexivity.
  - change (eval_flags (String c (string_of_list_ascii fl ++ s)) flags
            = eval_flags s (flags_of fl (match flag_of c with
                                         | Some b => set_flag flags b
                                         | None => flags
                                         end))).
    cbn [eval_flags]. unfold flag_of in *.
    repeat (destruct (char_eqb c _); [apply IH|]).
    contradiction.
Qed.

Lemma eval_header_flags (fl : list ascii) (s : string) (va : va_list) (c : ascii)
    (rest : string) :
  Forall (fun c => flag_of c <> None) fl ->
  s = String c rest -> flag_of c = None ->
  eval_header (string_of_list_ascii fl ++ s) va
  = match eval_width s (flags_of fl 0) va with
    | None => None
    | Some (flags, width, format, va) =>
        match eval_precision format flags va with
        | None => None
        | Some (flags, precision, format, va) =>
            let '(flags, format) := eval_length format flags in
            Some (flags, width, precision, format, va)
        end
    end.
Proof.
  intros Hfl -> Hc. unfold eval_header. rewrite eval_flags_app by exact Hfl.
  cbn [eval_flags]. unfold flag_of in Hc.
  repeat (destruct (char_eqb c _); [discriminate Hc|]).
  reflexivity.
Qed.

Lemma output_same_directive (d1 d2 : string) (va1 va2 : va_list) :
  (forall (W : Type) (out : out_fct_type W) buffer maxlen (st : state W),
      eval_directive out buffer maxlen d1 va1 st
      = eval_directive out buffer maxlen d2 va2 st) ->
  output (String "%" d1) va1 = output (String "%" d2) va2.
Proof.
  intros H. rewrite !output_percent. unfold emitted_opt. rewrite H. reflexivity.
Qed.

Lemma string_of_list_ascii_snoc (fl : list ascii) (c : ascii) (s : string) :
  (string_of_list_ascii (fl ++ [c]) ++ s)%string
  = (string_of_list_ascii fl ++ String c s)%string.
Proof.
  induction fl as [|x fl IH]; [reflexivity|].
  change (String x (string_of_list_ascii (fl ++ [c]) ++ s)
          = String x (string_of_list_ascii fl ++ String c s))%string.
  f_equal. exact IH.
Qed.

(** X8.  A negative width taken from the arguments by ['*'] gives a
    left-justified field of the absolute value: the directive prints what
    it prints under the ['-'] flag with the width [- w]. *)
Theorem star_width_negative (fl : list ascii) (rest : string) (w : Z) (va : va_list) :
  Forall (fun c => flag_of c <> None) fl ->
  - 2 ^ 31 < w < 0 ->
  output ("%" ++ string_of_list_ascii fl ++ "*" ++ rest) (VInt w :: va)
  = output ("%" ++ string_of_list_ascii fl ++ "-*" ++ rest) (VInt (- w) :: va).
Proof.
  intros Hfl Hw.
  change (output (String "%" (string_of_list_ascii fl ++ String "*" rest)) (VInt w :: va)
          = output (String "%" (string_of_list_ascii fl ++ String "-" (String "*" rest)))
              (VInt (- w) :: va)).
  apply output_same_directive. intros W out buffer maxlen st.
  unfold eval_directive.
  rewrite (eval_header_flags fl (String "*" rest) _ "*" rest Hfl eq_refl eq_refl).
  assert (Hfl' : Forall (fun c => flag_of c <> None) (fl ++ ["-"%char])).
  { apply Forall_app. split; [exact Hfl|]. repeat constructor. discriminate. }
  rewrite <- (string_of_list_ascii_snoc fl "-" (String "*" rest)).
  rewrite (eval_header_flags (fl ++ ["-"%char]) (String "*" rest) _ "*" rest Hfl'
             eq_refl eq_refl).
  unfold flags_of. rewrite fold_left_app. cbn [fold_left].
  change (flag_of "-") with (Some FLAGS_LEFT). cbv iota.
  fold (flags_of fl 0).
  unfold eval_width. change (_is_digit "*") with false.
  change (char_eqb "*" "*") with true. cbv iota. cbn [va_arg_int].
  rewrite !to_int_small by lia.
  destruct (Z.ltb_spec w 0); [|lia]. destruct (Z.ltb_spec (- w) 0); [lia|].
  reflexivity.
Qed.

Lemma star_width_negative_5 :
  Forall (fun c => flag_of c <> None) (chars "+")
  /\ - 2 ^ 31 < -5 < 0
  /\ output "%+*d" [VInt (-5); VInt 42] = Some (chars "+42  ")
  /\ output "%+-*d" [VInt 5; VInt 42] = Some (chars "+42  ").
Proof.
  assert (Hfl : Forall (fun c => flag_of c <> None) (chars "+"))
    by (repeat constructor; discriminate).
  assert (Hw : - 2 ^ 31 < -5 < 0) by lia.
  split; [exact Hfl|]. split; [exact Hw|].
  pose proof (star_width_negative (chars "+") "d" (-5) [VInt 42] Hfl Hw) as E.
  split; [vm_compute; reflexivity|].
  exact (eq_trans (eq_sym E) ltac:(vm_compute; reflexivity)).
Defined.

Lemma _atoi_from_nondigit (rest : string) (i : Z) :
  _is_digit (deref rest) = false -> _atoi_from rest i = (i, rest).
Proof.
  destruct rest as [|c rest]; [reflexivity|]. cbn [deref _atoi_from].
  intros ->. reflexivity.
Qed.

(** ** The unbounded buffer *)

(** X11.  [utl_sprintf] into a non-NULL buffer stores every character of
    the output, in order from the address of the buffer on, and the
    terminator after them; it changes no other byte of memory, puts
    nothing on the console and returns the number of characters. *)
Theorem sprintf_stores_all (buffer : Z) (format : string) (va : va_list)
    (w : world) (cs : list ascii) :
  buffer <> 0 ->
  output format va = Some cs ->
  Z.of_nat (length cs) <= INT_MAX ->
  exists w',
    utl_sprintf buffer format va w = Some (Z.of_nat (length cs), w')
    /\ events w' = events w
    /\ (forall i, 0 <= i < Z.of_nat (length cs) ->
                  memory w' !! (buffer + i) = cs !! Z.to_nat i)
    /\ memory w' !! (buffer + Z.of_nat (length cs)) = Some NUL
    /\ (forall x, x < buffer \/ buffer + Z.of_nat (length cs) < x ->
                  memory w' !! x = memory w !! x).
Proof.
  intros Hbuf Hout Hlen. unfold INT_MAX in Hlen.
  unfold utl_sprintf. rewrite _vsnprintf_output, Hout. cbv zeta.
  replace (is_null (CharPtr buffer)) with false
    by (symmetry; apply Z.eqb_neq; exact Hbuf).
  set (n := Z.of_nat (length cs)) in *.
  assert (Hn : 0 <= n) by (subst n; lia).
  rewrite (to_size_t_small n), (to_int_small n) by lia.
  unfold SIZE_MAX. destruct (Z.ltb_spec n (2 ^ 64 - 1)); [|lia].
  eexists. split; [reflexivity|].
  assert (Hlook : forall x,
             memory (dest (put_list _out_buffer (CharPtr buffer) (2 ^ 64 - 1) cs
                             (start w))) !! x
             = if (buffer <=? x) && (x <? buffer + n)
               then cs !! Z.to_nat (x - buffer)
               else memory w !! x).
  { intros x. rewrite put_list_buffer_lookup by (cbn [start idx]; lia).
    cbn [start idx dest]. rewrite !Z.add_0_r, Z.sub_0_r. fold n.
    destruct (Z.leb_spec buffer x), (Z.ltb_spec x (buffer + n)),
      (Z.ltb_spec (x - buffer) (2 ^ 64 - 1)); cbn [andb]; try reflexivity; lia. }
  split; [|split; [|split]].
  - rewrite _out_buffer_events, put_list_buffer_events. reflexivity.
  - intros i Hi. rewrite _out_buffer_lookup, Hlook.
    destruct (Z.eqb_spec (buffer + i) (buffer + n)),
      (Z.leb_spec buffer (buffer + i)), (Z.ltb_spec (buffer + i) (buffer + n));
      cbn [andb]; try lia.
    replace (buffer + i - buffer) with i by lia. reflexivity.
  - rewrite _out_buffer_lookup, Z.eqb_refl.
    destruct (Z.ltb_spec n (2 ^ 64 - 1)); [reflexivity|lia].
  - intros x Hx. rewrite _out_buffer_lookup, Hlook.
    destruct (Z.eqb_spec x (buffer + n)),
      (Z.leb_spec buffer x), (Z.ltb_spec x (buffer + n));
      cbn [andb]; try reflexivity; lia.
Qed.

Lemma sprintf_stores_all_hi :
  exists w',
    utl_sprintf 4096 "%s" [VString (Some "hi"%string)] w0 = Some (2, w')
    /\ memory w' !! 4096 = Some "h"%char
    /\ memory w' !! 4097 = Some "i"%char
    /\ memory w' !! 4098 = Some NUL
    /\ memory w' !! 4099 = None.
Proof.
  destruct (sprintf_stores_all 4096 "%s" [VString (Some "hi"%string)] w0 (chars "hi"))
    as (w' & Hret & _ & Hdata & Hnul & Hout).
  - lia.
  - vm_compute. reflexivity.
  - vm_compute. discriminate.
  - exists w'. split; [exact Hret|].
    split; [exact (Hdata 0 ltac:(vm_compute; split; [discriminate|reflexivity]))|].
    split; [exact (Hdata 1 ltac:(vm_compute; split; [discriminate|reflexivity]))|].
    split; [exact Hnul|].
    exact (Hout 4099 ltac:(right; vm_compute; reflexivity)).
Defined.

(** ** Arguments beyond those the format asks for *)

Section Surplus.

Variable extra : va_list.

Lemma va_arg_int_app va v va' :
  va_arg_int va = Some (v, va') -> va_arg_int (va ++ extra) = Some (v, va' ++ extra).
Proof. destruct va as [|[] va]; cbn; intros H; try discriminate H.
       injection H as <- <-. reflexivity. Qed.

Lemma va_arg_unsigned_int_app va v va' :
  va_arg_unsigned_int va = Some (v, va') ->
  va_arg_unsigned_int (va ++ extra) = Some (v, va' ++ extra).
Proof. destruct va as [|[] va]; cbn; intros H; try discriminate H.
       injection H as <- <-. reflexivity. Qed.

Lemma va_arg_long_app va v va' :
  va_arg_long va = Some (v, va') -> va_arg_long (va ++ extra) = Some (v, va' ++ extra).
Proof. destruct va as [|[] va]; cbn; intros H; try discriminate H.
       injection H as <- <-. reflexivity. Qed.

Lemma va_arg_unsigned_long_app va v va' :
  va_arg_unsigned_long va = Some (v, va') ->
  va_arg_unsigned_long (va ++ extra) = Some (v, va' ++ extra).
Proof. destruct va as [|[] va]; cbn; intros H; try discriminate H.
       injection H as <- <-. reflexivity. Qed.

Lemma va_arg_long_long_app va v va' :
  va_arg_long_long va = Some (v, va') ->
  va_arg_long_long (va ++ extra) = Some (v, va' ++ extra).
Proof. destruct va as [|[] va]; cbn; intros H; try discriminate H.
       injection H as <- <-. reflexivity. Qed.

Lemma va_arg_unsigned_long_long_app va v va' :
  va_arg_unsigned_long_long va = Some (v, va') ->
  va_arg_unsigned_long_long (va ++ extra) = Some (v, va' ++ extra).
Proof. destruct va as [|[] va]; cbn; intros H; try discriminate H.
       injection H as <- <-. reflexivity. Qed.

Lemma va_arg_double_app va v va' :
  va_arg_double va = Some (v, va') ->
  va_arg_double (va ++ extra) = Some (v, va' ++ extra).
Proof. destruct va as [|[] va]; cbn; intros H; try discriminate H.
       injection H as <- <-. reflexivity. Qed.

Lemma va_arg_char_ptr_app va v va' :
  va_arg_char_ptr va = Some (v, va') ->
  va_arg_char_ptr (va ++ extra) = Some (v, va' ++ extra).
Proof.
  destruct va as [|[| | | | |p] va]; cbn; intros H; try discriminate H.
  - injection H as <- <-. reflexivity.
  - destruct p; try discriminate H. injection H as <- <-. reflexivity.
Qed.

Lemma va_arg_void_ptr_app va v va' :
  va_arg_void_ptr va = Some (v, va') ->
  va_arg_void_ptr (va ++ extra) = Some (v, va' ++ extra).
Proof.
  destruct va as [|[| | | |s|] va]; cbn; intros H; try discriminate H.
  - destruct s; try discriminate H. injection H as <- <-. reflexivity.
  - injection H as <- <-. reflexivity.
Qed.

End Surplus.

Section SurplusArguments.

Variable extra : va_list.

Lemma eval_width_app (format : string) (flags : Z) (va : va_list)
    flags' width format' va' :
  eval_width format flags va = Some (flags', width, format', va') ->
  eval_width format flags (va ++ extra) = Some (flags', width, format', va' ++ extra).
Proof.
  unfold eval_width. destruct format as [|c rest].
  - intros H. injection H as <- <- <- <-. reflexivity.
  - destruct (_is_digit c).
    + destruct (_atoi (String c rest)) as [w f].
      intros H. injection H as <- <- <- <-. reflexivity.
    + destruct (char_eqb c "*").
      * destruct (va_arg_int va) as [[w va1]|] eqn:E; [|discriminate].
        rewrite (va_arg_int_app extra _ _ _ E).
        destruct (w <? 0); intros H; injection H as <- <- <- <-; reflexivity.
      * intros H. injection H as <- <- <- <-. reflexivity.
Qed.

Lemma eval_precision_app (format : string) (flags : Z) (va : va_list)
    flags' precision format' va' :
  eval_precision format flags va = Some (flags', precision, format', va') ->
  eval_precision format flags (va ++ extra)
  = Some (flags', precision, format', va' ++ extra).
Proof.
  unfold eval_precision. destruct format as [|c rest].
  - intros H. injection H as <- <- <- <-. reflexivity.
  - destruct (Ascii.eqb_spec c ".") as [->|Hne].
    + destruct rest as [|c' rest'].
      * intros H. injection H as <- <- <- <-. reflexivity.
      * destruct (_is_digit c').
        -- destruct (_atoi (String c' rest')) as [w f].
           intros H. injection H as <- <- <- <-. reflexivity.
        -- destruct (char_eqb c' "*").
           ++ destruct (va_arg_int va) as [[w va1]|] eqn:E; [|discriminate].
              rewrite (va_arg_int_app extra _ _ _ E).
              intros H. injection H as <- <- <- <-. reflexivity.
           ++ intros H. injection H as <- <- <- <-. reflexivity.
    + destruct c as [[] [] [] [] [] [] [] []];
        try (intros H; injection H as <- <- <- <-; reflexivity).
      exfalso. apply Hne. reflexivity.
Qed.

Lemma eval_header_app (format : string) (va : va_list)
    flags width precision format' va' :
  eval_header format va = Some (flags, width, precision, format', va') ->
  eval_header format (va ++ extra)
  = Some (flags, width, precision, format', va' ++ extra).
Proof.
  unfold eval_header.
  destruct (eval_flags format 0) as [fl f1].
  destruct (eval_width f1 fl va) as [[[[fl2 w] f2] va2]|] eqn:Hw; [|discriminate].
  rewrite (eval_width_app _ _ _ _ _ _ _ Hw).
  destruct (eval_precision f2 fl2 va2) as [[[[fl3 p] f3] va3]|] eqn:Hp;
    [|discriminate].
  rewrite (eval_precision_app _ _ _ _ _ _ _ Hp).
  destruct (eval_length f3 fl3) as [fl4 f4].
  intros H. injection H as <- <- <- <- <-. reflexivity.
Qed.

(** One [va_arg] on the longer list. *)
Ltac va_step :=
  match goal with
  | |- context [match ?f ?va with _ => _ end] =>
      lazymatch f with
      | va_arg_int => idtac | va_arg_unsigned_int => idtac
      | va_arg_long => idtac | va_arg_unsigned_long => idtac
      | va_arg_long_long => idtac | va_arg_unsigned_long_long => idtac
      | va_arg_double => idtac | va_arg_char_ptr => idtac
      | va_arg_void_ptr => idtac
      end;
      let E := fresh "E" in
      destruct (f va) as [[? ?]|] eqn:E;
      [ first [ rewrite (va_arg_int_app extra _ _ _ E)
              | rewrite (va_arg_unsigned_int_app extra _ _ _ E)
              | rewrite (va_arg_long_app extra _ _ _ E)
              | rewrite (va_arg_unsigned_long_app extra _ _ _ E)
              | rewrite (va_arg_long_long_app extra _ _ _ E)
              | rewrite (va_arg_unsigned_long_long_app extra _ _ _ E)
              | rewrite (va_arg_double_app extra _ _ _ E)
              | rewrite (va_arg_char_ptr_app extra _ _ _ E)
              | rewrite (va_arg_void_ptr_app extra _ _ _ E) ]
      | intros H; exfalso; exact (Some_ne_None _ (eq_sym H)) ]
  end.

Context {W : Type}.
Variable out : out_fct_type W.
Variable buffer : void_ptr.
Variable maxlen : Z.

Lemma convert_integer_app (c : ascii) (flags width precision : Z) (va : va_list)
    (st : state W) va' st' :
  convert_integer out buffer maxlen c flags width precision va st = Some (va', st') ->
  convert_integer out buffer maxlen c flags width precision (va ++ extra) st
  = Some (va' ++ extra, st').
Proof.
  unfold convert_integer.
  destruct (if char_eqb c "x" || char_eqb c "X" then (BASE_HEX, flags)
            else if char_eqb c "o" then (BASE_OCTAL, flags)
            else if char_eqb c "b" then (BASE_BINARY, flags)
            else (BASE_DECIMAL, clear_flag flags FLAGS_HASH)) as [base fl].
  cbv zeta.
  repeat match goal with
         | |- context [if ?b then _ else _] =>
             lazymatch b with
             | context [va] => fail
             | _ => destruct b
             end
         end.
  all: va_step.
  all: intros H; injection H as <- <-; reflexivity.
Qed.

Lemma eval_specifier_app (format : string) (flags width precision : Z)
    (va : va_list) (st : state W) format' va' st' :
  eval_specifier out buffer maxlen format flags width precision va st
  = Some (format', va', st') ->
  eval_specifier out buffer maxlen format flags width precision (va ++ extra) st
  = Some (format', va' ++ extra, st').
Proof.
  unfold eval_specifier. cbv zeta.
  destruct (is_integer_specifier (deref format)).
  { destruct (convert_integer out buffer maxlen (deref format) flags width precision
                va st) as [[va1 st1]|] eqn:E; [|discriminate].
    rewrite (convert_integer_app _ _ _ _ _ _ _ _ E).
    intros H. injection H as <- <- <-. reflexivity. }
  destruct (char_eqb (deref format) "f" || char_eqb (deref format) "F").
  { va_step.
    match goal with
    | |- context [match ?x with _ => _ end] => destruct x
    end; [|discriminate].
    intros H. injection H as <- <- <-. reflexivity. }
  destruct (char_eqb (deref format) "e" || char_eqb (deref format) "E"
            || char_eqb (deref format) "g" || char_eqb (deref format) "G").
  { va_step.
    match goal with
    | |- context [match ?x with _ => _ end] => destruct x
    end; [|discriminate].
    intros H. injection H as <- <- <-. reflexivity. }
  destruct (char_eqb (deref format) "c").
  { va_step. intros H. injection H as <- <- <-. reflexivity. }
  destruct (char_eqb (deref format) "s").
  { va_step. destruct o; intros H; injection H as <- <- <-; reflexivity. }
  destruct (char_eqb (deref format) "p").
  { va_step. destruct (z =? 0); intros H; injection H as <- <- <-; reflexivity. }
  destruct (char_eqb (deref format) "%").
  { intros H; injection H as <- <- <-; reflexivity. }
  destruct format as [|c rest]; [discriminate|].
  destruct (char_eqb (deref (String c rest)) NUL); [discriminate|].
  intros H; injection H as <- <- <-; reflexivity.
Qed.

Lemma eval_directive_app (format : string) (va : va_list) (st : state W)
    format' va' st' :
  eval_directive out buffer maxlen format va st = Some (format', va', st') ->
  eval_directive out buffer maxlen format (va ++ extra) st
  = Some (format', va' ++ extra, st').
Proof.
  unfold eval_directive.
  destruct (eval_header format va) as [[[[[flags width] precision] f1] va1]|] eqn:Hh;
    [|discriminate].
  rewrite (eval_header_app _ _ _ _ _ _ _ Hh). apply eval_specifier_app.
Qed.

Lemma vsnprintf_loop_app (fuel : nat) (format : string) (va : va_list)
    (st st' : state W) :
  vsnprintf_loop out buffer maxlen fuel format va st = Some st' ->
  vsnprintf_loop out buffer maxlen fuel format (va ++ extra) st = Some st'.
Proof.
  revert format va st; induction fuel as [|fuel IH]; intros format va st;
    [discriminate|].
  destruct format as [|c rest]; [exact (fun H => H)|].
  rewrite !vsnprintf_loop_S.
  destruct (char_eqb c NUL); [exact (fun H => H)|].
  destruct (negb (char_eqb c "%")); [apply IH|].
  destruct (eval_directive out buffer maxlen rest va st) as [[[f1 va1] st1]|] eqn:E;
    [|discriminate].
  rewrite (eval_directive_app _ _ _ _ _ _ E). apply IH.
Qed.

End SurplusArguments.

(** X12.  Arguments beyond those the format consumes are ignored: a format
    with a defined output for some arguments has the same output when more
    arguments follow them. *)
Theorem surplus_arguments_ignored (format : string) (va extra : va_list)
    (cs : list ascii) :
  output format va = Some cs ->
  output format (va ++ extra) = Some cs.
Proof.
  unfold output. intros H.
  destruct (vsnprintf_loop out_record LocalPtr SIZE_MAX (S (String.length format))
              format va {| dest := []; idx := 0 |}) as [st|] eqn:E; [|discriminate].
  rewrite (vsnprintf_loop_app extra _ _ _ _ _ _ _ _ E). exact H.
Qed.

Lemma surplus_arguments_ignored_two :
  output "%d" [VInt 1] = Some (chars "1")
  /\ output "%d" [VInt 1; VString None; VDouble 2] = Some (chars "1").
Proof.
  assert (H : output "%d" [VInt 1] = Some (chars "1")) by (vm_compute; reflexivity).
  split; [exact H|].
  exact (surplus_arguments_ignored "%d" [VInt 1] [VString None; VDouble 2] _ H).
Defined.

(** ** Digits in every base *)

Lemma digit_of_ntoa_digit (d flags : Z) :
  0 <= d < 16 -> digit_of (has flags FLAGS_UPPERCASE) (ntoa_digit d flags) = Some d.
Proof.
  intros Hd. unfold ntoa_digit.
  assert (Hcase : d = 0 \/ d = 1 \/ d = 2 \/ d = 3 \/ d = 4 \/ d = 5 \/ d = 6
                  \/ d = 7 \/ d = 8 \/ d = 9 \/ d = 10 \/ d = 11 \/ d = 12
                  \/ d = 13 \/ d = 14 \/ d = 15) by lia.
  destruct (has flags FLAGS_UPPERCASE);
    repeat destruct Hcase as [->|Hcase]; try subst d; reflexivity.
Qed.

Lemma ntoa_digit_nonzero (d flags : Z) :
  0 < d < 16 -> ntoa_digit d flags <> "0"%char.
Proof.
  intros Hd. unfold ntoa_digit.
  assert (Hcase : d = 1 \/ d = 2 \/ d = 3 \/ d = 4 \/ d = 5 \/ d = 6
                  \/ d = 7 \/ d = 8 \/ d = 9 \/ d = 10 \/ d = 11 \/ d = 12
                  \/ d = 13 \/ d = 14 \/ d = 15) by lia.
  destruct (has flags FLAGS_UPPERCASE);
    repeat destruct Hcase as [->|Hcase]; try subst d; discriminate.
Qed.

Lemma numeral_value_from_snoc (upper : bool) (base acc : Z) (s : list ascii)
    (c : ascii) (x d : Z) :
  numeral_value_from upper base acc s = Some x ->
  digit_of upper c = Some d -> d < base ->
  numeral_value_from upper base acc (s ++ [c]) = Some (base * x + d).
Proof.
  revert acc; induction s as [|a s IH]; intros acc Hs Hd Hb; cbn in *.
  - injection Hs as <-. rewrite Hd. destruct (Z.ltb_spec d base); [reflexivity|lia].
  - destruct (digit_of upper a) as [e|]; [|discriminate].
    destruct (e <? base); [|discriminate]. apply IH; assumption.
Qed.

(** The digit loop of [_ntoa]: it appends the digits of [value], least
    significant first, until the value is used up or the buffer is full.
    The digits written are those of [value] modulo the power of the base
    they can hold. *)
Lemma ntoa_digits_spec (fuel : nat) (value base flags : Z) (buf : list ascii) :
  2 <= base <= 16 -> 0 < value ->
  Z.of_nat (length buf) < PRINTF_NTOA_BUFFER_SIZE ->
  (Z.to_nat (PRINTF_NTOA_BUFFER_SIZE - Z.of_nat (length buf)) <= fuel)%nat ->
  exists ds,
    ntoa_digits fuel value base flags buf = buf ++ ds
    /\ (0 < length ds)%nat
    /\ Z.of_nat (length buf) + Z.of_nat (length ds) <= PRINTF_NTOA_BUFFER_SIZE
    /\ numeral_value_from (has flags FLAGS_UPPERCASE) base 0 (rev ds)
       = Some (value mod base ^ Z.of_nat (length ds))
    /\ (value < base ^ Z.of_nat (length ds)
        \/ Z.of_nat (length buf) + Z.of_nat (length ds) = PRINTF_NTOA_BUFFER_SIZE)
    /\ (value < base ^ Z.of_nat (length ds) -> hd "0"%char (rev ds) <> "0"%char)
    /\ (forall n : nat, value < base ^ Z.of_nat n -> (length ds <= n)%nat).
Proof.
  unfold PRINTF_NTOA_BUFFER_SIZE.
  revert value buf; induction fuel as [|fuel IH]; intros value buf Hb Hv Hlen Hf.
  { lia. }
  cbn [ntoa_digits].
  assert (Hd : 0 <= value mod base < base) by (apply Z.mod_pos_bound; lia).
  assert (Hdiv : value = base * (value / base) + value mod base)
    by (apply Z.div_mod; lia).
  assert (Hq0 : 0 <= value / base) by (apply Z.div_pos; lia).
  set (d := ntoa_digit (value mod base) flags).
  assert (Hdig : digit_of (has flags FLAGS_UPPERCASE) d = Some (value mod base))
    by (apply digit_of_ntoa_digit; lia).
  assert (Hone : numeral_value_from (has flags FLAGS_UPPERCASE) base 0 [d]
                 = Some (value mod base ^ 1)).
  { cbn [numeral_value_from]. rewrite Hdig.
    destruct (Z.ltb_spec (value mod base) base); [|lia].
    rewrite Z.pow_1_r. f_equal. lia. }
  assert (Hstop : (value / base = 0 \/ Z.of_nat (length buf) + 1 = 32) ->
            exists ds,
              buf ++ [d] = buf ++ ds
              /\ (0 < length ds)%nat
              /\ Z.of_nat (length buf) + Z.of_nat (length ds) <= 32
              /\ numeral_value_from (has flags FLAGS_UPPERCASE) base 0 (rev ds)
                 = Some (value mod base ^ Z.of_nat (length ds))
              /\ (value < base ^ Z.of_nat (length ds)
                  \/ Z.of_nat (length buf) + Z.of_nat (length ds) = 32)
              /\ (value < base ^ Z.of_nat (length ds) ->
                  hd "0"%char (rev ds) <> "0"%char)
              /\ (forall n : nat, value < base ^ Z.of_nat n -> (length ds <= n)%nat)).
  { intros Hs. exists [d]. cbn [length rev app hd].
    change (Z.of_nat 1) with 1. rewrite Z.pow_1_r.
    split; [reflexivity|]. split; [lia|]. split; [lia|].
    split; [rewrite <- (Z.pow_1_r base) at 2; exact Hone|].
    split; [destruct Hs as [Hs|Hs]; [left; lia|right; lia]|].
    split.
    - intros Hlt. apply ntoa_digit_nonzero.
      assert (value / base = 0) by (apply Z.div_small; lia). lia.
    - intros n Hn. destruct n; [cbn in Hn; lia|lia]. }
  destruct (Z.eqb_spec (value / base) 0) as [Hz|Hz]; cbn [negb andb].
  { apply Hstop. left. exact Hz. }
  unfold room, PRINTF_NTOA_BUFFER_SIZE. rewrite length_app. cbn [length].
  destruct (Z.ltb_spec (Z.of_nat (length buf + 1)) 32) as [Hroom|Hroom].
  2:{ apply Hstop. right. lia. }
  destruct (IH (value / base) (buf ++ [d]) Hb ltac:(lia))
    as (ds & E & Hpos & Hle & Hval & Hfull & Hhd & Hn).
  { rewrite length_app. cbn [length]. lia. }
  { rewrite length_app. cbn [length]. lia. }
  rewrite length_app in Hle, Hfull. cbn [length] in Hle, Hfull.
  exists (d :: ds). rewrite E, <- app_assoc. cbn [app rev length].
  assert (Hpow : base ^ Z.of_nat (S (length ds)) = base * base ^ Z.of_nat (length ds)).
  { rewrite Nat2Z.inj_succ, Z.pow_succ_r by lia. reflexivity. }
  assert (Hpp : 0 < base ^ Z.of_nat (length ds)) by (apply Z.pow_pos_nonneg; lia).
  split; [reflexivity|]. split; [lia|]. split; [lia|]. split; [|split; [|split]].
  - rewrite (numeral_value_from_snoc _ _ _ _ _ _ _ Hval Hdig) by lia.
    f_equal. rewrite Hpow, Z.rem_mul_r by lia. lia.
  - destruct Hfull as [Hlt|Hfull]; [left|right; lia].
    rewrite Hpow. nia.
  - intros Hlt. destruct (rev ds) as [|c r] eqn:Hr.
    + apply (f_equal (@length ascii)) in Hr. rewrite length_rev in Hr.
      cbn in Hr. lia.
    + cbn [app hd]. cbn [hd] in Hhd. apply Hhd. rewrite Hpow in Hlt. nia.
  - intros n Hlt. destruct n as [|n]; [cbn in Hlt; lia|].
    assert (value / base < base ^ Z.of_nat n).
    { apply Z.div_lt_upper_bound; [lia|].
      rewrite Nat2Z.inj_succ, Z.pow_succ_r in Hlt by lia. exact Hlt. }
    specialize (Hn n ltac:(assumption)). lia.
Qed.

(** ** Flag arithmetic *)

Lemma has_lor (f a b : Z) : has f (Z.lor a b) = has f a || has f b.
Proof.
  unfold has. rewrite Z.land_lor_distr_r.
  destruct (Z.eqb_spec (Z.land f a) 0) as [E1|E1],
    (Z.eqb_spec (Z.land f b) 0) as [E2|E2]; cbn [negb orb].
  - rewrite E1, E2. reflexivity.
  - apply negb_true_iff, Z.eqb_neq. intros E. apply Z.lor_eq_0_iff in E. tauto.
  - apply negb_true_iff, Z.eqb_neq. intros E. apply Z.lor_eq_0_iff in E. tauto.
  - apply negb_true_iff, Z.eqb_neq. intros E. apply Z.lor_eq_0_iff in E. tauto.
Qed.

Lemma clear_flag_absent (f a : Z) : has f a = false -> clear_flag f a = f.
Proof.
  unfold has, clear_flag. intros H. apply negb_false_iff, Z.eqb_eq in H.
  apply Z.bits_inj'. intros n Hn.
  rewrite Z.land_spec, Z.lnot_spec by exact Hn.
  apply (f_equal (fun z => Z.testbit z n)) in H.
  rewrite Z.land_spec, Z.bits_0 in H.
  destruct (Z.testbit f n), (Z.testbit a n); try reflexivity; discriminate H.
Qed.

(** ** The buffers of the conversions *)

Lemma pad_zeros_exact (fuel : nat) (buf : list ascii) (target size : Z) :
  (Z.to_nat (Z.min target size - Z.of_nat (length buf)) <= fuel)%nat ->
  pad_zeros fuel buf target size
  = buf ++ repeat "0"%char (Z.to_nat (Z.min target size - Z.of_nat (length buf))).
Proof.
  revert buf; induction fuel as [|fuel IH]; intros buf Hf; cbn [pad_zeros].
  - replace (Z.to_nat (Z.min target size - Z.of_nat (length buf))) with 0%nat by lia.
    cbn [repeat]. rewrite app_nil_r. reflexivity.
  - unfold room.
    destruct (Z.ltb_spec (Z.of_nat (length buf)) target),
      (Z.ltb_spec (Z.of_nat (length buf)) size); cbn [andb].
    + rewrite IH by (rewrite length_app; cbn [length]; lia).
      rewrite length_app. cbn [length]. rewrite <- app_assoc. cbn [app]. f_equal.
      replace (Z.to_nat (Z.min target size - Z.of_nat (length buf)))
        with (S (Z.to_nat (Z.min target size - Z.of_nat (length buf + 1)))) by lia.
      reflexivity.
    + replace (Z.to_nat (Z.min target size - Z.of_nat (length buf))) with 0%nat by lia.
      cbn [repeat]. rewrite app_nil_r. reflexivity.
    + replace (Z.to_nat (Z.min target size - Z.of_nat (length buf))) with 0%nat by lia.
      cbn [repeat]. rewrite app_nil_r. reflexivity.
    + replace (Z.to_nat (Z.min target size - Z.of_nat (length buf))) with 0%nat by lia.
      cbn [repeat]. rewrite app_nil_r. reflexivity.
Qed.

Lemma rev_repeat (c : ascii) (n : nat) : rev (repeat c n) = repeat c n.
Proof.
  induction n as [|n IH]; [reflexivity|].
  cbn [repeat rev]. rewrite IH. symmetry. apply repeat_cons.
Qed.

Lemma if_same {A : Type} (c : bool) (x : A) : (if c then x else x) = x.
Proof. destruct c; reflexivity. Qed.

(** [_ntoa_format] without ['#'], in closed form. *)
Lemma _ntoa_format_exact (buf : list ascii) (negative : bool)
    (base precision width flags : Z) :
  Z.of_nat (length buf) <= PRINTF_NTOA_BUFFER_SIZE ->
  0 <= width < 2 ^ 32 ->
  has flags FLAGS_HASH = false -> has flags FLAGS_POINTER = false ->
  emits (fun W out buffer maxlen st =>
           _ntoa_format out buffer maxlen st buf negative base precision width flags)
        (integer_field (rev buf) negative precision width flags).
Proof.
  unfold PRINTF_NTOA_BUFFER_SIZE. intros Hlen Hw HH HP W out buffer maxlen st.
  unfold _ntoa_format. cbv zeta.
  rewrite (clear_flag_absent flags FLAGS_HASH HH), if_same.
  rewrite !has_lor, HH, HP. cbn [orb].
  unfold integer_field, sign_chars, PRINTF_NTOA_BUFFER_SIZE. cbv zeta.
  rewrite length_rev.
  set (len := Z.of_nat (length buf)) in *.
  assert (Hlen0 : 0 <= len) by (subst len; lia).
  set (sgn := negative || (has flags FLAGS_PLUS || has flags FLAGS_SPACE)).
  set (w1 := if negb (has flags FLAGS_LEFT)
             then if negb (width =? 0) && has flags FLAGS_ZEROPAD && sgn
                  then to_uint (width - 1) else width
             else width).
  assert (Hw1 : 0 <= w1 < 2 ^ 32).
  { subst w1. destruct (negb (has flags FLAGS_LEFT)); [|lia].
    destruct (negb (width =? 0) && has flags FLAGS_ZEROPAD && sgn);
      [apply to_uint_range|lia]. }
  set (zw := if negb (has flags FLAGS_LEFT) && has flags FLAGS_ZEROPAD
             then match (if negative then ["-"%char]
                         else if has flags FLAGS_PLUS then ["+"%char]
                         else if has flags FLAGS_SPACE then [" "%char] else []) with
                  | [] => width
                  | _ => if width =? 0 then 0 else width - 1
                  end
             else 0).
  set (n := Z.max len (Z.min (Z.max zw precision) 32)).
  set (buf1 := if negb (has flags FLAGS_LEFT) && has flags FLAGS_ZEROPAD
               then pad_zeros (Z.to_nat 32) buf w1 32 else buf).
  assert (Hzw : negb (has flags FLAGS_LEFT) && has flags FLAGS_ZEROPAD = true -> w1 = zw).
  { intros Hz. subst w1 zw sgn. rewrite Hz.
    apply andb_true_iff in Hz. destruct Hz as [Hl Hz]. rewrite Hl, Hz.
    rewrite andb_true_r.
    destruct (Z.eqb_spec width 0) as [->|Hnz]; cbn [negb andb].
    - destruct negative; [reflexivity|]. destruct (has flags FLAGS_PLUS); [reflexivity|].
      destruct (has flags FLAGS_SPACE); reflexivity.
    - assert (E : to_uint (width - 1) = width - 1) by (apply Z.mod_small; lia).
      rewrite E.
      destruct negative; [reflexivity|]. destruct (has flags FLAGS_PLUS); [reflexivity|].
      destruct (has flags FLAGS_SPACE); reflexivity. }
  assert (Hbuf2 : pad_zeros (Z.to_nat 32) buf1 precision 32
                  = buf ++ repeat "0"%char (Z.to_nat (n - len))).
  { subst buf1 n.
    destruct (negb (has flags FLAGS_LEFT) && has flags FLAGS_ZEROPAD) eqn:Hz.
    - rewrite (Hzw eq_refl). rewrite (pad_zeros_exact _ buf) by (fold len; lia).
      fold len. rewrite pad_zeros_exact
        by (rewrite length_app, repeat_length; fold len; lia).
      rewrite length_app, repeat_length. fold len.
      rewrite <- app_assoc, <- repeat_app. do 2 f_equal. lia.
    - rewrite pad_zeros_exact by (fold len; lia). fold len.
      subst zw. do 2 f_equal. lia. }
  rewrite Hbuf2.
  assert (Hn : len <= n <= 32) by (subst n; lia).
  unfold room. rewrite length_app, repeat_length.
  replace (Z.of_nat (length buf + Z.to_nat (n - len))) with n by (fold len; lia).
  set (sign := if negative then ["-"%char]
               else if has flags FLAGS_PLUS then ["+"%char]
               else if has flags FLAGS_SPACE then [" "%char] else []).
  set (buf3 := if n <? 32
               then if negative then (buf ++ repeat "0"%char (Z.to_nat (n - len))) ++ ["-"%char]
                    else if has flags FLAGS_PLUS
                         then (buf ++ repeat "0"%char (Z.to_nat (n - len))) ++ ["+"%char]
                         else if has flags FLAGS_SPACE
                              then (buf ++ repeat "0"%char (Z.to_nat (n - len))) ++ [" "%char]
                              else buf ++ repeat "0"%char (Z.to_nat (n - len))
               else buf ++ repeat "0"%char (Z.to_nat (n - len))).
  assert (Hrev : rev buf3
                 = (if n <? 32 then sign else [])
                   ++ repeat "0"%char (Z.to_nat (n - len)) ++ rev buf).
  { subst buf3 sign.
    destruct (n <? 32); [destruct negative; [|destruct (has flags FLAGS_PLUS);
                                              [|destruct (has flags FLAGS_SPACE)]]|];
      rewrite ?rev_app_distr, ?rev_repeat; reflexivity. }
  assert (Hlen3 : Z.of_nat (length buf3) < 2 ^ 64).
  { rewrite <- length_rev, Hrev, !length_app, repeat_length, length_rev. fold len.
    subst sign.
    destruct (n <? 32); [destruct negative; [|destruct (has flags FLAGS_PLUS);
                                              [|destruct (has flags FLAGS_SPACE)]]|];
      cbn [length]; lia. }
  rewrite (_out_rev_exact buf3 w1 flags Hw1 Hlen3). cbv zeta.
  rewrite Hrev, <- (length_rev buf3), Hrev.
  destruct (has flags FLAGS_LEFT) eqn:HL.
  - subst w1. cbn [negb]. reflexivity.
  - destruct (has flags FLAGS_ZEROPAD) eqn:HZ; [reflexivity|].
    subst w1. cbn [negb]. rewrite andb_false_r. cbn [andb]. reflexivity.
Qed.

(** ** The layout of an integer conversion *)

Lemma canonical_numeral_hd (s : list ascii) :
  hd "0"%char s <> "0"%char -> canonical_numeral s = true.
Proof.
  destruct s as [|c s]; [reflexivity|]. cbn [hd]. intros Hc.
  destruct c as [[] [] [] [] [] [] [] []]; try reflexivity.
  exfalso. apply Hc. reflexivity.
Qed.

(** The digits [_ntoa] writes for a non-zero value that fits the buffer. *)
Lemma ntoa_digits_numeral (value base flags : Z) :
  2 <= base <= 16 -> 0 < value < base ^ 32 ->
  exists ds,
    ntoa_digits (Z.to_nat PRINTF_NTOA_BUFFER_SIZE) value base flags [] = ds
    /\ Z.of_nat (length ds) <= PRINTF_NTOA_BUFFER_SIZE
    /\ numeral_value (has flags FLAGS_UPPERCASE) base (rev ds) = Some value
    /\ canonical_numeral (rev ds) = true
    /\ (forall n : nat, value < base ^ Z.of_nat n -> (length ds <= n)%nat).
Proof.
  intros Hb Hv.
  destruct (ntoa_digits_spec (Z.to_nat PRINTF_NTOA_BUFFER_SIZE) value base flags []
              Hb ltac:(lia) ltac:(vm_compute; reflexivity) ltac:(vm_compute; lia))
    as (ds & E & Hpos & Hle & Hval & Hfull & Hhd & Hn).
  cbn [length app] in *. unfold PRINTF_NTOA_BUFFER_SIZE in *.
  assert (Hlt : value < base ^ Z.of_nat (length ds)).
  { destruct Hfull as [Hlt|Hfull]; [exact Hlt|].
    replace (Z.of_nat (length ds)) with 32 by lia. lia. }
  exists ds. split; [exact E|]. split; [lia|]. split; [|split].
  - unfold numeral_value. destruct (rev ds) as [|c r] eqn:Hr.
    + apply (f_equal (@length ascii)) in Hr. rewrite length_rev in Hr. cbn in Hr. lia.
    + rewrite Hval. f_equal. apply Z.mod_small. lia.
  - apply canonical_numeral_hd, Hhd, Hlt.
  - exact Hn.
Qed.

(** [_ntoa] without ['#'], for a value that fits the conversion buffer. *)
Lemma _ntoa_exact (value : Z) (negative : bool) (base precision width flags : Z) :
  2 <= base <= 16 -> 0 <= value < base ^ 32 ->
  0 <= width < 2 ^ 32 ->
  has flags FLAGS_HASH = false -> has flags FLAGS_POINTER = false ->
  exists digits,
    (if (value =? 0) && has flags FLAGS_PRECISION then digits = []
     else numeral_value (has flags FLAGS_UPPERCASE) base digits = Some value
          /\ canonical_numeral digits = true)
    /\ (forall n : nat, (0 < n)%nat -> value < base ^ Z.of_nat n ->
                        (length digits <= n)%nat)
    /\ forall (W : Type) (out : out_fct_type W) buffer maxlen (st : state W),
        _ntoa out buffer maxlen st value negative base precision width flags
        = put_list out buffer maxlen
            (integer_field digits negative precision width flags) st.
Proof.
  intros Hb Hv Hw HH HP. unfold _ntoa.
  rewrite (clear_flag_absent flags FLAGS_HASH HH).
  destruct (Z.eqb_spec value 0) as [->|Hnz]; cbn [andb].
  - destruct (has flags FLAGS_PRECISION) eqn:Hprec; cbn [negb].
    + exists []. split; [reflexivity|]. split; [intros n Hn _; cbn [length]; lia|].
      intros W out buffer maxlen st. rewrite if_same.
      exact (_ntoa_format_exact [] negative base precision width flags
               ltac:(vm_compute; discriminate) Hw HH HP W out buffer maxlen st).
    + exists ["0"%char]. split; [|split; [intros n Hn _; cbn [length]; lia|]].
      * split; [|reflexivity]. unfold numeral_value. cbn [numeral_value_from].
        change (digit_of (has flags FLAGS_UPPERCASE) "0") with (Some 0).
        cbv iota. destruct (Z.ltb_spec 0 base); [f_equal; lia|lia].
      * exact (_ntoa_format_exact ["0"%char] negative base precision width flags
                 ltac:(vm_compute; discriminate) Hw HH HP).
  - destruct (ntoa_digits_numeral value base flags Hb ltac:(lia))
      as (ds & -> & Hle & Hval & Hcan & Hn).
    exists (rev ds). split; [split; assumption|].
    split; [intros n _ Hlt; rewrite length_rev; apply Hn; lia|].
    exact (_ntoa_format_exact ds negative base precision width flags Hle Hw HH HP).
Qed.

(** X13.  [_ntoa] without the ['#'] and pointer flags, for a value that
    fits the conversion buffer: it prints the field [integer_field] of the
    digits of the value in the given base.  The digits read back to the
    value (in upper case under the upper-case flag) and have no leading
    zero; the value 0 under an explicit precision has no digit at all. *)
Theorem integer_conversion_layout (value : Z) (negative : bool)
    (base precision width flags : Z) :
  2 <= base <= 16 -> 0 <= value < base ^ 32 ->
  0 <= width < 2 ^ 32 ->
  has flags FLAGS_HASH = false -> has flags FLAGS_POINTER = false ->
  exists digits,
    (if (value =? 0) && has flags FLAGS_PRECISION then digits = []
     else numeral_value (has flags FLAGS_UPPERCASE) base digits = Some value
          /\ canonical_numeral digits = true)
    /\ forall (W : Type) (out : out_fct_type W) buffer maxlen (st : state W),
        _ntoa out buffer maxlen st value negative base precision width flags
        = put_list out buffer maxlen
            (integer_field digits negative precision width flags) st.
Proof.
  intros Hb Hv Hw HH HP.
  destruct (_ntoa_exact value negative base precision width flags Hb Hv Hw HH HP)
    as (digits & Hd & _ & E).
  exists digits. split; [exact Hd|exact E].
Qed.

Lemma integer_conversion_layout_minus_42 :
  exists digits,
    (numeral_value false 10 digits = Some 42 /\ canonical_numeral digits = true)
    /\ forall (W : Type) (out : out_fct_type W) buffer maxlen (st : state W),
        _ntoa out buffer maxlen st 42 true 10 0 6 FLAGS_ZEROPAD
        = put_list out buffer maxlen (integer_field digits true 0 6 FLAGS_ZEROPAD) st.
Proof.
  exact (integer_conversion_layout 42 true 10 0 6 FLAGS_ZEROPAD
           ltac:(lia) ltac:(lia) ltac:(lia) eq_refl eq_refl).
Defined.

(** ** Unsigned conversions *)

Lemma integer_field_plain (digits : list ascii) (flags : Z) :
  has flags FLAGS_LEFT = false -> has flags FLAGS_ZEROPAD = false ->
  has flags FLAGS_PLUS = false -> has flags FLAGS_SPACE = false ->
  integer_field digits false 0 0 flags = digits.
Proof.
  intros HL HZ HP HS. unfold integer_field, sign_chars.
  rewrite HL, HZ, HP, HS. cbn [negb andb]. cbv zeta.
  change (Z.max 0 0) with 0. change (Z.min 0 PRINTF_NTOA_BUFFER_SIZE) with 0.
  rewrite Z.max_l by lia. rewrite if_same, Z.sub_diag.
  change (Z.to_nat 0) with 0%nat. cbn [repeat app].
  replace (Z.to_nat (0 - Z.of_nat (length digits))) with 0%nat by lia.
  reflexivity.
Qed.

(** One unsigned conversion without flags, width and precision. *)
Lemma output_unsigned (directive : string) (arg : va_value) (value base flags : Z) :
  (forall (W : Type) (out : out_fct_type W) buffer maxlen (st : state W),
      eval_directive out buffer maxlen directive [arg] st
      = Some (""%string, [],
              _ntoa out buffer maxlen st value false base 0 0 flags)) ->
  2 <= base <= 16 -> 0 <= value < base ^ 32 ->
  has flags FLAGS_HASH = false -> has flags FLAGS_POINTER = false ->
  has flags FLAGS_LEFT = false -> has flags FLAGS_ZEROPAD = false ->
  has flags FLAGS_PLUS = false -> has flags FLAGS_SPACE = false ->
  has flags FLAGS_PRECISION = false ->
  exists s,
    output (String "%" directive) [arg] = Some s
    /\ numeral_value (has flags FLAGS_UPPERCASE) base s = Some value
    /\ canonical_numeral s = true.
Proof.
  intros Hd Hb Hv HH HP HL HZ HPl HS HPr.
  destruct (_ntoa_exact value false base 0 0 flags Hb Hv ltac:(lia) HH HP)
    as (digits & Hdig & _ & E).
  rewrite HPr, andb_false_r in Hdig. destruct Hdig as [Hval Hcan].
  exists digits. split; [|split; assumption].
  apply (output_one_directive directive [arg]
           (fun W out buffer maxlen st =>
              _ntoa out buffer maxlen st value false base 0 0 flags)).
  - exact Hd.
  - cbv beta. rewrite E, integer_field_plain by assumption. reflexivity.
Qed.

Lemma to_ull_range (x : Z) : 0 <= to_ull x < 2 ^ 64.
Proof. unfold to_ull. apply Z.mod_pos_bound. lia. Qed.

(** X14.  The unsigned conversions [%u %x %X %o %b], and [%llu %llx %llX
    %llo], without flags, width and precision print a numeral without
    leading zero that reads back, in the base of the letter, to the argument
    reduced to [unsigned int], respectively [unsigned long long]. *)
Theorem unsigned_numeral_correct (v : Z) :
  let prints (directive : string) (arg : va_value) (upper : bool) (base value : Z) :=
    exists s, output directive [arg] = Some s
              /\ numeral_value upper base s = Some value
              /\ canonical_numeral s = true in
  prints "%u"%string (VInt v) false 10 (v mod 2 ^ 32)
  /\ prints "%x"%string (VInt v) false 16 (v mod 2 ^ 32)
  /\ prints "%X"%string (VInt v) true 16 (v mod 2 ^ 32)
  /\ prints "%o"%string (VInt v) false 8 (v mod 2 ^ 32)
  /\ prints "%b"%string (VInt v) false 2 (v mod 2 ^ 32)
  /\ prints "%llu"%string (VLongLong v) false 10 (v mod 2 ^ 64)
  /\ prints "%llx"%string (VLongLong v) false 16 (v mod 2 ^ 64)
  /\ prints "%llX"%string (VLongLong v) true 16 (v mod 2 ^ 64)
  /\ prints "%llo"%string (VLongLong v) false 8 (v mod 2 ^ 64).
Proof.
  cbv zeta.
  pose proof (to_uint_range v) as H32. pose proof (to_ull_range v) as H64.
  unfold to_uint in H32. unfold to_ull in H64.
  repeat split.
  - apply (output_unsigned "u" (VInt v) (v mod 2 ^ 32) 10 0);
      first [reflexivity | lia | intros; reflexivity].
  - apply (output_unsigned "x" (VInt v) (v mod 2 ^ 32) 16 0);
      first [reflexivity | lia | intros; reflexivity].
  - apply (output_unsigned "X" (VInt v) (v mod 2 ^ 32) 16 FLAGS_UPPERCASE);
      first [reflexivity | lia | intros; reflexivity].
  - apply (output_unsigned "o" (VInt v) (v mod 2 ^ 32) 8 0);
      first [reflexivity | lia | intros; reflexivity].
  - apply (output_unsigned "b" (VInt v) (v mod 2 ^ 32) 2 0);
      first [reflexivity | lia | intros; reflexivity].
  - apply (output_unsigned "llu" (VLongLong v) (v mod 2 ^ 64) 10
             (Z.lor FLAGS_LONG FLAGS_LONG_LONG));
      first [reflexivity | lia | intros; reflexivity].
  - apply (output_unsigned "llx" (VLongLong v) (v mod 2 ^ 64) 16
             (Z.lor FLAGS_LONG FLAGS_LONG_LONG));
      first [reflexivity | lia | intros; reflexivity].
  - apply (output_unsigned "llX" (VLongLong v) (v mod 2 ^ 64) 16
             (Z.lor (Z.lor FLAGS_LONG FLAGS_LONG_LONG) FLAGS_UPPERCASE));
      first [reflexivity | lia | intros; reflexivity].
  - apply (output_unsigned "llo" (VLongLong v) (v mod 2 ^ 64) 8
             (Z.lor FLAGS_LONG FLAGS_LONG_LONG));
      first [reflexivity | lia | intros; reflexivity].
Qed.

(** ** A value with more digits than the buffer holds *)

Lemma _ntoa_truncated {W : Type} (out : out_fct_type W) buffer maxlen (st : state W)
    (value base flags : Z) :
  2 <= base <= 16 -> base ^ 32 <= value ->
  has flags FLAGS_HASH = false -> has flags FLAGS_POINTER = false ->
  has flags FLAGS_LEFT = false -> has flags FLAGS_ZEROPAD = false ->
  has flags FLAGS_PLUS = false -> has flags FLAGS_SPACE = false ->
  exists s,
    _ntoa out buffer maxlen st value false base 0 0 flags
    = put_list out buffer maxlen s st
    /\ length s = 32%nat
    /\ numeral_value (has flags FLAGS_UPPERCASE) base s = Some (value mod base ^ 32).
Proof.
  intros Hb Hv HH HP HL HZ HPl HS.
  assert (Hpos : 0 < base ^ 32) by (apply Z.pow_pos_nonneg; lia).
  destruct (ntoa_digits_spec (Z.to_nat PRINTF_NTOA_BUFFER_SIZE) value base flags []
              Hb ltac:(lia) ltac:(vm_compute; reflexivity) ltac:(vm_compute; lia))
    as (ds & E & Hp & Hle & Hval & Hfull & _ & _).
  cbn [length app] in *. unfold PRINTF_NTOA_BUFFER_SIZE in *.
  assert (Hlen : Z.of_nat (length ds) = 32).
  { destruct Hfull as [Hlt|Hfull]; [|lia]. exfalso.
    assert (base ^ Z.of_nat (length ds) <= base ^ 32)
      by (apply Z.pow_le_mono_r; lia).
    lia. }
  exists (rev ds). split; [|split].
  - unfold _ntoa. destruct (Z.eqb_spec value 0) as [Hz|_]; [lia|].
    unfold PRINTF_NTOA_BUFFER_SIZE. rewrite E.
    rewrite (_ntoa_format_exact ds false base 0 0 flags ltac:(unfold PRINTF_NTOA_BUFFER_SIZE; lia)
               ltac:(lia) HH HP).
    rewrite integer_field_plain by assumption. reflexivity.
  - rewrite length_rev. lia.
  - unfold numeral_value. destruct (rev ds) as [|c r] eqn:Hr.
    + apply (f_equal (@length ascii)) in Hr. rewrite length_rev in Hr. cbn in Hr. lia.
    + rewrite Hval, Hlen. reflexivity.
Qed.

(** X15.  [%llb] of a value of more than 32 binary digits prints only the
    32 least significant ones: the conversion buffer of [_ntoa] holds 32
    characters and the digit loop stops when it is full. *)
Theorem binary_conversion_truncated (v : Z) :
  2 ^ 32 <= v mod 2 ^ 64 ->
  exists s,
    output "%llb" [VLongLong v] = Some s
    /\ length s = 32%nat
    /\ numeral_value false 2 s = Some (v mod 2 ^ 32).
Proof.
  intros Hv.
  destruct (_ntoa_truncated out_record LocalPtr SIZE_MAX (start []) (v mod 2 ^ 64) 2
              (Z.lor FLAGS_LONG FLAGS_LONG_LONG) ltac:(lia) Hv
              eq_refl eq_refl eq_refl eq_refl eq_refl eq_refl) as (s & E & Hlen & Hval).
  exists s. split; [|split; [exact Hlen|]].
  - apply (output_one_directive "llb" [VLongLong v]
             (fun W out buffer maxlen st =>
                _ntoa out buffer maxlen st (v mod 2 ^ 64) false 2 0 0
                  (Z.lor FLAGS_LONG FLAGS_LONG_LONG))).
    + intros. reflexivity.
    + exact E.
  - change (has (Z.lor FLAGS_LONG FLAGS_LONG_LONG) FLAGS_UPPERCASE) with false in Hval.
    rewrite Hval. f_equal.
    apply Z.mod_mod_divide. exists (2 ^ 32). reflexivity.
Qed.

Lemma binary_conversion_truncated_2_32 :
  2 ^ 32 <= 4294967297 mod 2 ^ 64
  /\ exists s,
      output "%llb" [VLongLong 4294967297] = Some s
      /\ length s = 32%nat
      /\ numeral_value false 2 s = Some 1.
Proof.
  assert (H : 2 ^ 32 <= 4294967297 mod 2 ^ 64) by (vm_compute; discriminate).
  split; [exact H|]. exact (binary_conversion_truncated 4294967297 H).
Defined.

(** ** [_atoi] reads back what [%u] prints *)

Lemma numeral_decimal (upper : bool) (acc : Z) (s : list ascii) (v : Z) :
  numeral_value_from upper 10 acc s = Some v -> decimal_value_from acc s = Some v.
Proof.
  revert acc; induction s as [|c s IH]; intros acc; cbn [numeral_value_from decimal_value_from].
  - exact (fun H => H).
  - unfold digit_of, digit_value.
    destruct ((48 <=? char_code c) && (char_code c <=? 57)).
    + destruct (char_code c - 48 <? 10); [apply IH|discriminate].
    + destruct upper.
      * destruct (Z.leb_spec 65 (char_code c)), (Z.leb_spec (char_code c) 70);
          cbn [andb]; try discriminate.
        destruct (Z.ltb_spec (char_code c - 55) 10); [lia|discriminate].
      * destruct (Z.leb_spec 97 (char_code c)), (Z.leb_spec (char_code c) 102);
          cbn [andb]; try discriminate.
        destruct (Z.ltb_spec (char_code c - 87) 10); [lia|discriminate].
Qed.

Lemma append_empty_r (s : string) : (s ++ "")%string = s.
Proof.
  induction s as [|c s IH]; [reflexivity|].
  change (String c (s ++ "") = String c s)%string. f_equal. exact IH.
Qed.

(** X16.  [_atoi] reads back what [%u] prints: applied to the output for
    an argument, it returns the argument reduced to [unsigned int] and
    leaves nothing of the text unread. *)
Theorem atoi_reads_back_unsigned (v : Z) :
  exists s,
    output "%u" [VInt v] = Some s
    /\ _atoi (string_of_list_ascii s) = (v mod 2 ^ 32, ""%string).
Proof.
  pose proof (to_uint_range v) as H32. unfold to_uint in H32.
  destruct (output_unsigned "u" (VInt v) (v mod 2 ^ 32) 10 0) as (s & Hout & Hval & _);
    first [reflexivity | lia | intros; reflexivity | idtac].
  exists s. split; [exact Hout|].
  unfold numeral_value in Hval. destruct s as [|c s]; [discriminate|].
  apply numeral_decimal in Hval.
  pose proof (_atoi_from_digits (c :: s) "" 0 0 (v mod 2 ^ 32) Hval eq_refl eq_refl) as E.
  rewrite append_empty_r in E. unfold to_uint in E.
  rewrite Z.mod_mod in E by lia. exact E.
Qed.

(** ** The conversion buffer bounds the output *)

Lemma removelast_length_le {A : Type} (l : list A) :
  (length (removelast l) <= length l)%nat.
Proof.
  induction l as [|a l IH]; [cbn; lia|].
  destruct l as [|b l]; [cbn; lia|].
  change (removelast (a :: b :: l)) with (a :: removelast (b :: l)).
  cbn [length] in *. lia.
Qed.

Lemma ntoa_digits_length (fuel : nat) (value base flags : Z) (buf : list ascii) :
  Z.of_nat (length buf) < PRINTF_NTOA_BUFFER_SIZE ->
  Z.of_nat (length (ntoa_digits fuel value base flags buf)) <= PRINTF_NTOA_BUFFER_SIZE.
Proof.
  unfold PRINTF_NTOA_BUFFER_SIZE.
  revert value buf; induction fuel as [|fuel IH]; intros value buf Hlen;
    cbn [ntoa_digits]; [lia|].
  unfold room, PRINTF_NTOA_BUFFER_SIZE.
  destruct (negb (value / base =? 0)); cbn [andb].
  - destruct (Z.ltb_spec (Z.of_nat (length (buf ++ [ntoa_digit (value mod base) flags])))
                32).
    + apply IH. assumption.
    + rewrite length_app. cbn [length]. lia.
  - rewrite length_app. cbn [length]. lia.
Qed.

(** What [_ntoa_format] hands to [_out_rev]: at most 32 characters, and a
    width that is not above the one it was given. *)
Lemma _ntoa_format_buffer (buf : list ascii) (negative : bool)
    (base precision width flags : Z) :
  Z.of_nat (length buf) <= PRINTF_NTOA_BUFFER_SIZE -> 0 <= width < 2 ^ 32 ->
  exists buf' width' flags',
    (forall (W : Type) (out : out_fct_type W) buffer maxlen (st : state W),
        _ntoa_format out buffer maxlen st buf negative base precision width flags
        = _out_rev out buffer maxlen st buf' width' flags')
    /\ Z.of_nat (length buf') <= PRINTF_NTOA_BUFFER_SIZE
    /\ 0 <= width' <= width.
Proof.
  unfold PRINTF_NTOA_BUFFER_SIZE. intros Hlen Hw.
  unfold _ntoa_format. cbv zeta.
  eexists. eexists. eexists. split; [intros; reflexivity|].
  split.
  - set (w1 := if negb (has flags FLAGS_LEFT) then _ else width).
    set (b1 := if negb (has flags FLAGS_LEFT) && has flags FLAGS_ZEROPAD
               then pad_zeros _ buf w1 _ else buf).
    assert (H1 : Z.of_nat (length b1) <= 32).
    { subst b1. destruct (negb (has flags FLAGS_LEFT) && has flags FLAGS_ZEROPAD);
        [|exact Hlen].
      rewrite pad_zeros_exact by (unfold PRINTF_NTOA_BUFFER_SIZE; lia).
      rewrite length_app, repeat_length. unfold PRINTF_NTOA_BUFFER_SIZE. lia. }
    set (b2 := pad_zeros _ b1 precision _).
    assert (H2 : Z.of_nat (length b2) <= 32).
    { subst b2. rewrite pad_zeros_exact by (unfold PRINTF_NTOA_BUFFER_SIZE; lia).
      rewrite length_app, repeat_length. unfold PRINTF_NTOA_BUFFER_SIZE. lia. }
    clearbody b2. clear H1. clearbody b1. clearbody w1.
    set (f1 := if (base =? BASE_OCTAL) && _ then _ else flags). clearbody f1.
    pose proof (removelast_length_le b2) as Hr1.
    pose proof (removelast_length_le (removelast b2)) as Hr2.
    unfold room, PRINTF_NTOA_BUFFER_SIZE.
    repeat (cbv iota; rewrite ?andb_false_r, ?andb_true_r; cbn [andb];
            match goal with
            | |- context [Z.of_nat (length ?b) <? 32] =>
                lazymatch b with
                | context [if _ then _ else _] => fail
                | _ => destruct (Z.ltb_spec (Z.of_nat (length b)) 32)
                end
            | |- context [if ?c then _ else _] =>
                lazymatch c with
                | context [if _ then _ else _] => fail
                | context [_ <? 32] => fail
                | _ => destruct c
                end
            end).
    all: rewrite ?length_app in *; cbn [length] in *; lia.
  - destruct (negb (has flags FLAGS_LEFT)); [|lia].
    destruct (Z.eqb_spec width 0) as [E|E]; cbn [negb andb]; [lia|].
    destruct (has flags FLAGS_ZEROPAD
              && (negative || has flags (Z.lor FLAGS_PLUS FLAGS_SPACE))); [|lia].
    unfold to_uint. rewrite Z.mod_small by lia. lia.
Qed.

(** X17.  Whatever the value, base, precision and flags, [_ntoa] hands to
    the output function no more characters than the conversion buffer
    holds (32), or than the width when that is larger. *)
Theorem integer_output_bounded (value : Z) (negative : bool)
    (base precision width flags : Z) :
  0 <= width < 2 ^ 32 ->
  exists cs,
    (forall (W : Type) (out : out_fct_type W) buffer maxlen (st : state W),
        _ntoa out buffer maxlen st value negative base precision width flags
        = put_list out buffer maxlen cs st)
    /\ Z.of_nat (length cs) <= Z.max PRINTF_NTOA_BUFFER_SIZE width.
Proof.
  intros Hw.
  assert (Hfmt : forall buf fl,
             Z.of_nat (length buf) <= PRINTF_NTOA_BUFFER_SIZE ->
             exists cs,
               (forall (W : Type) (out : out_fct_type W) buffer maxlen (st : state W),
                   _ntoa_format out buffer maxlen st buf negative base precision
                     width fl
                   = put_list out buffer maxlen cs st)
               /\ Z.of_nat (length cs) <= Z.max PRINTF_NTOA_BUFFER_SIZE width).
  { intros buf fl Hlen.
    destruct (_ntoa_format_buffer buf negative base precision width fl Hlen Hw)
      as (buf' & width' & flags' & E & Hb & Hw').
    unfold PRINTF_NTOA_BUFFER_SIZE in *.
    eexists. split.
    - intros W out buffer maxlen st. rewrite E.
      apply (_out_rev_exact buf' width' flags'); lia.
    - cbv zeta.
      destruct (has flags' FLAGS_LEFT); [|destruct (has flags' FLAGS_ZEROPAD)];
        rewrite ?length_app, ?repeat_length, length_rev; lia. }
  unfold _ntoa.
  destruct (value =? 0).
  - destruct (negb (has flags FLAGS_PRECISION)); [|destruct (base =? BASE_HEX)];
      apply Hfmt; vm_compute; discriminate.
  - apply Hfmt. apply ntoa_digits_length. vm_compute. reflexivity.
Qed.

Lemma integer_output_bounded_example :
  0 <= 0 < 2 ^ 32
  /\ exists cs,
      (forall (W : Type) (out : out_fct_type W) buffer maxlen (st : state W),
          _ntoa out buffer maxlen st 1 true 10 40 0 FLAGS_PRECISION
          = put_list out buffer maxlen cs st)
      /\ Z.of_nat (length cs) <= Z.max PRINTF_NTOA_BUFFER_SIZE 0.
Proof.
  assert (H : 0 <= 0 < 2 ^ 32) by lia.
  split; [exact H|].
  exact (integer_output_bounded 1 true 10 40 0 FLAGS_PRECISION H).
Defined.

(** ** The length modifiers [hh] and [h] *)

Lemma ntoa_digits_flags (fuel : nat) (value base f1 f2 : Z) (buf : list ascii) :
  has f1 FLAGS_UPPERCASE = has f2 FLAGS_UPPERCASE ->
  ntoa_digits fuel value base f1 buf = ntoa_digits fuel value base f2 buf.
Proof.
  intros H. revert value buf; induction fuel as [|fuel IH]; intros value buf;
    [reflexivity|].
  cbn [ntoa_digits]. unfold ntoa_digit. rewrite H, IH. reflexivity.
Qed.

Lemma has_clear_flag_other (f a b : Z) :
  Z.land a b = 0 -> has (clear_flag f a) b = has f b.
Proof.
  intros H. unfold has, clear_flag. do 2 f_equal.
  apply Z.bits_inj'. intros n Hn.
  rewrite !Z.land_spec, Z.lnot_spec by exact Hn.
  apply (f_equal (fun z => Z.testbit z n)) in H.
  rewrite Z.land_spec, Z.bits_0 in H.
  destruct (Z.testbit f n), (Z.testbit a n), (Z.testbit b n);
    try reflexivity; discriminate H.
Qed.

Lemma has_clear_flag_same (f a : Z) : has (clear_flag f a) a = false.
Proof.
  unfold has, clear_flag. apply negb_false_iff, Z.eqb_eq.
  apply Z.bits_inj'. intros n Hn.
  rewrite !Z.land_spec, Z.lnot_spec, Z.bits_0 by exact Hn.
  destruct (Z.testbit f n), (Z.testbit a n); reflexivity.
Qed.

Lemma same_format_flags_clear_hash (f1 f2 : Z) :
  same_format_flags f1 f2 ->
  same_format_flags (clear_flag f1 FLAGS_HASH) (clear_flag f2 FLAGS_HASH).
Proof.
  intros (HZ & HL & HP & HS & HH & HU & HPr & HPo).
  unfold same_format_flags.
  rewrite !has_clear_flag_same.
  rewrite !(has_clear_flag_other _ FLAGS_HASH) by reflexivity.
  tauto.
Qed.

Lemma _out_rev_flags {W : Type} (out : out_fct_type W) buffer maxlen (st : state W)
    (buf : list ascii) (width f1 f2 : Z) :
  same_format_flags f1 f2 ->
  _out_rev out buffer maxlen st buf width f1
  = _out_rev out buffer maxlen st buf width f2.
Proof.
  intros (HZ & HL & _). unfold _out_rev. rewrite HZ, HL. reflexivity.
Qed.

(** Names the value bound by the same [let] on both sides of an equation. *)
Ltac let_intro :=
  match goal with
  | |- (let x := ?a in @?b1 x) = (let y := ?a in @?b2 y) =>
      let x' := fresh x in
      generalize a; intro x'; change (b1 x' = b2 x'); cbv beta
  end.

Lemma _ntoa_format_flags {W : Type} (out : out_fct_type W) buffer maxlen
    (st : state W) (buf : list ascii) (negative : bool)
    (base precision width f1 f2 : Z) :
  same_format_flags f1 f2 ->
  _ntoa_format out buffer maxlen st buf negative base precision width f1
  = _ntoa_format out buffer maxlen st buf negative base precision width f2.
Proof.
  intros H. pose proof (same_format_flags_clear_hash f1 f2 H) as Hc.
  pose proof H as (HZ & HL & HP & HS & _).
  cbv beta delta [_ntoa_format]. rewrite !has_lor, HZ, HL, HP, HS.
  repeat let_intro.
  match goal with
  | |- (let flags := (if ?c then _ else _) in _) = _ =>
      assert (Hf : same_format_flags (if c then clear_flag f1 FLAGS_HASH else f1)
                     (if c then clear_flag f2 FLAGS_HASH else f2))
        by (destruct c; assumption);
      generalize dependent (if c then clear_flag f1 FLAGS_HASH else f1);
      generalize dependent (if c then clear_flag f2 FLAGS_HASH else f2)
  end.
  clear. intros g2 g1 (HZ & HL & HP & HS & HH & HU & HPr & HPo).
  cbv zeta. rewrite !has_lor, HP, HS, HH, HU, HPr, HPo.
  apply _out_rev_flags. repeat split; assumption.
Qed.

(** The length-modifier bits of the flags do not change what [_ntoa]
    prints. *)
Lemma _ntoa_flags {W : Type} (out : out_fct_type W) buffer maxlen
    (st : state W) (value : Z) (negative : bool) (base precision width f1 f2 : Z) :
  same_format_flags f1 f2 ->
  _ntoa out buffer maxlen st value negative base precision width f1
  = _ntoa out buffer maxlen st value negative base precision width f2.
Proof.
  intros H. pose proof (same_format_flags_clear_hash f1 f2 H) as Hc.
  unfold _ntoa.
  rewrite (ntoa_digits_flags _ value base f1 f2) by (destruct H; tauto).
  replace (has f1 FLAGS_PRECISION) with (has f2 FLAGS_PRECISION)
    by (destruct H; symmetry; tauto).
  destruct (value =? 0); [destruct (negb (has f2 FLAGS_PRECISION));
                          [|destruct (base =? BASE_HEX)]|];
    apply _ntoa_format_flags; assumption.
Qed.

Lemma mod_to_int (v m : Z) : (m | 2 ^ 32) -> forall k, (to_int v + k) mod m = (v + k) mod m.
Proof.
  intros Hm k. unfold to_int.
  pose proof (Z.div_mod (v + 2 ^ 31) (2 ^ 32) ltac:(lia)) as H.
  set (q := (v + 2 ^ 31) / 2 ^ 32) in *. set (a := (v + 2 ^ 31) mod 2 ^ 32) in *.
  destruct Hm as [c Hc]. rewrite Hc in H.
  replace (a - 2 ^ 31 + k) with (v + k + (- q * c) * m) by lia.
  apply Z_mod_plus_full.
Qed.

Lemma to_schar_to_int (v : Z) : to_schar (to_int v) = to_schar v.
Proof.
  unfold to_schar. rewrite mod_to_int by (exists (2 ^ 24); reflexivity). reflexivity.
Qed.

Lemma to_short_to_int (v : Z) : to_short (to_int v) = to_short v.
Proof.
  unfold to_short. rewrite mod_to_int by (exists (2 ^ 16); reflexivity). reflexivity.
Qed.

Lemma to_uchar_to_uint (v : Z) : to_uchar (to_uint v) = to_uchar v.
Proof.
  unfold to_uchar, to_uint. apply Z.mod_mod_divide. exists (2 ^ 24). reflexivity.
Qed.

Lemma to_ushort_to_uint (v : Z) : to_ushort (to_uint v) = to_ushort v.
Proof.
  unfold to_ushort, to_uint. apply Z.mod_mod_divide. exists (2 ^ 16). reflexivity.
Qed.

Lemma to_int_to_schar (v : Z) : to_int (to_schar v) = to_schar v.
Proof.
  apply to_int_small. unfold to_schar.
  pose proof (Z.mod_pos_bound (v + 2 ^ 7) (2 ^ 8) ltac:(lia)). lia.
Qed.

Lemma to_int_to_short (v : Z) : to_int (to_short v) = to_short v.
Proof.
  apply to_int_small. unfold to_short.
  pose proof (Z.mod_pos_bound (v + 2 ^ 15) (2 ^ 16) ltac:(lia)). lia.
Qed.

Lemma to_uint_small (v : Z) : 0 <= v < 2 ^ 32 -> to_uint v = v.
Proof. apply Z.mod_small. Qed.

Lemma to_uint_to_uchar (v : Z) : to_uint (to_uchar v) = to_uchar v.
Proof.
  apply to_uint_small. unfold to_uchar.
  pose proof (Z.mod_pos_bound v (2 ^ 8) ltac:(lia)). lia.
Qed.

Lemma to_uint_to_ushort (v : Z) : to_uint (to_ushort v) = to_ushort v.
Proof.
  apply to_uint_small. unfold to_ushort.
  pose proof (Z.mod_pos_bound v (2 ^ 16) ltac:(lia)). lia.
Qed.

Lemma same_format_flags_closed (f1 f2 : Z) :
  (has f1 FLAGS_ZEROPAD, has f1 FLAGS_LEFT, has f1 FLAGS_PLUS, has f1 FLAGS_SPACE,
   has f1 FLAGS_HASH, has f1 FLAGS_UPPERCASE, has f1 FLAGS_PRECISION,
   has f1 FLAGS_POINTER)
  = (has f2 FLAGS_ZEROPAD, has f2 FLAGS_LEFT, has f2 FLAGS_PLUS, has f2 FLAGS_SPACE,
     has f2 FLAGS_HASH, has f2 FLAGS_UPPERCASE, has f2 FLAGS_PRECISION,
     has f2 FLAGS_POINTER) ->
  same_format_flags f1 f2.
Proof.
  intros H. injection H as H1 H2 H3 H4 H5 H6 H7 H8.
  repeat split; assumption.
Qed.

(** ** Pointers *)

Lemma numeral_value_from_zeros (upper : bool) (base : Z) (k : nat) (s : list ascii) :
  0 < base ->
  numeral_value_from upper base 0 (repeat "0"%char k ++ s)
  = numeral_value_from upper base 0 s.
Proof.
  intros Hb. induction k as [|k IH]; [reflexivity|].
  cbn [repeat app numeral_value_from].
  change (digit_of upper "0") with (Some 0). cbv iota.
  destruct (Z.ltb_spec 0 base); [|lia].
  replace (base * 0 + 0) with 0 by lia. exact IH.
Qed.

(** [_ntoa_format] as [%p] calls it: two of the zeros that bring the
    digits to the width of 18 are taken back for the prefix ["0x"]. *)
Lemma _ntoa_format_pointer {W : Type} (out : out_fct_type W) buffer maxlen
    (st : state W) (ds : list ascii) :
  (0 < length ds <= 16)%nat ->
  _ntoa_format out buffer maxlen st ds false BASE_HEX 0 (8 * 2 + 2)
    (set_flag 0 (Z.lor FLAGS_ZEROPAD FLAGS_POINTER))
  = put_list out buffer maxlen
      (chars "0x" ++ repeat "0"%char (16 - length ds) ++ rev ds) st.
Proof.
  intros Hn.
  set (flags := set_flag 0 (Z.lor FLAGS_ZEROPAD FLAGS_POINTER)).
  set (z := repeat "0"%char (16 - length ds)).
  assert (Hz : length z = (16 - length ds)%nat) by (subst z; apply repeat_length).
  assert (Hpad : pad_zeros (Z.to_nat PRINTF_NTOA_BUFFER_SIZE) ds (8 * 2 + 2)
                   PRINTF_NTOA_BUFFER_SIZE
                 = ((ds ++ z) ++ ["0"%char]) ++ ["0"%char]).
  { rewrite pad_zeros_exact by (unfold PRINTF_NTOA_BUFFER_SIZE; lia).
    unfold PRINTF_NTOA_BUFFER_SIZE.
    replace (Z.to_nat (Z.min (8 * 2 + 2) 32 - Z.of_nat (length ds)))
      with ((16 - length ds) + 2)%nat by lia.
    rewrite repeat_app. subst z. cbn [repeat]. rewrite <- !app_assoc. reflexivity. }
  assert (Hlen2 : Z.of_nat (length (((ds ++ z) ++ ["0"%char]) ++ ["0"%char])) = 18).
  { rewrite !length_app, Hz. cbn [length]. lia. }
  assert (Hlen1 : Z.of_nat (length ((ds ++ z) ++ ["0"%char])) = 17).
  { rewrite !length_app, Hz. cbn [length]. lia. }
  assert (Hlen0 : Z.of_nat (length (ds ++ z)) = 16).
  { rewrite !length_app, Hz. lia. }
  cbv beta delta [_ntoa_format].
  change (has flags FLAGS_LEFT) with false.
  change (has flags FLAGS_ZEROPAD) with true.
  change (has flags (Z.lor FLAGS_PLUS FLAGS_SPACE)) with false.
  cbn [negb andb orb]. rewrite andb_false_r.
  rewrite Hpad.
  rewrite (pad_zeros_exact _ _ 0) by (rewrite Hlen2; unfold PRINTF_NTOA_BUFFER_SIZE; lia).
  rewrite Hlen2. change (Z.to_nat (Z.min 0 PRINTF_NTOA_BUFFER_SIZE - 18)) with 0%nat.
  cbn [repeat]. rewrite app_nil_r.
  change (BASE_HEX =? BASE_OCTAL) with false. cbn [andb]. cbv zeta.
  change (has flags (Z.lor FLAGS_HASH FLAGS_POINTER)) with true.
  change (has flags FLAGS_PRECISION) with false.
  change (has flags FLAGS_UPPERCASE) with false.
  change (has flags FLAGS_PLUS) with false.
  change (has flags FLAGS_SPACE) with false.
  cbv iota. rewrite Hlen2. change (18 =? 0) with false. change (18 =? 0) with false.
  change (18 =? 8 * 2 + 2) with true. cbn [negb andb orb]. cbv iota.
  destruct (Z.ltb_spec (Z.of_nat (length ds)) 18); [|lia].
  rewrite removelast_last, Hlen1.
  change (17 =? 0) with false. change (BASE_HEX =? BASE_HEX) with true.
  cbn [negb andb]. cbv iota.
  destruct (Z.ltb_spec (Z.of_nat (length ds)) 17); [|lia].
  rewrite removelast_last.
  unfold room.
  repeat (match goal with
          | |- context [Z.of_nat (length ?b) <? PRINTF_NTOA_BUFFER_SIZE] =>
              lazymatch b with
              | context [if _ then _ else _] => fail
              | _ =>
                  replace (Z.of_nat (length b) <? PRINTF_NTOA_BUFFER_SIZE) with true
                    by (symmetry; apply Z.ltb_lt; rewrite ?length_app, ?Hz;
                        cbn [length]; unfold PRINTF_NTOA_BUFFER_SIZE; lia)
              end
          end; cbv iota).
  rewrite (_out_rev_exact _ (8 * 2 + 2) flags ltac:(lia))
    by (rewrite !length_app, Hz; cbn [length]; lia).
  cbv zeta. change (has flags FLAGS_LEFT) with false.
  change (has flags FLAGS_ZEROPAD) with true. cbv iota.
  rewrite !rev_app_distr. subst z. rewrite rev_repeat. reflexivity.
Qed.

(** X19.  [%p] with a non-NULL argument prints ["0x"] and then exactly 16
    lower-case hexadecimal digits, which read back to the address. *)
Theorem pointer_conversion (p : Z) :
  p mod 2 ^ 64 <> 0 ->
  exists s,
    output "%p" [VPointer p] = Some (chars "0x" ++ s)
    /\ length s = 16%nat
    /\ numeral_value false 16 s = Some (p mod 2 ^ 64).
Proof.
  intros Hp.
  pose proof (to_ull_range p) as Hr. unfold to_ull in Hr.
  destruct (ntoa_digits_numeral (p mod 2 ^ 64) 16
              (set_flag 0 (Z.lor FLAGS_ZEROPAD FLAGS_POINTER)) ltac:(lia) ltac:(lia))
    as (ds & E & Hle & Hval & Hcan & Hn).
  assert (Hlen : (0 < length ds <= 16)%nat).
  { split.
    - destruct ds; [discriminate Hval|cbn; lia].
    - apply Hn. change (Z.of_nat 16) with 16. lia. }
  exists (repeat "0"%char (16 - length ds) ++ rev ds). split; [|split].
  - apply (output_one_directive "p" [VPointer p]
             (fun W out buffer maxlen st =>
                _ntoa_format out buffer maxlen st ds false BASE_HEX 0 (8 * 2 + 2)
                  (set_flag 0 (Z.lor FLAGS_ZEROPAD FLAGS_POINTER)))).
    + intros W out buffer maxlen st. unfold eval_directive.
      change (eval_header "p" [VPointer p]) with (Some (0, 0, 0, "p"%string, [VPointer p])).
      cbv iota. unfold eval_specifier. cbn [deref].
      change (is_integer_specifier "p") with false. char_const. cbn [orb]. cbv iota.
      cbv zeta. cbn [va_arg_void_ptr]. unfold to_ull.
      destruct (Z.eqb_spec (p mod 2 ^ 64) 0) as [E0|_]; [contradiction|].
      unfold _ntoa. destruct (Z.eqb_spec (p mod 2 ^ 64) 0) as [E0|_]; [contradiction|].
      change BASE_HEX with 16. rewrite E. reflexivity.
    + cbv beta. apply _ntoa_format_pointer. exact Hlen.
  - rewrite length_app, repeat_length, length_rev. lia.
  - change (has (set_flag 0 (Z.lor FLAGS_ZEROPAD FLAGS_POINTER)) FLAGS_UPPERCASE)
      with false in Hval.
    unfold numeral_value in *.
    destruct (rev ds) as [|c r] eqn:Hr'; [discriminate Hval|].
    destruct (repeat "0"%char (16 - length ds) ++ c :: r) as [|c' r'] eqn:Hs.
    + destruct (16 - length ds)%nat; discriminate Hs.
    + rewrite <- Hs, numeral_value_from_zeros by lia. exact Hval.
Qed.

Lemma pointer_conversion_example :
  3735928559 mod 2 ^ 64 <> 0
  /\ exists s,
      output "%p" [VPointer 3735928559] = Some (chars "0x" ++ s)
      /\ length s = 16%nat
      /\ numeral_value false 16 s = Some (3735928559 mod 2 ^ 64).
Proof.
  assert (H : 3735928559 mod 2 ^ 64 <> 0) by (vm_compute; discriminate).
  split; [exact H|]. exact (pointer_conversion 3735928559 H).
Defined.

(** ** The table of powers of ten *)

(** X20.  Every entry of the table [powers_of_10] is exactly the power
    of ten of its index: the double is the conversion of the integer
    [10 ^ i], and converting it back gives [10 ^ i]. *)
Theorem powers_of_10_exact (i : Z) :
  0 <= i < NUM_DECIMAL_DIGITS_IN_INT64_T ->
  powers_of_10_at i = Some (double_of_Z (10 ^ i))
  /\ trunc_double (double_of_Z (10 ^ i)) = Some (10 ^ i).
Proof.
  unfold NUM_DECIMAL_DIGITS_IN_INT64_T. intros Hi.
  assert (Hcase : i = 0 \/ i = 1 \/ i = 2 \/ i = 3 \/ i = 4 \/ i = 5 \/ i = 6
                  \/ i = 7 \/ i = 8 \/ i = 9 \/ i = 10 \/ i = 11 \/ i = 12
                  \/ i = 13 \/ i = 14 \/ i = 15 \/ i = 16 \/ i = 17) by lia.
  repeat destruct Hcase as [->|Hcase]; try subst i;
    split; vm_compute; reflexivity.
Qed.

Lemma powers_of_10_exact_17 :
  0 <= 17 < NUM_DECIMAL_DIGITS_IN_INT64_T
  /\ powers_of_10_at 17 = Some (double_of_Z (10 ^ 17))
  /\ trunc_double (double_of_Z (10 ^ 17)) = Some (10 ^ 17).
Proof.
  assert (H : 0 <= 17 < NUM_DECIMAL_DIGITS_IN_INT64_T) by (vm_compute; split; [discriminate|reflexivity]).
  split; [exact H|]. exact (powers_of_10_exact 17 H).
Defined.

(** ** Flag characters *)

Lemma eval_flags_stop (s : string) (flags : Z) :
  flag_of (deref s) = None -> eval_flags s flags = (flags, s).
Proof.
  destruct s as [|c s]; [reflexivity|]. cbn [deref eval_flags]. unfold flag_of.
  repeat (destruct (char_eqb c _); [discriminate|]). reflexivity.
Qed.

Lemma flags_of_testbit (fl : list ascii) (flags n : Z) :
  0 <= n ->
  Z.testbit (flags_of fl flags) n
  = Z.testbit flags n
    || existsb (fun c => match flag_of c with
                         | Some b => Z.testbit b n
                         | None => false
                         end) fl.
Proof.
  intros Hn. revert flags; induction fl as [|c fl IH]; intros flags.
  - cbn. rewrite orb_false_r. reflexivity.
  - change (flags_of (c :: fl) flags)
      with (flags_of fl (match flag_of c with
                         | Some b => set_flag flags b
                         | None => flags
                         end)).
    rewrite IH. cbn [existsb].
    destruct (flag_of c) as [b|].
    + unfold set_flag. rewrite Z.lor_spec, orb_assoc. reflexivity.
    + cbn [orb]. reflexivity.
Qed.

Lemma flags_of_same (fl1 fl2 : list ascii) (flags : Z) :
  (forall c, In c fl1 <-> In c fl2) -> flags_of fl1 flags = flags_of fl2 flags.
Proof.
  intros H. apply Z.bits_inj'. intros n Hn.
  rewrite !flags_of_testbit by exact Hn. f_equal.
  apply eq_true_iff_eq. rewrite !existsb_exists.
  split; intros (c & Hc & Hb); exists c; (split; [apply H, Hc|exact Hb]).
Qed.

(** X21.  The flag characters of a directive are a set: two directives
    that differ only in the order and the repetition of their flag
    characters have the same output. *)
Theorem flag_order_irrelevant (fl1 fl2 : list ascii) (rest : string) (va : va_list) :
  Forall (fun c => flag_of c <> None) fl1 ->
  Forall (fun c => flag_of c <> None) fl2 ->
  (forall c, In c fl1 <-> In c fl2) ->
  flag_of (deref rest) = None ->
  output ("%" ++ string_of_list_ascii fl1 ++ rest) va
  = output ("%" ++ string_of_list_ascii fl2 ++ rest) va.
Proof.
  intros H1 H2 Hsame Hrest.
  change (output (String "%" (string_of_list_ascii fl1 ++ rest)) va
          = output (String "%" (string_of_list_ascii fl2 ++ rest)) va).
  apply output_same_directive. intros W out buffer maxlen st.
  unfold eval_directive, eval_header.
  rewrite !eval_flags_app by assumption.
  rewrite !eval_flags_stop by exact Hrest.
  rewrite (flags_of_same fl1 fl2 0 Hsame). reflexivity.
Qed.

Lemma flag_order_irrelevant_example :
  Forall (fun c => flag_of c <> None) (chars "-+")
  /\ Forall (fun c => flag_of c <> None) (chars "+--")
  /\ (forall c, In c (chars "-+") <-> In c (chars "+--"))
  /\ flag_of (deref "5d") = None
  /\ output "%-+5d" [VInt 7] = output "%+--5d" [VInt 7].
Proof.
  assert (H1 : Forall (fun c => flag_of c <> None) (chars "-+"))
    by (repeat constructor; discriminate).
  assert (H2 : Forall (fun c => flag_of c <> None) (chars "+--"))
    by (repeat constructor; discriminate).
  assert (H3 : forall c, In c (chars "-+") <-> In c (chars "+--"))
    by (intros c; cbn; tauto).
  split; [exact H1|]. split; [exact H2|]. split; [exact H3|]. split; [reflexivity|].
  exact (flag_order_irrelevant (chars "-+") (chars "+--") "5d" [VInt 7] H1 H2 H3 eq_refl).
Defined.

(** ** The decimal rendering of a broken-up number *)

Lemma digit_value_decimal_char (d : Z) :
  0 <= d < 10 -> digit_value (to_char (char_code "0" + d)) = Some d.
Proof.
  intros Hd.
  assert (Hcase : d = 0 \/ d = 1 \/ d = 2 \/ d = 3 \/ d = 4 \/ d = 5 \/ d = 6
                  \/ d = 7 \/ d = 8 \/ d = 9) by lia.
  repeat destruct Hcase as [->|Hcase]; try subst d; reflexivity.
Qed.

Lemma decimal_char_nonzero (d : Z) :
  0 < d < 10 -> to_char (char_code "0" + d) <> "0"%char.
Proof.
  intros Hd.
  assert (Hcase : d = 1 \/ d = 2 \/ d = 3 \/ d = 4 \/ d = 5 \/ d = 6
                  \/ d = 7 \/ d = 8 \/ d = 9) by lia.
  repeat destruct Hcase as [->|Hcase]; try subst d; discriminate.
Qed.

Lemma decimal_value_from_zeros (k : nat) (s : list ascii) :
  decimal_value_from 0 (repeat "0"%char k ++ s) = decimal_value_from 0 s.
Proof. induction k as [|k IH]; [reflexivity|]. exact IH. Qed.

(** The digit loop of the integral part: the decimal digits of a
    non-negative [integral], least significant first. *)
Lemma integral_digits_spec (fuel n : nat) (integral : Z) (buf : list ascii) :
  0 <= integral < 10 ^ Z.of_nat n -> (0 < n <= fuel)%nat ->
  Z.of_nat (length buf) + Z.of_nat n <= PRINTF_FTOA_BUFFER_SIZE ->
  exists ds,
    integral_digits fuel integral buf = buf ++ ds
    /\ (0 < length ds <= n)%nat
    /\ decimal_value_from 0 (rev ds) = Some integral
    /\ (0 < integral -> hd "0"%char (rev ds) <> "0"%char)
    /\ (integral = 0 -> ds = ["0"%char]).
Proof.
  unfold PRINTF_FTOA_BUFFER_SIZE.
  revert n integral buf; induction fuel as [|fuel IH]; intros n v buf Hv Hn Hlen;
    [lia|].
  cbn [integral_digits]. unfold room, PRINTF_FTOA_BUFFER_SIZE.
  destruct (Z.ltb_spec (Z.of_nat (length buf)) 32); [|lia].
  rewrite Z.rem_mod_nonneg, Z.quot_div_nonneg by lia.
  assert (Hd : 0 <= v mod 10 < 10) by (apply Z.mod_pos_bound; lia).
  assert (Hdiv : v = 10 * (v / 10) + v mod 10) by (apply Z.div_mod; lia).
  assert (Hq0 : 0 <= v / 10) by (apply Z.div_pos; lia).
  set (d := to_char (char_code "0" + v mod 10)).
  assert (Hdig : digit_value d = Some (v mod 10))
    by (apply digit_value_decimal_char; lia).
  destruct (Z.eqb_spec (v / 10) 0) as [Hz|Hz].
  - exists [d]. cbn [length rev app hd decimal_value_from]. rewrite Hdig.
    split; [reflexivity|]. split; [lia|]. split; [f_equal; lia|]. split.
    + intros Hpos. apply decimal_char_nonzero. lia.
    + intros H0. subst d. replace (v mod 10) with 0 by lia. reflexivity.
  - destruct n as [|[|n]]; [lia| |].
    + exfalso. change (Z.of_nat 1) with 1 in Hv. rewrite Z.pow_1_r in Hv.
      assert (v / 10 = 0) by (apply Z.div_small; lia). contradiction.
    + destruct (IH (S n) (v / 10) (buf ++ [d])) as (ds & E & Hl & Hval & Hhd & _).
      * split; [lia|]. apply Z.div_lt_upper_bound; [lia|].
        rewrite (Nat2Z.inj_succ (S n)), Z.pow_succ_r in Hv by lia. lia.
      * lia.
      * rewrite length_app. cbn [length]. lia.
      * exists (d :: ds). rewrite E, <- app_assoc. cbn [app rev length].
        split; [reflexivity|]. split; [lia|]. split; [|split].
        -- rewrite (decimal_value_from_snoc 0 (rev ds) d (v / 10) (v mod 10) Hval Hdig).
           f_equal. lia.
        -- intros _. destruct (rev ds) as [|c r] eqn:Hr.
           ++ apply (f_equal (@length ascii)) in Hr. rewrite length_rev in Hr.
              cbn in Hr. lia.
           ++ cbn [app hd]. cbn [hd] in Hhd. apply Hhd. lia.
        -- intros H0. lia.
Qed.

(** The digit loop of the fractional part: the same digits, and the count
    of digits still to write. *)
Lemma fractional_digits_spec (fuel n : nat) (fractional count : Z) (buf : list ascii) :
  0 <= fractional < 10 ^ Z.of_nat n -> (0 < n <= fuel)%nat ->
  Z.of_nat (length buf) + Z.of_nat n <= PRINTF_FTOA_BUFFER_SIZE ->
  Z.of_nat n <= count < 2 ^ 32 ->
  exists ds,
    fractional_digits fuel fractional count buf
    = (buf ++ ds, count - Z.of_nat (length ds))
    /\ (0 < length ds <= n)%nat
    /\ decimal_value_from 0 (rev ds) = Some fractional.
Proof.
  unfold PRINTF_FTOA_BUFFER_SIZE.
  revert n fractional count buf; induction fuel as [|fuel IH];
    intros n v count buf Hv Hn Hlen Hc; [lia|].
  cbn [fractional_digits]. unfold room, PRINTF_FTOA_BUFFER_SIZE.
  destruct (Z.ltb_spec (Z.of_nat (length buf)) 32); [|lia].
  rewrite Z.rem_mod_nonneg, Z.quot_div_nonneg by lia.
  assert (Hd : 0 <= v mod 10 < 10) by (apply Z.mod_pos_bound; lia).
  assert (Hdiv : v = 10 * (v / 10) + v mod 10) by (apply Z.div_mod; lia).
  assert (Hq0 : 0 <= v / 10) by (apply Z.div_pos; lia).
  assert (Hcnt : to_uint (count - 1) = count - 1) by (apply Z.mod_small; lia).
  rewrite Hcnt.
  set (d := to_char (char_code "0" + v mod 10)).
  assert (Hdig : digit_value d = Some (v mod 10))
    by (apply digit_value_decimal_char; lia).
  destruct (Z.eqb_spec (v / 10) 0) as [Hz|Hz].
  - exists [d]. cbn [length rev app decimal_value_from]. rewrite Hdig.
    split; [reflexivity|]. split; [lia|]. f_equal. lia.
  - destruct n as [|[|n]]; [lia| |].
    + exfalso. change (Z.of_nat 1) with 1 in Hv. rewrite Z.pow_1_r in Hv.
      assert (v / 10 = 0) by (apply Z.div_small; lia). contradiction.
    + destruct (IH (S n) (v / 10) (count - 1) (buf ++ [d])) as (ds & E & Hl & Hval).
      * split; [lia|]. apply Z.div_lt_upper_bound; [lia|].
        rewrite (Nat2Z.inj_succ (S n)), Z.pow_succ_r in Hv by lia. lia.
      * lia.
      * rewrite length_app. cbn [length]. lia.
      * lia.
      * exists (d :: ds). rewrite E, <- app_assoc. cbn [app rev length].
        split; [f_equal; lia|]. split; [lia|].
        rewrite (decimal_value_from_snoc 0 (rev ds) d (v / 10) (v mod 10) Hval Hdig).
        f_equal. lia.
Qed.

Lemma extra_zeros_exact (fuel : nat) (count : Z) (buf : list ascii) :
  0 <= count < 2 ^ 32 -> (Z.to_nat count <= fuel)%nat ->
  Z.of_nat (length buf) + count <= PRINTF_FTOA_BUFFER_SIZE ->
  extra_zeros fuel count buf = buf ++ repeat "0"%char (Z.to_nat count).
Proof.
  unfold PRINTF_FTOA_BUFFER_SIZE.
  revert count buf; induction fuel as [|fuel IH]; intros count buf Hc Hf Hlen;
    cbn [extra_zeros].
  - replace (Z.to_nat count) with 0%nat by lia. cbn [repeat]. rewrite app_nil_r.
    reflexivity.
  - unfold room, PRINTF_FTOA_BUFFER_SIZE.
    destruct (Z.ltb_spec 0 count) as [Hpos|Hz].
    + destruct (Z.ltb_spec (Z.of_nat (length buf)) 32); [|lia]. cbn [andb].
      assert (Hcnt : to_uint (count - 1) = count - 1) by (apply Z.mod_small; lia).
      rewrite Hcnt, IH by (rewrite ?length_app; cbn [length]; lia).
      rewrite <- app_assoc. cbn [app]. f_equal.
      replace (Z.to_nat count) with (S (Z.to_nat (count - 1))) by lia. reflexivity.
    + rewrite andb_false_r. replace (Z.to_nat count) with 0%nat by lia.
      cbn [repeat]. rewrite app_nil_r. reflexivity.
Qed.

(** [sprint_broken_up_decimal] without flags and width, in closed form. *)
Lemma sprint_broken_up_decimal_plain (i f : Z) (negative : bool) (precision flags : Z) :
  0 <= i < 10 ^ 10 -> 0 <= precision <= 17 -> 0 <= f < 10 ^ precision ->
  has flags FLAGS_ADAPT_EXP = false -> has flags FLAGS_HASH = false ->
  has flags FLAGS_LEFT = false -> has flags FLAGS_ZEROPAD = false ->
  has flags FLAGS_PLUS = false -> has flags FLAGS_SPACE = false ->
  exists ip fp,
    decimal_value_from 0 ip = Some i /\ canonical_numeral ip = true
    /\ ip <> []
    /\ decimal_value_from 0 fp = Some f /\ Z.of_nat (length fp) = precision
    /\ forall (W : Type) (out : out_fct_type W) buffer maxlen (st : state W),
        sprint_broken_up_decimal out buffer maxlen
          {| integral := i; fractional := f; is_negative := negative |}
          st precision 0 flags []
        = put_list out buffer maxlen
            ((if negative then ["-"%char] else [])
             ++ ip ++ (if precision =? 0 then [] else "."%char :: fp)) st.
Proof.
  intros Hi Hp Hf HA HH HL HZ HPl HS.
  (* the fractional part and the decimal point, in buffer order *)
  assert (Hfrac : exists fp fbuf,
             decimal_value_from 0 fp = Some f /\ Z.of_nat (length fp) = precision
             /\ fbuf = rev (if precision =? 0 then [] else "."%char :: fp)
             /\ Z.of_nat (length fbuf) <= 18
             /\ (if negb (precision =? 0) then
                   let '(buf, count) := fractional_digits FTOA_FUEL f precision [] in
                   let buf := extra_zeros FTOA_FUEL count buf in
                   if room buf PRINTF_FTOA_BUFFER_SIZE then buf ++ ["."%char] else buf
                 else []) = fbuf).
  { destruct (Z.eqb_spec precision 0) as [E|E]; cbn [negb].
    - exists [], []. subst precision. change (10 ^ 0) with 1 in Hf.
      repeat split; try reflexivity. all: cbn [decimal_value_from length]; try (f_equal; lia); lia.
    - destruct (fractional_digits_spec FTOA_FUEL (Z.to_nat precision) f precision [])
        as (ds & E1 & Hl & Hval).
      + rewrite Z2Nat.id by lia. exact Hf.
      + unfold FTOA_FUEL, PRINTF_FTOA_BUFFER_SIZE. lia.
      + unfold PRINTF_FTOA_BUFFER_SIZE. cbn [length]. lia.
      + lia.
      + rewrite E1. cbn [app].
        rewrite extra_zeros_exact
          by (unfold FTOA_FUEL, PRINTF_FTOA_BUFFER_SIZE; lia).
        unfold room, PRINTF_FTOA_BUFFER_SIZE. rewrite length_app, repeat_length.
        destruct (Z.ltb_spec
                    (Z.of_nat (length ds + Z.to_nat (precision - Z.of_nat (length ds))))
                    32); [|lia].
        exists (repeat "0"%char (Z.to_nat (precision - Z.of_nat (length ds))) ++ rev ds).
        eexists. split; [|split; [|split; [reflexivity|split]]].
        * rewrite decimal_value_from_zeros. exact Hval.
        * rewrite length_app, repeat_length, length_rev. lia.
        * rewrite length_rev. cbn [length]. rewrite length_app, repeat_length, length_rev.
          lia.
        * cbn [rev]. rewrite rev_app_distr, rev_repeat, rev_involutive.
          cbn [rev app]. reflexivity. }
  destruct Hfrac as (fp & fbuf & Hfv & Hfl & Hfb & Hfbl & Efrac).
  destruct (integral_digits_spec FTOA_FUEL 10 i fbuf) as (ds & E2 & Hl2 & Hiv & Hhd & Hz0).
  { exact Hi. }
  { unfold FTOA_FUEL, PRINTF_FTOA_BUFFER_SIZE. lia. }
  { unfold PRINTF_FTOA_BUFFER_SIZE. lia. }
  exists (rev ds), fp.
  split; [exact Hiv|]. split; [|split; [|split; [exact Hfv|split; [exact Hfl|]]]].
  - destruct (Z.eq_dec i 0) as [E0|E0].
    + rewrite (Hz0 E0). reflexivity.
    + apply canonical_numeral_hd, Hhd. lia.
  - intros Hnil. apply (f_equal (@length ascii)) in Hnil. rewrite length_rev in Hnil.
    cbn in Hnil. lia.
  - intros W out buffer maxlen st.
    unfold sprint_broken_up_decimal. cbv zeta. cbn [integral fractional is_negative].
    rewrite HA, HH, HL, HZ, HPl, HS. cbn [andb negb orb]. cbv iota.
    replace ((0 <? f) || true || false) with true
      by (rewrite orb_true_r; reflexivity).
    match goal with
    | |- context [integral_digits FTOA_FUEL i ?b] =>
        replace b with fbuf by (symmetry; exact Efrac)
    end.
    rewrite E2.
    unfold room, PRINTF_FTOA_BUFFER_SIZE. rewrite length_app.
    destruct (Z.ltb_spec (Z.of_nat (length fbuf + length ds)) 32); [|lia].
    rewrite (_out_rev_exact _ 0 flags ltac:(lia))
      by (destruct negative; rewrite ?length_app; cbn [length]; lia).
    cbv zeta. rewrite HL, HZ.
    match goal with
    | |- context [repeat " "%char ?n] => replace n with 0%nat by lia
    end.
    cbn [repeat app].
    destruct negative; rewrite ?rev_app_distr, Hfb, rev_involutive; reflexivity.
Qed.

(** X22.  [sprint_broken_up_decimal] without flags and width: for an
    integral part below [10 ^ 10] and a fractional part below
    [10 ^ precision] it prints the sign of a negative number, the integral
    part as a decimal numeral without leading zero and, unless the precision
    is 0, the point and the fractional part in exactly [precision] digits. *)
Theorem decimal_rendering (i f : Z) (negative : bool) (precision flags : Z) :
  0 <= i < 10 ^ 10 -> 0 <= precision <= 17 -> 0 <= f < 10 ^ precision ->
  has flags FLAGS_ADAPT_EXP = false -> has flags FLAGS_HASH = false ->
  has flags FLAGS_LEFT = false -> has flags FLAGS_ZEROPAD = false ->
  has flags FLAGS_PLUS = false -> has flags FLAGS_SPACE = false ->
  exists ip fp,
    decimal_value_from 0 ip = Some i /\ canonical_numeral ip = true
    /\ ip <> []
    /\ decimal_value_from 0 fp = Some f /\ Z.of_nat (length fp) = precision
    /\ forall (W : Type) (out : out_fct_type W) buffer maxlen (st : state W),
        sprint_broken_up_decimal out buffer maxlen
          {| integral := i; fractional := f; is_negative := negative |}
          st precision 0 flags []
        = put_list out buffer maxlen
            ((if negative then ["-"%char] else [])
             ++ ip ++ (if precision =? 0 then [] else "."%char :: fp)) st.
Proof.
  intros Hi Hp Hf H1 H2 H3 H4 H5 H6.
  exact (sprint_broken_up_decimal_plain i f negative precision flags
           Hi Hp Hf H1 H2 H3 H4 H5 H6).
Qed.

Lemma decimal_rendering_example :
  exists ip fp,
    decimal_value_from 0 ip = Some 3 /\ canonical_numeral ip = true
    /\ ip <> []
    /\ decimal_value_from 0 fp = Some 5 /\ Z.of_nat (length fp) = 2
    /\ forall (W : Type) (out : out_fct_type W) buffer maxlen (st : state W),
        sprint_broken_up_decimal out buffer maxlen
          {| integral := 3; fractional := 5; is_negative := true |}
          st 2 0 0 []
        = put_list out buffer maxlen
            (["-"%char] ++ ip ++ "."%char :: fp) st.
Proof.
  exact (decimal_rendering 3 5 true 2 0 ltac:(lia) ltac:(lia) ltac:(lia)
           eq_refl eq_refl eq_refl eq_refl eq_refl eq_refl).
Defined.

(** ** The trailing zeros [%g] drops *)

Lemma strip_trailing_zeros_spec (fuel : nat) (f count : Z) :
  0 < f < 10 ^ Z.of_nat fuel -> 0 <= count < 2 ^ 32 ->
  exists k : nat,
    strip_trailing_zeros fuel f count
    = (f / 10 ^ Z.of_nat k, (count - Z.of_nat k) mod 2 ^ 32)
    /\ f = f / 10 ^ Z.of_nat k * 10 ^ Z.of_nat k
    /\ (f / 10 ^ Z.of_nat k) mod 10 <> 0
    /\ (k < fuel)%nat.
Proof.
  revert f count; induction fuel as [|fuel IH]; intros f count Hf Hc.
  { cbn in Hf. lia. }
  cbn [strip_trailing_zeros].
  rewrite Z.rem_mod_nonneg, Z.quot_div_nonneg by lia.
  destruct (Z.eqb_spec (f mod 10) 0) as [Hz|Hnz]; cbn [negb].
  - pose proof (Z.div_mod f 10 ltac:(lia)) as Hdiv.
    assert (Hq : 0 < f / 10 < 10 ^ Z.of_nat fuel).
    { split; [lia|]. apply Z.div_lt_upper_bound; [lia|].
      rewrite Nat2Z.inj_succ, Z.pow_succ_r in Hf by lia. lia. }
    destruct (IH (f / 10) (to_uint (count - 1)) Hq (to_uint_range _))
      as (k & E & Hmul & Hrem & Hk).
    exists (S k). rewrite E.
    rewrite Nat2Z.inj_succ, Z.pow_succ_r by lia.
    rewrite <- Z.div_div by (try apply Z.pow_pos_nonneg; lia).
    split; [|split; [|split]].
    + f_equal. unfold to_uint. rewrite Zminus_mod_idemp_l. f_equal. lia.
    + rewrite Hdiv at 1. rewrite Hz. rewrite Hmul at 1. lia.
    + exact Hrem.
    + lia.
  - exists 0%nat. change (Z.of_nat 0) with 0. rewrite Z.pow_0_r, Z.div_1_r, Z.sub_0_r.
    split; [|split; [lia|split; [exact Hnz|lia]]].
    f_equal. symmetry. apply Z.mod_small. exact Hc.
Qed.

(** X23.  The loop that drops trailing zeros of the fractional part for
    [%g]: it divides a positive fractional part by the largest power of ten
    that divides it, so that the last digit left is not zero, and lowers
    the digit count by the number of zeros dropped. *)
Theorem trailing_zeros_stripped (f count : Z) :
  0 < f <= INT64_MAX -> 0 <= count < 2 ^ 32 ->
  exists k : nat,
    strip_trailing_zeros 19 f count
    = (f / 10 ^ Z.of_nat k, (count - Z.of_nat k) mod 2 ^ 32)
    /\ f = f / 10 ^ Z.of_nat k * 10 ^ Z.of_nat k
    /\ (f / 10 ^ Z.of_nat k) mod 10 <> 0.
Proof.
  intros Hf Hc. unfold INT64_MAX in Hf.
  destruct (strip_trailing_zeros_spec 19 f count ltac:(change (Z.of_nat 19) with 19; lia) Hc)
    as (k & E & Hmul & Hrem & _).
  exists k. split; [exact E|]. split; [exact Hmul|exact Hrem].
Qed.

Lemma trailing_zeros_stripped_1200 :
  0 < 1200 <= INT64_MAX /\ 0 <= 6 < 2 ^ 32
  /\ strip_trailing_zeros 19 1200 6 = (12, 4)
  /\ exists k : nat,
      strip_trailing_zeros 19 1200 6
      = (1200 / 10 ^ Z.of_nat k, (6 - Z.of_nat k) mod 2 ^ 32)
      /\ 1200 = 1200 / 10 ^ Z.of_nat k * 10 ^ Z.of_nat k
      /\ (1200 / 10 ^ Z.of_nat k) mod 10 <> 0.
Proof.
  assert (H1 : 0 < 1200 <= INT64_MAX) by (vm_compute; split; [reflexivity|discriminate]).
  assert (H2 : 0 <= 6 < 2 ^ 32) by lia.
  split; [exact H1|]. split; [exact H2|]. split; [reflexivity|].
  exact (trailing_zeros_stripped 1200 6 H1 H2).
Defined.

(** ** A directive that emits a known text *)


(** ** The alternate form *)

(** [_ntoa_format] for a ['#'] conversion without width and precision:
    the prefix of the base goes in front of the digits. *)
Lemma _ntoa_format_hash {W : Type} (out : out_fct_type W) buffer maxlen
    (st : state W) (ds : list ascii) (base flags : Z) (prefix : list ascii) :
  (0 < length ds <= 30)%nat ->
  (base = BASE_HEX /\ flags = FLAGS_HASH /\ prefix = chars "0x")
  \/ ((base = BASE_HEX /\ flags = Z.lor FLAGS_HASH FLAGS_UPPERCASE
       /\ prefix = chars "0X")
      \/ ((base = BASE_OCTAL /\ flags = FLAGS_HASH /\ prefix = chars "0")
          \/ (base = BASE_BINARY /\ flags = FLAGS_HASH
              /\ prefix = chars "0b"))) ->
  _ntoa_format out buffer maxlen st ds false base 0 0 flags
  = put_list out buffer maxlen (prefix ++ rev ds) st.
Proof.
  intros Hn Hcase.
  assert (Hpad : forall b, pad_zeros (Z.to_nat PRINTF_NTOA_BUFFER_SIZE) b 0
                             PRINTF_NTOA_BUFFER_SIZE = b).
  { intros b. rewrite pad_zeros_exact by (unfold PRINTF_NTOA_BUFFER_SIZE; lia).
    replace (Z.to_nat (Z.min 0 PRINTF_NTOA_BUFFER_SIZE - Z.of_nat (length b)))
      with 0%nat by (unfold PRINTF_NTOA_BUFFER_SIZE; lia).
    cbn [repeat]. apply app_nil_r. }
  cbv beta delta [_ntoa_format].
  assert (Hroom : forall b : list ascii,
             (length b <= 31)%nat -> room b PRINTF_NTOA_BUFFER_SIZE = true).
  { intros b Hb. unfold room, PRINTF_NTOA_BUFFER_SIZE. apply Z.ltb_lt. lia. }
  assert (Hlt : (Z.of_nat (length ds) <? Z.of_nat (length ds)) = false)
    by (apply Z.ltb_irrefl).
  assert (Hnz : (Z.of_nat (length ds) =? 0) = false) by (apply Z.eqb_neq; lia).
  destruct Hcase as [(-> & -> & ->)|[(-> & -> & ->)|[(-> & -> & ->)|(-> & -> & ->)]]];
    has_const; cbn [negb andb orb]; cbv zeta; rewrite ?Hpad;
    repeat match goal with
           | |- context [?a =? ?b] =>
               let r := eval cbv in (a =? b) in
               lazymatch r with
               | true => change (a =? b) with true
               | false => change (a =? b) with false
               end
           end;
    cbn [negb andb orb]; rewrite ?Hlt, ?Hnz; cbn [negb andb orb]; cbv iota;
    has_const; cbn [negb andb orb]; cbv iota;
    repeat match goal with
           | |- context [room ?b PRINTF_NTOA_BUFFER_SIZE] =>
               lazymatch b with
               | context [if _ then _ else _] => fail
               | _ => rewrite !(Hroom b)
                        by (rewrite ?length_app; cbn [length]; lia);
                      cbn [negb andb orb]; cbv iota
               end
           end.
  all: rewrite ?if_same.
  all: rewrite (_out_rev_exact _ 0 _ ltac:(lia))
    by (rewrite ?length_app; cbn [length]; lia).
  all: cbv zeta; has_const; cbv iota.
  all: match goal with
       | |- context [repeat " "%char ?n] => replace n with 0%nat by lia
       end.
  all: cbn [repeat app]; rewrite ?rev_app_distr; reflexivity.
Qed.

(** One ['#'] conversion of a non-zero [unsigned int] without width and
    precision. *)
Lemma output_hash (directive : string) (v base flags : Z) (prefix : list ascii) :
  (forall (W : Type) (out : out_fct_type W) buffer maxlen (st : state W),
      eval_directive out buffer maxlen directive [VInt v] st
      = Some (""%string, [],
              _ntoa out buffer maxlen st (v mod 2 ^ 32) false base 0 0 flags)) ->
  (base = BASE_HEX /\ flags = FLAGS_HASH /\ prefix = chars "0x")
  \/ ((base = BASE_HEX /\ flags = Z.lor FLAGS_HASH FLAGS_UPPERCASE
       /\ prefix = chars "0X")
      \/ ((base = BASE_OCTAL /\ flags = FLAGS_HASH /\ prefix = chars "0")
          \/ (base = BASE_BINARY /\ flags = FLAGS_HASH
              /\ prefix = chars "0b"))) ->
  v mod 2 ^ 32 <> 0 -> v mod 2 ^ 32 < base ^ 30 ->
  exists s,
    output (String "%" directive) [VInt v] = Some (prefix ++ s)
    /\ numeral_value (has flags FLAGS_UPPERCASE) base s = Some (v mod 2 ^ 32)
    /\ canonical_numeral s = true.
Proof.
  intros Hd Hcase Hnz Hlt.
  pose proof (to_uint_range v) as Hr. unfold to_uint in Hr.
  assert (Hb : 2 <= base <= 16).
  { destruct Hcase as [(-> & _)|[(-> & _)|[(-> & _)|(-> & _)]]];
      vm_compute; split; discriminate. }
  assert (Hv : 0 < v mod 2 ^ 32 < base ^ 32).
  { split; [lia|]. replace 32 with (30 + 2) at 2 by lia.
    rewrite Z.pow_add_r by lia. nia. }
  destruct (ntoa_digits_numeral (v mod 2 ^ 32) base flags Hb Hv)
    as (ds & E & Hle & Hval & Hcan & Hn).
  assert (Hlen : (0 < length ds <= 30)%nat).
  { split.
    - destruct ds; [discriminate Hval|cbn; lia].
    - apply Hn. change (Z.of_nat 30) with 30. exact Hlt. }
  exists (rev ds). split; [|split; assumption].
  apply (output_one_directive directive [VInt v]
           (fun W out buffer maxlen st =>
              _ntoa_format out buffer maxlen st ds false base 0 0 flags)).
  - intros W out buffer maxlen st. rewrite Hd. unfold _ntoa.
    destruct (Z.eqb_spec (v mod 2 ^ 32) 0) as [E0|_]; [contradiction|].
    rewrite E. reflexivity.
  - cbv beta. apply _ntoa_format_hash; assumption.
Qed.

(** X25.  The ['#'] flag on a non-zero [unsigned int] without width and
    precision: [%#x] prints ["0x"], [%#X] prints ["0X"], [%#o] prints ["0"]
    in front of the numeral and, for a value below [2 ^ 30], [%#b] prints
    ["0b"] in front of it. *)
Theorem alternate_form (v : Z) :
  v mod 2 ^ 32 <> 0 ->
  let prints (directive : string) (prefix : list ascii) (upper : bool) (base : Z) :=
    exists s, output directive [VInt v] = Some (prefix ++ s)
              /\ numeral_value upper base s = Some (v mod 2 ^ 32)
              /\ canonical_numeral s = true in
  prints "%#x"%string (chars "0x") false 16
  /\ prints "%#X"%string (chars "0X") true 16
  /\ prints "%#o"%string (chars "0") false 8
  /\ (v mod 2 ^ 32 < 2 ^ 30 -> prints "%#b"%string (chars "0b") false 2).
Proof.
  intros Hnz. cbv zeta.
  pose proof (to_uint_range v) as Hr. unfold to_uint in Hr.
  split; [|split; [|split]].
  - apply (output_hash "#x" v 16 FLAGS_HASH (chars "0x"));
      first [intros; reflexivity | tauto | lia].
  - apply (output_hash "#X" v 16 (Z.lor FLAGS_HASH FLAGS_UPPERCASE) (chars "0X"));
      first [intros; reflexivity | tauto | lia].
  - apply (output_hash "#o" v 8 FLAGS_HASH (chars "0"));
      first [intros; reflexivity | tauto | lia].
  - intros Hsmall.
    apply (output_hash "#b" v 2 FLAGS_HASH (chars "0b"));
      first [intros; reflexivity | tauto | lia].
Qed.

Lemma alternate_form_255 :
  255 mod 2 ^ 32 <> 0
  /\ (let prints (directive : string) (prefix : list ascii) (upper : bool)
                 (base : Z) :=
        exists s, output directive [VInt 255] = Some (prefix ++ s)
                  /\ numeral_value upper base s = Some (255 mod 2 ^ 32)
                  /\ canonical_numeral s = true in
      prints "%#x"%string (chars "0x") false 16
      /\ prints "%#X"%string (chars "0X") true 16
      /\ prints "%#o"%string (chars "0") false 8
      /\ (255 mod 2 ^ 32 < 2 ^ 30 -> prints "%#b"%string (chars "0b") false 2)).
Proof.
  assert (H : 255 mod 2 ^ 32 <> 0) by (vm_compute; discriminate).
  split; [exact H|]. exact (alternate_form 255 H).
Defined.

(** ** Doubles that hold an integer *)

Lemma digits2_pos_bounds (p : positive) :
  2 ^ (Zpos (digits2_pos p) - 1) <= Zpos p < 2 ^ Zpos (digits2_pos p).
Proof.
  induction p as [p IH|p IH|]; cbn [digits2_pos].
  - rewrite Pos2Z.inj_succ.
    replace (Z.succ (Zpos (digits2_pos p)) - 1) with (Z.succ (Zpos (digits2_pos p) - 1))
      by lia.
    rewrite !Z.pow_succ_r by lia. lia.
  - rewrite Pos2Z.inj_succ.
    replace (Z.succ (Zpos (digits2_pos p)) - 1) with (Z.succ (Zpos (digits2_pos p) - 1))
      by lia.
    rewrite !Z.pow_succ_r by lia. lia.
  - cbn. lia.
Qed.

Lemma iter_xO_spec (k p : positive) :
  Zpos (Pos.iter xO p k) = Zpos p * 2 ^ Zpos k
  /\ digits2_pos (Pos.iter xO p k) = (digits2_pos p + k)%positive.
Proof.
  induction k as [|k IH] using Pos.peano_ind.
  - cbn [Pos.iter digits2_pos]. split; [lia|]. rewrite Pos.add_1_r. reflexivity.
  - rewrite Pos.iter_succ. cbn [digits2_pos]. destruct IH as [IH1 IH2].
    split.
    + rewrite Pos2Z.inj_xO, IH1, Pos2Z.inj_succ, Z.pow_succ_r by lia. lia.
    + rewrite IH2, Pos.add_succ_r. reflexivity.
Qed.

(** Rounding leaves a mantissa of 53 bits within the exponent range as it
    is. *)
Lemma binary_round_aux_exact (s : bool) (m : positive) (e : Z) :
  digits2_pos m = 53%positive -> -1074 <= e <= 971 ->
  binary_round_aux prec emax s (Zpos m) e loc_Exact = S754_finite s m e
  /\ SpecFloat.valid_binary prec emax (S754_finite s m e) = true.
Proof.
  intros Hd He.
  assert (Hf : fexp prec emax (53 + e) = e).
  { unfold fexp, emin, prec, emax. lia. }
  split.
  - unfold binary_round_aux, shr_fexp. cbn [Zdigits2 shr_record_of_loc].
    rewrite Hd, Hf, Z.sub_diag. cbn [shr shr_m loc_of_shr_record round_nearest_even].
    cbn [Zdigits2 shr_record_of_loc].
    rewrite Hd, Hf, Z.sub_diag. cbn [shr shr_m].
    replace (e <=? emax - prec) with true
      by (symmetry; apply Z.leb_le; unfold emax, prec; lia).
    reflexivity.
  - unfold SpecFloat.valid_binary, bounded, canonical_mantissa. rewrite Hd, Hf, Z.eqb_refl.
    apply Z.leb_le. unfold emax, prec. lia.
Qed.

(** The double of a positive integer below [2 ^ 53]: the integer shifted
    left to 53 bits, with the exponent that undoes the shift. *)
Lemma binary_round_integer (p : positive) :
  Zpos p < 2 ^ 53 ->
  exists m e,
    (forall s, binary_round prec emax s p 0 = S754_finite s m e
               /\ SpecFloat.valid_binary prec emax (S754_finite s m e) = true)
    /\ -52 <= e <= 0
    /\ Zpos m = Zpos p * 2 ^ (- e)
    /\ 2 ^ 52 <= Zpos m < 2 ^ 53.
Proof.
  intros Hp.
  pose proof (digits2_pos_bounds p) as Hb.
  set (d := digits2_pos p) in *.
  assert (Hd : Zpos d <= 53).
  { destruct (Z.le_gt_cases (Zpos d) 53) as [H|H]; [exact H|exfalso].
    assert (2 ^ 53 <= 2 ^ (Zpos d - 1)) by (apply Z.pow_le_mono_r; lia). lia. }
  assert (Hf : fexp prec emax (Zpos d + 0) = Zpos d - 53).
  { unfold fexp, emin, prec, emax. lia. }
  unfold binary_round. fold d. rewrite Hf. unfold shl_align.
  rewrite Z.sub_0_r.
  destruct (Zpos d - 53) as [|q|q] eqn:E; [| lia |].
  - assert (Hd53 : d = 53%positive) by lia.
    exists p, 0. split; [|split; [lia|split; [cbn; lia|]]].
    + intros s. apply binary_round_aux_exact; [exact Hd53|lia].
    + rewrite Hd53 in Hb. change (Zpos 53 - 1) with 52 in Hb. exact Hb.
  - destruct (iter_xO_spec q p) as [Hv Hdig]. fold d in Hdig.
    assert (Hq : Zpos q = 53 - Zpos d) by lia.
    assert (Hd53 : digits2_pos (Pos.iter xO p q) = 53%positive).
    { rewrite Hdig. apply Pos2Z.inj. rewrite Pos2Z.inj_add. lia. }
    exists (Pos.iter xO p q), (Zneg q).
    split; [|split; [lia|split]].
    + intros s. apply binary_round_aux_exact; [exact Hd53|lia].
    + rewrite Hv. reflexivity.
    + pose proof (digits2_pos_bounds (Pos.iter xO p q)) as Hb'.
      rewrite Hd53 in Hb'. change (Zpos 53 - 1) with 52 in Hb'. exact Hb'.
Qed.

(** The shape of [(double) n] for an integer [n] of at most 53 bits. *)
Lemma Prim2SF_double_of_Z (n : Z) :
  0 < Z.abs n < 2 ^ 53 ->
  exists m e,
    Prim2SF (double_of_Z n) = S754_finite (n <? 0) m e
    /\ Prim2SF (double_of_Z (Z.abs n)) = S754_finite false m e
    /\ -52 <= e <= 0
    /\ Zpos m = Z.abs n * 2 ^ (- e)
    /\ 2 ^ 52 <= Zpos m < 2 ^ 53.
Proof.
  intros Hn. unfold double_of_Z.
  destruct n as [|p|p]; [lia| |].
  - destruct (binary_round_integer p ltac:(lia)) as (m & e & Hr & He & Hm & Hb).
    exists m, e. change (Z.abs (Zpos p)) with (Zpos p).
    change (Zpos p <? 0) with false. cbn [binary_normalize].
    destruct (Hr false) as [E V]. rewrite E, (Prim2SF_SF2Prim _ V).
    repeat split; solve [reflexivity | assumption | lia].
  - destruct (binary_round_integer p ltac:(lia)) as (m & e & Hr & He & Hm & Hb).
    exists m, e. change (Z.abs (Zneg p)) with (Zpos p).
    change (Zneg p <? 0) with true. cbn [binary_normalize].
    destruct (Hr false) as [E V]. destruct (Hr true) as [E' V'].
    rewrite E, E', (Prim2SF_SF2Prim _ V), (Prim2SF_SF2Prim _ V').
    repeat split; solve [reflexivity | assumption | lia].
Qed.

(** [get_sign] reads the sign of a normal number and of a zero. *)
Lemma get_sign_finite (x : double) (s : bool) (m : positive) (e : Z) :
  Prim2SF x = S754_finite s m e ->
  2 ^ 52 <= Zpos m < 2 ^ 53 -> -1074 <= e <= 971 ->
  get_sign x = s.
Proof.
  intros Hx Hm He. unfold get_sign, get_bit_access, double_to_bits. rewrite Hx.
  destruct (Z.ltb_spec (Zpos m) (2 ^ 52)) as [H|_]; [lia|].
  rewrite !Z.shiftr_lor.
  assert (E1 : Z.shiftr (Z.shiftl (e + 1075) 52) 63 = 0).
  { rewrite Z.shiftr_shiftl_r by lia. change (63 - 52) with 11.
    rewrite Z.shiftr_div_pow2 by lia. apply Z.div_small. lia. }
  assert (E2 : Z.shiftr (Zpos m - 2 ^ 52) 63 = 0).
  { rewrite Z.shiftr_div_pow2 by lia. apply Z.div_small. lia. }
  rewrite E1, E2. destruct s; reflexivity.
Qed.

Lemma get_sign_zero (x : double) (s : bool) :
  Prim2SF x = S754_zero s -> get_sign x = s.
Proof.
  intros Hx. unfold get_sign, get_bit_access, double_to_bits. rewrite Hx.
  destruct s; reflexivity.
Qed.

Lemma Prim2SF_double_of_Z_0 : Prim2SF (double_of_Z 0) = S754_zero false.
Proof. vm_compute. reflexivity. Qed.

(** The entries of [powers_of_10] are positive numbers. *)
Lemma powers_of_10_at_positive (i : Z) :
  0 <= i < NUM_DECIMAL_DIGITS_IN_INT64_T ->
  exists p10 q k,
    powers_of_10_at i = Some p10 /\ Prim2SF p10 = S754_finite false q k.
Proof.
  unfold NUM_DECIMAL_DIGITS_IN_INT64_T. intros Hi.
  assert (Hcase : i = 0 \/ i = 1 \/ i = 2 \/ i = 3 \/ i = 4 \/ i = 5 \/ i = 6
                  \/ i = 7 \/ i = 8 \/ i = 9 \/ i = 10 \/ i = 11 \/ i = 12
                  \/ i = 13 \/ i = 14 \/ i = 15 \/ i = 16 \/ i = 17) by lia.
  repeat destruct Hcase as [->|Hcase]; try subst i;
    eexists; eexists; eexists; (split; [reflexivity|vm_compute; reflexivity]).
Qed.

(** A number less itself is [+0]. *)
Lemma SFsub_diag (x : spec_float) :
  (exists m e, x = S754_finite false m e) \/ x = S754_zero false ->
  SF64sub x x = S754_zero false.
Proof.
  intros [(m & e & ->)| ->]; [|reflexivity].
  unfold SF64sub, SFsub. cbv zeta. rewrite Z.sub_diag. reflexivity.
Qed.

Lemma SFmul_zero_positive (q : positive) (k : Z) :
  SF64mul (S754_zero false) (S754_finite false q k) = S754_zero false.
Proof. reflexivity. Qed.

(** Comparisons of [+0] with 0.5. *)
Lemma zero_vs_half (r : double) :
  Prim2SF r = S754_zero false ->
  (0.5 <? r)%float = false /\ (r =? 0.5)%float = false /\ (r <? 0.5)%float = true.
Proof.
  intros Hr.
  rewrite !FloatAxioms.ltb_spec, FloatAxioms.eqb_spec, Hr, Prim2SF_half.
  repeat split.
Qed.

(** The integral part of a double that holds an integer. *)
Lemma int64_of_double_integer (a : double) (v : Z) (m : positive) (e : Z) :
  Prim2SF a = S754_finite false m e ->
  -52 <= e <= 0 -> Zpos m = v * 2 ^ (- e) -> 0 <= v < 2 ^ 53 ->
  int64_of_double a = v.
Proof.
  intros Ha He Hm Hv. unfold int64_of_double, trunc_double. rewrite Ha.
  assert (Hp : 0 < 2 ^ (- e)) by (apply Z.pow_pos_nonneg; lia).
  assert (E : (if 0 <=? e then Zpos m * 2 ^ e else Zpos m / 2 ^ (- e)) = v).
  { destruct (Z.leb_spec 0 e).
    - replace e with 0 in * by lia. cbn in Hm. lia.
    - rewrite Hm. apply Z.div_mul. lia. }
  cbv zeta. rewrite E. unfold INT64_MIN, INT64_MAX.
  destruct (Z.leb_spec (- 2 ^ 63) v); [|lia].
  destruct (Z.leb_spec v (2 ^ 63 - 1)); [|lia].
  reflexivity.
Qed.

Lemma int64_of_double_zero (a : double) :
  Prim2SF a = S754_zero false -> int64_of_double a = 0.
Proof.
  intros Ha. unfold int64_of_double, trunc_double. rewrite Ha. reflexivity.
Qed.

(** The sign and the absolute value [get_components] starts from. *)
Lemma double_of_Z_sign_abs (n : Z) :
  Z.abs n < 2 ^ 53 ->
  get_sign (double_of_Z n) = (n <? 0)
  /\ (if n <? 0 then (- double_of_Z n)%float else double_of_Z n)
     = double_of_Z (Z.abs n)
  /\ int64_of_double (double_of_Z (Z.abs n)) = Z.abs n
  /\ ((exists m e, Prim2SF (double_of_Z (Z.abs n)) = S754_finite false m e)
      \/ Prim2SF (double_of_Z (Z.abs n)) = S754_zero false).
Proof.
  intros Hn. destruct (Z.eq_dec n 0) as [->|Hnz].
  - change (Z.abs 0) with 0. change (0 <? 0) with false. cbv iota.
    split; [apply get_sign_zero, Prim2SF_double_of_Z_0|].
    split; [reflexivity|].
    split; [apply int64_of_double_zero, Prim2SF_double_of_Z_0|].
    right. exact Prim2SF_double_of_Z_0.
  - destruct (Prim2SF_double_of_Z n ltac:(lia)) as (m & e & Hx & Ha & He & Hm & Hb).
    split; [exact (get_sign_finite _ _ _ _ Hx Hb ltac:(lia))|].
    split; [|split].
    + apply Prim2SF_inj. rewrite Ha.
      destruct (n <? 0) eqn:Hs.
      * rewrite opp_spec, Hx. reflexivity.
      * exact Hx.
    + exact (int64_of_double_integer _ (Z.abs n) m e Ha He Hm ltac:(lia)).
    + left. exists m, e. exact Ha.
Qed.

(** [get_components] of a double that holds an integer: the integer, no
    fractional part. *)
Lemma get_components_integer (n precision : Z) :
  Z.abs n < 2 ^ 53 -> 0 <= precision < NUM_DECIMAL_DIGITS_IN_INT64_T ->
  get_components (double_of_Z n) precision
  = Some {| integral := Z.abs n; fractional := 0; is_negative := n <? 0 |}.
Proof.
  intros Hn Hp.
  destruct (powers_of_10_at_positive precision Hp) as (p10 & q & k & Hp10 & Hq).
  destruct (double_of_Z_sign_abs n Hn) as (Hsign & Habs & Hint & Hshape).
  unfold get_components. rewrite Hp10. cbv zeta. rewrite Hsign, Habs, Hint.
  set (a := double_of_Z (Z.abs n)) in *.
  assert (Hd : Prim2SF (a - a) = S754_zero false).
  { rewrite sub_spec. apply SFsub_diag. exact Hshape. }
  set (d := (a - a)%float) in *.
  assert (Hz : Prim2SF (d * p10) = S754_zero false).
  { rewrite mul_spec, Hd, Hq. reflexivity. }
  set (z := (d * p10)%float) in *.
  assert (Hf : int64_of_double z = 0) by (apply int64_of_double_zero, Hz).
  rewrite Hf.
  assert (Hr : Prim2SF (z - double_of_Z 0) = S754_zero false).
  { rewrite sub_spec, Hz, Prim2SF_double_of_Z_0. reflexivity. }
  destruct (zero_vs_half _ Hr) as (C1 & C2 & _).
  destruct (zero_vs_half _ Hd) as (D1 & _ & D3).
  rewrite C1, C2. cbv iota. fold a. fold d. rewrite D1, D3. cbn [negb orb andb].
  destruct (precision =? 0); reflexivity.
Qed.

(** X26.  [get_components] is exact on a double that holds an integer of
    at most 53 bits: for every precision of the table the integral part is
    the magnitude of the integer, the fractional part is 0, and the sign
    flag tells whether the integer is negative. *)
Theorem get_components_exact_on_integers (n precision : Z) :
  Z.abs n < 2 ^ 53 -> 0 <= precision < NUM_DECIMAL_DIGITS_IN_INT64_T ->
  get_components (double_of_Z n) precision
  = Some {| integral := Z.abs n; fractional := 0; is_negative := n <? 0 |}.
Proof. intros Hn Hp. exact (get_components_integer n precision Hn Hp). Qed.

Lemma get_components_exact_on_integers_minus_7 :
  Z.abs (-7) < 2 ^ 53
  /\ 0 <= 3 < NUM_DECIMAL_DIGITS_IN_INT64_T
  /\ get_components (double_of_Z (-7)) 3
     = Some {| integral := 7; fractional := 0; is_negative := true |}.
Proof.
  assert (H1 : Z.abs (-7) < 2 ^ 53) by (vm_compute; reflexivity).
  assert (H2 : 0 <= 3 < NUM_DECIMAL_DIGITS_IN_INT64_T)
    by (vm_compute; split; [discriminate|reflexivity]).
  split; [exact H1|]. split; [exact H2|].
  exact (get_components_exact_on_integers (-7) 3 H1 H2).
Defined.

(** ** [%f] of a double that holds an integer *)















(** ** Signed conversions under every header *)








Lemma has_set_flag_other (f a b : Z) :
  has a b = false -> has (set_flag f a) b = has f b.
Proof. intros Ha. rewrite has_set_flag, Ha. apply orb_false_r. Qed.

Lemma eval_flags_other (b : Z) (format : string) (flags : Z) :
  not_header_flag b -> has (fst (eval_flags format flags)) b = has flags b.
Proof.
  intros (H0 & H1 & H2 & H3 & H4 & _).
  revert flags; induction format as [|c rest IH]; intros flags; [reflexivity|].
  cbn [eval_flags].
  repeat (destruct (char_eqb c _);
          [rewrite IH; apply has_set_flag_other; assumption|]).
  reflexivity.
Qed.










(** ** Parsing the header of a directive *)

Lemma digit_not_flag (c : ascii) :
  _is_digit c = true -> c <> "0"%char -> flag_of c = None.
Proof.
  destruct c as [[] [] [] [] [] [] [] []]; intros Hd Hz;
    try discriminate Hd; try reflexivity.
  exfalso. apply Hz. reflexivity.
Qed.

Lemma string_app_assoc (a b c : string) :
  ((a ++ b) ++ c)%string = (a ++ b ++ c)%string.
Proof.
  induction a as [|x a IH]; [reflexivity|].
  change (String x ((a ++ b) ++ c) = String x (a ++ b ++ c))%string.
  f_equal. exact IH.
Qed.

(** The flag loop over digits: it takes the leading zeros. *)
Lemma eval_flags_digits (wd : list ascii) (flags : Z) :
  Forall (fun c => _is_digit c = true) wd ->
  exists flags' wd2,
    Forall (fun c => _is_digit c = true) wd2
    /\ forall s, flag_of (deref s) = None ->
                 eval_flags (string_of_list_ascii wd ++ s) flags
                 = (flags', (string_of_list_ascii wd2 ++ s)%string).
Proof.
  intros H. revert flags. induction H as [|c wd Hc Hwd IH]; intros flags.
  - exists flags, []. split; [constructor|]. intros s Hs.
    exact (eval_flags_stop s flags Hs).
  - destruct (Ascii.eqb_spec c "0") as [->|Hz].
    + destruct (IH (set_flag flags FLAGS_ZEROPAD)) as (f' & wd2 & Hd & E).
      exists f', wd2. split; [exact Hd|]. intros s Hs.
      change (eval_flags (String "0" (string_of_list_ascii wd ++ s)) flags
              = (f', (string_of_list_ascii wd2 ++ s)%string)).
      cbn [eval_flags]. change (char_eqb "0" "0") with true. cbv iota.
      exact (E s Hs).
    + exists flags, (c :: wd). split; [constructor; assumption|]. intros s _.
      apply eval_flags_stop. exact (digit_not_flag c Hc Hz).
Qed.

(** [_atoi] over digits reads them all, whatever follows. *)
Lemma _atoi_from_all_digits (ds : list ascii) (i : Z) :
  Forall (fun c => _is_digit c = true) ds ->
  exists w, forall s, _is_digit (deref s) = false ->
                      _atoi_from (string_of_list_ascii ds ++ s) i = (w, s).
Proof.
  intros H. revert i. induction H as [|c ds Hc _ IH]; intros i.
  - exists i. intros s Hs. exact (_atoi_from_nondigit s i Hs).
  - destruct (IH (to_uint (i * 10 + to_uint (char_code c - char_code "0"))))
      as (w & E).
    exists w. intros s Hs.
    change (_atoi_from (String c (string_of_list_ascii ds ++ s)) i = (w, s)).
    cbn [_atoi_from]. rewrite Hc. exact (E s Hs).
Qed.

(** The width field over digits. *)
Lemma eval_width_digits (wd : list ascii) (flags : Z) :
  Forall (fun c => _is_digit c = true) wd ->
  exists width,
    forall s va, _is_digit (deref s) = false -> char_eqb (deref s) "*" = false ->
                 eval_width (string_of_list_ascii wd ++ s) flags va
                 = Some (flags, width, s, va).
Proof.
  intros H. destruct wd as [|c wd].
  - exists 0. intros s va Hd Hs. change (eval_width s flags va = Some (flags, 0, s, va)).
    unfold eval_width. destruct s as [|x s]; [reflexivity|].
    cbn [deref] in Hd, Hs. rewrite Hd, Hs. reflexivity.
  - destruct (_atoi_from_all_digits (c :: wd) 0 H) as (w & E).
    exists w. intros s va Hd Hs.
    change (eval_width (String c (string_of_list_ascii wd ++ s)) flags va
            = Some (flags, w, s, va)).
    unfold eval_width. rewrite (Forall_inv H). unfold _atoi.
    change (String c (string_of_list_ascii wd ++ s))
      with (string_of_list_ascii (c :: wd) ++ s)%string.
    rewrite (E s Hd). reflexivity.
Qed.

Lemma flags_of_other (b : Z) (fl : list ascii) (flags : Z) :
  not_header_flag b -> has (flags_of fl flags) b = has flags b.
Proof.
  intros (H0 & H1 & H2 & H3 & H4 & _). revert flags.
  induction fl as [|c fl IH]; intros flags; [reflexivity|].
  change (has (flags_of fl (match flag_of c with
                            | Some x => set_flag flags x
                            | None => flags
                            end)) b = has flags b).
  rewrite IH. unfold flag_of.
  repeat (destruct (char_eqb c _); [apply has_set_flag_other; assumption|]).
  reflexivity.
Qed.

(** The flags and the width of a header, whatever follows them. *)
Lemma parse_flags_width (fl : list ascii) (w : header_field) :
  Forall (fun c => flag_of c <> None) fl -> field_digits w ->
  exists flags width,
    (forall b, not_header_flag b -> has flags b = false)
    /\ forall s va,
        flag_of (deref s) = None -> _is_digit (deref s) = false ->
        char_eqb (deref s) "*" = false ->
        exists s1 flags1,
          eval_flags (string_of_list_ascii fl ++ field_text w ++ s) 0 = (flags1, s1)
          /\ eval_width s1 flags1 (field_args w ++ va) = Some (flags, width, s, va).
Proof.
  intros Hfl Hw. destruct w as [wd|x]; cbn [field_digits field_text field_args] in *.
  - destruct (eval_flags_digits wd (flags_of fl 0) Hw) as (f' & wd2 & Hd2 & Ef).
    destruct (eval_width_digits wd2 f' Hd2) as (width & Ew).
    exists f', width. split.
    + intros b Hb.
      pose proof (eval_flags_other b (string_of_list_ascii wd ++ "") (flags_of fl 0) Hb)
        as H.
      rewrite (Ef ""%string eq_refl) in H. cbn [fst] in H.
      rewrite H, flags_of_other by exact Hb. reflexivity.
    + intros s va Hs Hd Hst.
      exists (string_of_list_ascii wd2 ++ s)%string, f'. split.
      * rewrite eval_flags_app by exact Hfl. exact (Ef s Hs).
      * cbn [app]. exact (Ew s va Hd Hst).
  - set (f0 := flags_of fl 0).
    exists (if to_int x <? 0 then set_flag f0 FLAGS_LEFT else f0),
           (if to_int x <? 0 then to_uint (- to_int x) else to_uint (to_int x)).
    split.
    + intros b Hb.
      assert (H0 : has f0 b = false).
      { subst f0. rewrite flags_of_other by exact Hb. reflexivity. }
      destruct (to_int x <? 0); [|exact H0].
      rewrite has_set_flag_other; [exact H0|]. destruct Hb as (_ & H1 & _). exact H1.
    + intros s va _ _ _.
      exists (String "*" s), f0. split.
      * rewrite eval_flags_app by exact Hfl. apply eval_flags_stop. reflexivity.
      * cbn [app]. unfold eval_width. change (_is_digit "*") with false.
        change (char_eqb "*" "*") with true. cbv iota. cbn [va_arg_int].
        destruct (to_int x <? 0); reflexivity.
Qed.

(** The precision of a header, whatever follows it. *)
Lemma parse_precision (p : option header_field) (flags : Z) :
  match p with Some f => field_digits f | None => True end ->
  (forall b, not_header_flag b -> has flags b = false) ->
  exists flags' precision,
    (forall b, not_header_flag b -> has flags' b = false)
    /\ forall s va,
        _is_digit (deref s) = false -> char_eqb (deref s) "*" = false ->
        char_eqb (deref s) "." = false ->
        eval_precision
          (match p with Some f => String "." (field_text f) | None => "" end ++ s)
          flags (match p with Some f => field_args f | None => [] end ++ va)
        = Some (flags', precision, s, va).
Proof.
  intros Hp Hflags.
  assert (Hset : forall b, not_header_flag b ->
                           has (set_flag flags FLAGS_PRECISION) b = false).
  { intros b Hb. rewrite has_set_flag_other; [exact (Hflags b Hb)|].
    destruct Hb as (_ & _ & _ & _ & _ & H5). exact H5. }
  destruct p as [[pd|y]|]; cbn [field_digits field_text field_args] in *.
  - destruct pd as [|d pd].
    + exists (set_flag flags FLAGS_PRECISION), 0. split; [exact Hset|].
      intros s va Hd Hst _.
      change (eval_precision (String "." s) flags va
              = Some (set_flag flags FLAGS_PRECISION, 0, s, va)).
      unfold eval_precision. destruct s as [|c s]; [reflexivity|].
      cbn [deref] in Hd, Hst. rewrite Hd, Hst. reflexivity.
    + destruct (_atoi_from_all_digits (d :: pd) 0 Hp) as (pr & E).
      exists (set_flag flags FLAGS_PRECISION), pr. split; [exact Hset|].
      intros s va Hd _ _.
      change (eval_precision (String "." (String d (string_of_list_ascii pd ++ s)))
                flags va
              = Some (set_flag flags FLAGS_PRECISION, pr, s, va)).
      unfold eval_precision. rewrite (Forall_inv Hp). unfold _atoi.
      change (String d (string_of_list_ascii pd ++ s))
        with (string_of_list_ascii (d :: pd) ++ s)%string.
      rewrite (E s Hd). reflexivity.
  - exists (set_flag flags FLAGS_PRECISION),
           (if 0 <? to_int y then to_uint (to_int y) else 0).
    split; [exact Hset|]. intros s va _ _ _.
    change (eval_precision (String "." (String "*" s)) flags (VInt y :: va)
            = Some (set_flag flags FLAGS_PRECISION,
                    (if 0 <? to_int y then to_uint (to_int y) else 0), s, va)).
    reflexivity.
  - exists flags, 0. split; [exact Hflags|]. intros s va _ _ Hdot.
    change (eval_precision s flags va = Some (flags, 0, s, va)).
    unfold eval_precision. destruct s as [|c s]; [reflexivity|].
    cbn [deref] in Hdot.
    destruct c as [[] [] [] [] [] [] [] []]; try reflexivity. discriminate Hdot.
Qed.

(** The header of a directive, whatever conversion follows it. *)
Lemma header_parse (fl : list ascii) (w : header_field) (p : option header_field) :
  Forall (fun c => flag_of c <> None) fl -> field_digits w ->
  match p with Some f => field_digits f | None => True end ->
  exists flags width precision,
    (forall b, not_header_flag b -> has flags b = false)
    /\ forall s va,
        flag_of (deref s) = None -> _is_digit (deref s) = false ->
        char_eqb (deref s) "*" = false -> char_eqb (deref s) "." = false ->
        eval_header (header_text fl w p ++ s) (header_args w p ++ va)
        = (let '(flags', format) := eval_length s flags in
           Some (flags', width, precision, format, va)).
Proof.
  intros Hfl Hw Hp.
  destruct (parse_flags_width fl w Hfl Hw) as (f1 & width & Hb1 & E1).
  destruct (parse_precision p f1 Hp Hb1) as (f2 & precision & Hb2 & E2).
  exists f2, width, precision. split; [exact Hb2|].
  intros s va Hs Hd Hst Hdot.
  set (ptext := match p with Some f => String "." (field_text f) | None => ""%string end)
    in *.
  set (pargs := match p with Some f => field_args f | None => [] end) in *.
  assert (Hhead : flag_of (deref (ptext ++ s)) = None
                  /\ _is_digit (deref (ptext ++ s)) = false
                  /\ char_eqb (deref (ptext ++ s)) "*" = false).
  { subst ptext. destruct p as [f|]; [repeat split|].
    change (""%string ++ s)%string with s. repeat split; assumption. }
  destruct Hhead as (Hh1 & Hh2 & Hh3).
  destruct (E1 (ptext ++ s)%string (pargs ++ va) Hh1 Hh2 Hh3) as (s1 & fl1 & Ef & Ew).
  pose proof (E2 s va Hd Hst Hdot) as Ep.
  unfold eval_header, header_text, header_args. subst ptext pargs.
  rewrite !string_app_assoc, Ef, <- List.app_assoc. cbv beta iota.
  match goal with
  | |- match ?X with _ => _ end = _ =>
      match type of Ew with
      | _ = ?R => replace X with R by (symmetry; exact Ew)
      end
  end.
  cbv beta iota.
  match goal with
  | |- match ?X with _ => _ end = _ =>
      replace X with (Some (f2, precision, s, va)) by (symmetry; exact Ep)
  end.
  reflexivity.
Qed.

(** ** A precision taken from the arguments *)

(** X9.  A precision taken from the arguments by [.*] that is zero or
    negative counts as the precision 0, not as an absent precision: under
    any flags and any width, given by digits or by ['*'], and whatever
    follows the precision (a length modifier, a conversion letter, further
    text; not a digit), the format prints what it prints with [.0] in
    place of [.*]. *)
Theorem star_precision_not_positive (fl : list ascii) (w : header_field)
    (rest : string) (p : Z) (va : va_list) :
  Forall (fun c => flag_of c <> None) fl -> field_digits w ->
  - 2 ^ 31 <= p <= 0 ->
  _is_digit (deref rest) = false ->
  output ("%" ++ header_text fl w (Some (Star p)) ++ rest)
    (header_args w (Some (Star p)) ++ va)
  = output ("%" ++ header_text fl w (Some (Digits ["0"%char])) ++ rest)
      (header_args w (Some (Digits ["0"%char])) ++ va).
Proof.
  intros Hfl Hw Hp Hrest.
  destruct (parse_flags_width fl w Hfl Hw) as (f1 & width & _ & E1).
  destruct (E1 (String "." (String "*" rest)) (VInt p :: va) eq_refl eq_refl eq_refl)
    as (s1 & fl1 & Ef1 & Ew1).
  destruct (E1 (String "." (String "0" rest)) va eq_refl eq_refl eq_refl)
    as (s2 & fl2 & Ef2 & Ew2).
  unfold header_text, header_args. cbn [field_text field_args].
  rewrite !string_app_assoc, <- !List.app_assoc.
  change (output (String "%" (string_of_list_ascii fl ++ field_text w
                              ++ String "." (String "*" rest)))
            (field_args w ++ VInt p :: va)
          = output (String "%" (string_of_list_ascii fl ++ field_text w
                                ++ String "." (String "0" rest)))
              (field_args w ++ va)).
  apply output_same_directive. intros W out buffer maxlen st.
  unfold eval_directive, eval_header.
  rewrite Ef1, Ef2. cbv beta iota. rewrite Ew1, Ew2.
  unfold eval_precision. change (_is_digit "*") with false.
  change (_is_digit "0") with true. change (char_eqb "*" "*") with true. cbv iota.
  cbn [va_arg_int]. rewrite to_int_small by lia.
  destruct (Z.ltb_spec 0 p); [lia|].
  unfold _atoi. cbn [_atoi_from]. change (_is_digit "0") with true. cbv iota.
  change (to_uint (0 * 10 + to_uint (char_code "0" - char_code "0"))) with 0.
  rewrite (_atoi_from_nondigit rest 0 Hrest). reflexivity.
Qed.

Lemma star_precision_not_positive_width :
  Forall (fun c => flag_of c <> None) (chars "-")
  /\ field_digits (Digits (chars "6"))
  /\ - 2 ^ 31 <= -1 <= 0
  /\ _is_digit (deref "d|") = false
  /\ output "%-6.*d|" [VInt (-1); VInt 0] = Some (chars "      |")
  /\ output "%-6.0d|" [VInt 0] = Some (chars "      |").
Proof.
  assert (Hfl : Forall (fun c => flag_of c <> None) (chars "-"))
    by (repeat constructor; discriminate).
  assert (Hw : field_digits (Digits (chars "6")))
    by (repeat constructor).
  assert (Hp : - 2 ^ 31 <= -1 <= 0) by lia.
  split; [exact Hfl|]. split; [exact Hw|]. split; [exact Hp|].
  split; [reflexivity|].
  pose proof (star_precision_not_positive (chars "-") (Digits (chars "6")) "d|" (-1)
                [VInt 0] Hfl Hw Hp eq_refl) as E.
  split; [|vm_compute; reflexivity].
  exact (eq_trans E ltac:(vm_compute; reflexivity)).
Defined.

(** ** The length modifiers [hh] and [h] under every header *)

Lemma has_shiftl (f k : Z) : 0 <= k -> has f (Z.shiftl 1 k) = Z.testbit f k.
Proof.
  intros Hk. unfold has. rewrite Z.shiftl_1_l.
  destruct (Z.testbit f k) eqn:Hb.
  - apply negb_true_iff, Z.eqb_neq. intros E.
    apply (f_equal (fun z => Z.testbit z k)) in E.
    rewrite Z.land_spec, Hb, Z.pow2_bits_true, Z.bits_0 in E by exact Hk.
    discriminate E.
  - apply negb_false_iff, Z.eqb_eq. apply Z.bits_inj'. intros n Hn.
    rewrite Z.land_spec, Z.bits_0, Z.pow2_bits_eqb by exact Hk.
    destruct (Z.eqb_spec k n) as [->|_]; [rewrite Hb; reflexivity|].
    apply andb_false_r.
Qed.

Lemma has_clear_flag (f a k : Z) :
  0 <= k ->
  has (clear_flag f a) (Z.shiftl 1 k)
  = has f (Z.shiftl 1 k) && negb (has a (Z.shiftl 1 k)).
Proof.
  intros Hk. rewrite !has_shiftl by exact Hk. unfold clear_flag.
  rewrite Z.land_spec, Z.lnot_spec by exact Hk. reflexivity.
Qed.

Lemma same_format_flags_clear (f1 f2 a : Z) :
  same_format_flags f1 f2 ->
  same_format_flags (clear_flag f1 a) (clear_flag f2 a).
Proof.
  unfold same_format_flags, FLAGS_ZEROPAD, FLAGS_LEFT, FLAGS_PLUS, FLAGS_SPACE,
    FLAGS_HASH, FLAGS_UPPERCASE, FLAGS_PRECISION, FLAGS_POINTER.
  intros (H0 & H1 & H2 & H3 & H4 & H5 & H6 & H7).
  rewrite !has_clear_flag by lia.
  rewrite H0, H1, H2, H3, H4, H5, H6, H7. repeat split.
Qed.

Lemma same_format_flags_set (f1 f2 a : Z) :
  same_format_flags f1 f2 ->
  same_format_flags (set_flag f1 a) (set_flag f2 a).
Proof.
  unfold same_format_flags.
  intros (H0 & H1 & H2 & H3 & H4 & H5 & H6 & H7).
  rewrite !has_set_flag.
  rewrite H0, H1, H2, H3, H4, H5, H6, H7. repeat split.
Qed.

(** The flags [convert_integer] passes on are those it was given, changed
    in the flags the conversion looks at only. *)
Lemma convert_integer_flags {W : Type} (out : out_fct_type W) buffer maxlen
    (c : ascii) (fa fb width precision : Z) (va vb : va_list) (st : state W) :
  same_format_flags fa fb ->
  has fa FLAGS_LONG_LONG = false -> has fa FLAGS_LONG = false ->
  has fb FLAGS_LONG_LONG = false -> has fb FLAGS_LONG = false ->
  (if char_eqb c "i" || char_eqb c "d"
   then match va_arg_int va, va_arg_int vb with
        | Some (x, va'), Some (y, vb') =>
            va' = vb'
            /\ (if has fa FLAGS_CHAR then to_schar x
                else if has fa FLAGS_SHORT then to_short x else x)
               = (if has fb FLAGS_CHAR then to_schar y
                  else if has fb FLAGS_SHORT then to_short y else y)
        | None, None => True
        | _, _ => False
        end
   else match va_arg_unsigned_int va, va_arg_unsigned_int vb with
        | Some (x, va'), Some (y, vb') =>
            va' = vb'
            /\ (if has fa FLAGS_CHAR then to_uchar x
                else if has fa FLAGS_SHORT then to_ushort x else x)
               = (if has fb FLAGS_CHAR then to_uchar y
                  else if has fb FLAGS_SHORT then to_ushort y else y)
        | None, None => True
        | _, _ => False
        end) ->
  convert_integer out buffer maxlen c fa width precision va st
  = convert_integer out buffer maxlen c fb width precision vb st.
Proof.
  intros Hsame HaLL HaL HbLL HbL Hval.
  unfold convert_integer.
  set (sel := if char_eqb c "x" || char_eqb c "X" then (BASE_HEX, false)
              else if char_eqb c "o" then (BASE_OCTAL, false)
              else if char_eqb c "b" then (BASE_BINARY, false)
              else (BASE_DECIMAL, true)).
  assert (Hsel : forall f,
             (if char_eqb c "x" || char_eqb c "X" then (BASE_HEX, f)
              else if char_eqb c "o" then (BASE_OCTAL, f)
              else if char_eqb c "b" then (BASE_BINARY, f)
              else (BASE_DECIMAL, clear_flag f FLAGS_HASH))
             = (fst sel, if snd sel then clear_flag f FLAGS_HASH else f)).
  { intros f. subst sel.
    destruct (char_eqb c "x" || char_eqb c "X"); [reflexivity|].
    destruct (char_eqb c "o"); [reflexivity|].
    destruct (char_eqb c "b"); reflexivity. }
  rewrite !Hsel. cbv zeta beta iota.
  set (f1 := fun f => if snd sel then clear_flag f FLAGS_HASH else f).
  set (f2 := fun f => if char_eqb c "X" then set_flag (f1 f) FLAGS_UPPERCASE else f1 f).
  set (f3 := fun f => if negb (char_eqb c "i") && negb (char_eqb c "d")
                      then clear_flag (f2 f) (Z.lor FLAGS_PLUS FLAGS_SPACE) else f2 f).
  set (f4 := fun f => if has (f3 f) FLAGS_PRECISION
                      then clear_flag (f3 f) FLAGS_ZEROPAD else f3 f).
  change (if snd sel then clear_flag fa FLAGS_HASH else fa) with (f1 fa).
  change (if snd sel then clear_flag fb FLAGS_HASH else fb) with (f1 fb).
  change (if char_eqb c "X" then set_flag (f1 fa) FLAGS_UPPERCASE else f1 fa)
    with (f2 fa).
  change (if char_eqb c "X" then set_flag (f1 fb) FLAGS_UPPERCASE else f1 fb)
    with (f2 fb).
  change (if negb (char_eqb c "i") && negb (char_eqb c "d")
          then clear_flag (f2 fa) (Z.lor FLAGS_PLUS FLAGS_SPACE) else f2 fa)
    with (f3 fa).
  change (if negb (char_eqb c "i") && negb (char_eqb c "d")
          then clear_flag (f2 fb) (Z.lor FLAGS_PLUS FLAGS_SPACE) else f2 fb)
    with (f3 fb).
  change (if has (f3 fa) FLAGS_PRECISION
          then clear_flag (f3 fa) FLAGS_ZEROPAD else f3 fa) with (f4 fa).
  change (if has (f3 fb) FLAGS_PRECISION
          then clear_flag (f3 fb) FLAGS_ZEROPAD else f3 fb) with (f4 fb).
  assert (Hother : forall f b,
             Z.land FLAGS_HASH b = 0 -> has FLAGS_UPPERCASE b = false ->
             Z.land (Z.lor FLAGS_PLUS FLAGS_SPACE) b = 0 ->
             Z.land FLAGS_ZEROPAD b = 0 ->
             has (f4 f) b = has f b).
  { intros f b B1 B2 B3 B4. subst f4 f3 f2 f1. cbv beta.
    repeat match goal with
           | |- context [if ?t then _ else _] => destruct t
           end;
      repeat first [rewrite has_clear_flag_other by assumption
                   |rewrite has_set_flag_other by assumption];
      reflexivity. }
  assert (Hfmt : same_format_flags (f4 fa) (f4 fb)).
  { assert (H1 : same_format_flags (f1 fa) (f1 fb)).
    { subst f1. cbv beta. destruct (snd sel);
        [apply same_format_flags_clear|]; exact Hsame. }
    assert (H2 : same_format_flags (f2 fa) (f2 fb)).
    { subst f2. cbv beta. destruct (char_eqb c "X");
        [apply same_format_flags_set|]; exact H1. }
    assert (H3 : same_format_flags (f3 fa) (f3 fb)).
    { subst f3. cbv beta. destruct (negb (char_eqb c "i") && negb (char_eqb c "d"));
        [apply same_format_flags_clear|]; exact H2. }
    subst f4. cbv beta.
    replace (has (f3 fb) FLAGS_PRECISION) with (has (f3 fa) FLAGS_PRECISION)
      by (destruct H3 as (_ & _ & _ & _ & _ & _ & H & _); exact H).
    destruct (has (f3 fa) FLAGS_PRECISION);
      [apply same_format_flags_clear|]; exact H3. }
  rewrite !(Hother _ FLAGS_LONG_LONG), !(Hother _ FLAGS_LONG),
    !(Hother _ FLAGS_CHAR), !(Hother _ FLAGS_SHORT) by reflexivity.
  rewrite HaLL, HaL, HbLL, HbL.
  destruct (char_eqb c "i" || char_eqb c "d").
  - destruct (va_arg_int va) as [[x va']|], (va_arg_int vb) as [[y vb']|];
      try contradiction; [|reflexivity].
    destruct Hval as [-> Hv]. cbv zeta. rewrite Hv.
    rewrite (_ntoa_flags _ _ _ _ _ _ _ _ _ (f4 fa) (f4 fb) Hfmt). reflexivity.
  - destruct (va_arg_unsigned_int va) as [[x va']|],
      (va_arg_unsigned_int vb) as [[y vb']|];
      try contradiction; [|reflexivity].
    destruct Hval as [-> Hv]. cbv zeta. rewrite Hv.
    rewrite (_ntoa_flags _ _ _ _ _ _ _ _ _ (f4 fa) (f4 fb) Hfmt). reflexivity.
Qed.

Lemma eval_specifier_flags {W : Type} (out : out_fct_type W) buffer maxlen
    (c : ascii) (rest : string) (fa fb width precision : Z) (va vb : va_list)
    (st : state W) :
  is_integer_specifier c = true ->
  convert_integer out buffer maxlen c fa width precision va st
  = convert_integer out buffer maxlen c fb width precision vb st ->
  eval_specifier out buffer maxlen (String c rest) fa width precision va st
  = eval_specifier out buffer maxlen (String c rest) fb width precision vb st.
Proof.
  intros Hc E. unfold eval_specifier. cbn [deref]. cbv zeta.
  rewrite Hc, E. reflexivity.
Qed.

Lemma header_size_flags (flags : Z) :
  (forall b, not_header_flag b -> has flags b = false) ->
  has flags FLAGS_LONG_LONG = false /\ has flags FLAGS_LONG = false
  /\ has flags FLAGS_CHAR = false /\ has flags FLAGS_SHORT = false.
Proof. intros H. repeat split; apply H; repeat split. Qed.

Lemma same_format_flags_short (flags : Z) :
  same_format_flags (set_flag flags FLAGS_SHORT) flags
  /\ same_format_flags (set_flag (set_flag flags FLAGS_SHORT) FLAGS_CHAR) flags.
Proof.
  split; apply same_format_flags_closed;
    rewrite !has_set_flag_other by reflexivity; reflexivity.
Qed.

(** The directive of the conversion [c] with the length modifier [hh] or
    [h] under a header, against the directive without the modifier and with
    the converted argument. *)
Lemma narrowing_modifier (fl : list ascii) (w : header_field)
    (p : option header_field) (c : ascii) (rest : string) (v : Z) (va : va_list) :
  Forall (fun c => flag_of c <> None) fl -> field_digits w ->
  match p with Some f => field_digits f | None => True end ->
  In c (chars "diuxXob") ->
  let char_of x := if char_eqb c "i" || char_eqb c "d" then to_schar x else to_uchar x in
  let short_of x := if char_eqb c "i" || char_eqb c "d" then to_short x else to_ushort x in
  output (String "%" (header_text fl w p ++ String "h" (String "h" (String c rest))))
    (header_args w p ++ VInt v :: va)
  = output (String "%" (header_text fl w p ++ String c rest))
      (header_args w p ++ VInt (char_of v) :: va)
  /\ output (String "%" (header_text fl w p ++ String "h" (String c rest)))
       (header_args w p ++ VInt v :: va)
     = output (String "%" (header_text fl w p ++ String c rest))
         (header_args w p ++ VInt (short_of v) :: va).
Proof.
  intros Hfl Hw Hp Hc char_of short_of.
  destruct (header_parse fl w p Hfl Hw Hp) as (flags & width & precision & Hflags & Eh).
  destruct (header_size_flags flags Hflags) as (HLL & HL & HC & HS).
  destruct (same_format_flags_short flags) as [Hs1 Hs2].
  assert (Hint : is_integer_specifier c = true).
  { cbn [chars list_ascii_of_string In] in Hc.
    repeat (destruct Hc as [<-|Hc]; [reflexivity|]). contradiction. }
  assert (Hhead : flag_of (deref (String c rest)) = None
                  /\ _is_digit (deref (String c rest)) = false
                  /\ char_eqb (deref (String c rest)) "*" = false
                  /\ char_eqb (deref (String c rest)) "." = false
                  /\ eval_length (String c rest) flags = (flags, String c rest)
                  /\ eval_length (String "h" (String c rest)) flags
                     = (set_flag flags FLAGS_SHORT, String c rest)
                  /\ eval_length (String "h" (String "h" (String c rest))) flags
                     = (set_flag (set_flag flags FLAGS_SHORT) FLAGS_CHAR, String c rest)).
  { cbn [chars list_ascii_of_string In] in Hc.
    repeat (destruct Hc as [<-|Hc]; [repeat split|]). contradiction. }
  destruct Hhead as (H1 & H2 & H3 & H4 & El0 & El1 & El2).
  split; apply output_same_directive; intros W out buffer maxlen st;
    unfold eval_directive;
    rewrite (Eh (String c rest) _ H1 H2 H3 H4), El0;
    [rewrite (Eh (String "h" (String "h" (String c rest))) _
                eq_refl eq_refl eq_refl eq_refl), El2
    |rewrite (Eh (String "h" (String c rest)) _ eq_refl eq_refl eq_refl eq_refl), El1];
    cbv beta iota;
    apply eval_specifier_flags; try exact Hint;
    apply convert_integer_flags; try assumption;
    try (rewrite has_set_flag_other by reflexivity; assumption);
    try (rewrite !has_set_flag_other by reflexivity; assumption);
    cbn [va_arg_int va_arg_unsigned_int]; subst char_of short_of; cbv beta;
    rewrite !has_set_flag, HC, HS;
    destruct (char_eqb c "i" || char_eqb c "d"); (split; [reflexivity|]);
    cbn [orb];
    rewrite ?to_schar_to_int, ?to_int_to_schar, ?to_short_to_int, ?to_int_to_short,
      ?to_uchar_to_uint, ?to_uint_to_uchar, ?to_ushort_to_uint, ?to_uint_to_ushort;
    reflexivity.
Qed.

(** X18.  The length modifiers [hh] and [h] of the integer conversions,
    under any flags, width and precision: the [int] argument is converted
    to [char], respectively [short], signed for [d] and [i] and unsigned
    for [u], [x], [X], [o] and [b], and then printed as by the same
    directive without the modifier. *)
Theorem short_length_modifiers (fl : list ascii) (w : header_field)
    (p : option header_field) (c : ascii) (rest : string) (v : Z) (va : va_list) :
  Forall (fun c => flag_of c <> None) fl -> field_digits w ->
  match p with Some f => field_digits f | None => True end ->
  let directive (modifier : string) :=
    ("%" ++ header_text fl w p ++ modifier ++ String c rest)%string in
  let args (x : Z) := header_args w p ++ VInt x :: va in
  (In c (chars "di") ->
   output (directive "hh"%string) (args v) = output (directive ""%string) (args (to_schar v))
   /\ output (directive "h"%string) (args v) = output (directive ""%string) (args (to_short v)))
  /\ (In c (chars "uxXob") ->
      output (directive "hh"%string) (args v) = output (directive ""%string) (args (to_uchar v))
      /\ output (directive "h"%string) (args v) = output (directive ""%string) (args (to_ushort v))).
Proof.
  intros Hfl Hw Hp directive args.
  split; intros Hc;
    (assert (Hc' : In c (chars "diuxXob"))
      by (cbn [chars list_ascii_of_string In] in *; tauto));
    pose proof (narrowing_modifier fl w p c rest v va Hfl Hw Hp Hc') as H;
    cbv zeta in H;
    cbn [chars list_ascii_of_string In] in Hc;
    repeat (destruct Hc as [<-|Hc]; [exact H|]); contradiction.
Qed.

Lemma short_length_modifiers_padded :
  Forall (fun c => flag_of c <> None) (chars "0")
  /\ field_digits (Digits (chars "5"))
  /\ output "%05hhx|" [VInt 511] = Some (chars "000ff|")
  /\ output "%05x|" [VInt (to_uchar 511)] = Some (chars "000ff|")
  /\ output "%-*.3hi|" [VInt 7; VInt 65535] = Some (chars "-001   |")
  /\ output "%-*.3i|" [VInt 7; VInt (to_short 65535)] = Some (chars "-001   |").
Proof.
  assert (H0 : Forall (fun c => flag_of c <> None) (chars "0"))
    by (repeat constructor; discriminate).
  assert (H5 : field_digits (Digits (chars "5"))) by (repeat constructor).
  assert (Hm : Forall (fun c => flag_of c <> None) (chars "-"))
    by (repeat constructor; discriminate).
  assert (H3 : field_digits (Digits (chars "3"))) by (repeat constructor).
  assert (Ex : output "%05x|" [VInt (to_uchar 511)] = Some (chars "000ff|"))
    by (vm_compute; reflexivity).
  assert (Ei : output "%-*.3i|" [VInt 7; VInt (to_short 65535)]
               = Some (chars "-001   |")) by (vm_compute; reflexivity).
  split; [exact H0|]. split; [exact H5|].
  split.
  { exact (eq_trans
             (proj1 (proj2 (short_length_modifiers (chars "0") (Digits (chars "5")) None
                              "x" "|" 511 [] H0 H5 I)
                      (or_intror (or_introl eq_refl)))) Ex). }
  split; [exact Ex|]. split; [|exact Ei].
  exact (eq_trans
           (proj2 (proj1 (short_length_modifiers (chars "-") (Star 7)
                            (Some (Digits (chars "3"))) "i" "|" 65535 [] Hm I H3)
                    (or_intror (or_introl eq_refl)))) Ei).
Defined.

(** ** The arithmetic of [get_components] at the precision 0 *)

(** What holds of a shift record and is kept by one shift holds after any
    number of them. *)
Lemma iter_pos_invariant {A : Type} (P : A -> Prop) (f : A -> A) :
  (forall x, P x -> P (f x)) -> forall n x, P x -> P (SpecFloat.iter_pos f n x).
Proof.
  intros Hf. induction n as [n IH|n IH|]; intros x Hx; cbn [SpecFloat.iter_pos].
  - apply IH, IH, Hf, Hx.
  - apply IH, IH, Hx.
  - apply Hf, Hx.
Qed.

Lemma shr_1_nonneg (mrs : shr_record) : 0 <= shr_m mrs -> 0 <= shr_m (shr_1 mrs).
Proof.
  destruct mrs as [m r s]. cbn [shr_m]. intros Hm.
  destruct m as [|p|p]; [cbn; lia| |lia].
  destruct p; cbn; lia.
Qed.

Lemma shr_fexp_nonneg (m e : Z) (l : location) :
  0 <= m -> 0 <= shr_m (fst (shr_fexp prec emax m e l)).
Proof.
  intros Hm. unfold shr_fexp, shr.
  assert (H0 : 0 <= shr_m (shr_record_of_loc m l)).
  { destruct l as [|[]]; exact Hm. }
  destruct (fexp prec emax (Zdigits2 m + e) - e) as [|p|p]; cbn [fst];
    try exact H0.
  apply (iter_pos_invariant (fun x => 0 <= shr_m x)); [exact shr_1_nonneg|exact H0].
Qed.

Lemma round_nearest_even_nonneg (m : Z) (l : location) :
  0 <= m -> 0 <= round_nearest_even m l.
Proof.
  intros Hm. unfold round_nearest_even.
  destruct l as [|[]]; try lia. destruct (Z.even m); lia.
Qed.

(** Rounding keeps the sign it is given. *)
Lemma binary_round_aux_sign (s : bool) (m e : Z) (l : location) :
  0 <= m -> has_sign s (binary_round_aux prec emax s m e l).
Proof.
  intros Hm. unfold binary_round_aux.
  pose proof (shr_fexp_nonneg m e l Hm) as H1.
  destruct (shr_fexp prec emax m e l) as [mrs' e']. cbn [fst] in H1.
  pose proof (shr_fexp_nonneg (round_nearest_even (shr_m mrs') (loc_of_shr_record mrs'))
                e' loc_Exact (round_nearest_even_nonneg _ _ H1)) as H2.
  destruct (shr_fexp prec emax _ e' loc_Exact) as [mrs'' e'']. cbn [fst] in H2.
  destruct (shr_m mrs'') as [|p|p]; [reflexivity| |lia].
  destruct (e'' <=? emax - prec); reflexivity.
Qed.

Lemma binary_round_sign (s : bool) (m : positive) (e : Z) :
  has_sign s (binary_round prec emax s m e).
Proof.
  unfold binary_round.
  destruct (shl_align m e (fexp prec emax (Zpos (digits2_pos m) + e))) as [mz ez].
  apply binary_round_aux_sign. lia.
Qed.

(** A number with the sign bit set, or a zero, is below 0.5. *)
Lemma below_half_of_sign (x : double) :
  has_sign true (Prim2SF x) \/ (exists s, Prim2SF x = S754_zero s) ->
  (x <? 0.5)%float = true /\ (0.5 <? x)%float = false /\ (x =? 0.5)%float = false.
Proof.
  intros H.
  rewrite !FloatAxioms.ltb_spec, FloatAxioms.eqb_spec, Prim2SF_half.
  destruct H as [H|[s H]].
  - destruct (Prim2SF x) as [s|s| |s m e]; cbn [has_sign] in H;
      try contradiction; subst s; repeat split.
  - rewrite H. repeat split.
Qed.

(** Comparison the other way round. *)
Lemma SFcompare_antisym (x y : spec_float) :
  SFcompare y x = option_map CompOpp (SFcompare x y).
Proof.
  unfold SFcompare.
  destruct x as [s1|s1| |s1 m1 e1], y as [s2|s2| |s2 m2 e2];
    try reflexivity; try (destruct s1; reflexivity);
    try (destruct s2; reflexivity); try (destruct s1, s2; reflexivity).
  cbn [option_map]. f_equal.
  rewrite (Z.compare_antisym e1 e2).
  change (Pos.compare_cont Eq m2 m1) with (Pos.compare m2 m1).
  change (Pos.compare_cont Eq m1 m2) with (Pos.compare m1 m2).
  rewrite (Pos.compare_antisym m1 m2).
  destruct s1, s2; try reflexivity;
    destruct (e1 ?= e2); cbn [CompOpp]; reflexivity.
Qed.

(** The three comparisons with 0.5 exclude each other. *)
Lemma half_trichotomy (r : double) :
  ((r =? 0.5)%float = true -> (r <? 0.5)%float = false /\ (0.5 <? r)%float = false)
  /\ ((r <? 0.5)%float = true -> (r =? 0.5)%float = false /\ (0.5 <? r)%float = false)
  /\ ((0.5 <? r)%float = true -> (r =? 0.5)%float = false /\ (r <? 0.5)%float = false).
Proof.
  rewrite !FloatAxioms.ltb_spec, FloatAxioms.eqb_spec.
  unfold SFeqb, SFltb. rewrite (SFcompare_antisym (Prim2SF r) (Prim2SF 0.5)).
  destruct (SFcompare (Prim2SF r) (Prim2SF 0.5)) as [[]|]; cbn [option_map CompOpp];
    repeat split; intros; try reflexivity; exfalso;
    match goal with
    | H : false = true |- _ => exact (diff_false_true H)
    | H : true = false |- _ => exact (diff_true_false H)
    end.
Qed.

(** [x - 0 = x] and [x * 1 = x], exactly. *)
Lemma sub_zero (x : double) : (x - double_of_Z 0)%float = x.
Proof.
  apply Prim2SF_inj. rewrite sub_spec, Prim2SF_double_of_Z_0.
  destruct (Prim2SF x) as [[]|[]| |s m e]; reflexivity.
Qed.

Lemma iter_pos_eq {A : Type} (f : A -> A) (n : positive) (x : A) :
  SpecFloat.iter_pos f n x = Pos.iter f x n.
Proof.
  revert x. induction n as [n IH|n IH|]; intros x;
    cbn [SpecFloat.iter_pos Pos.iter]; rewrite ?IH; [|reflexivity|reflexivity].
  rewrite !Pos.iter_swap. reflexivity.
Qed.

(** Shifting right undoes shifting left, with nothing lost. *)
Lemma shr_iter_xO (k m : positive) :
  SpecFloat.iter_pos shr_1 k
    {| shr_m := Zpos (Pos.iter xO m k); shr_r := false; shr_s := false |}
  = {| shr_m := Zpos m; shr_r := false; shr_s := false |}.
Proof.
  rewrite iter_pos_eq.
  induction k as [|k IH] using Pos.peano_ind; [reflexivity|].
  rewrite Pos.iter_succ_r, Pos.iter_succ. exact IH.
Qed.

(** The product with a power of two that undoes itself: [x * 1]. *)
Lemma SFmul_one (s : bool) (m : positive) (e : Z) (k : positive) :
  SpecFloat.valid_binary prec emax (S754_finite s m e) = true ->
  SF64mul (S754_finite s m e) (S754_finite false (Pos.iter xO 1%positive k) (Zneg k))
  = S754_finite s m e.
Proof.
  intros Hv. cbn [SpecFloat.valid_binary] in Hv. unfold bounded in Hv.
  apply andb_true_iff in Hv. destruct Hv as [Hc Hb].
  unfold canonical_mantissa in Hc. apply Z.eqb_eq in Hc.
  unfold SF64mul, SFmul. rewrite xorb_false_r.
  destruct (iter_xO_spec k m) as [Hq1 Hq2].
  destruct (iter_xO_spec k 1%positive) as [Hk1 _].
  replace (m * Pos.iter xO 1%positive k)%positive with (Pos.iter xO m k)
    by (apply Pos2Z.inj; rewrite Hq1, Pos2Z.inj_mul, Hk1; lia).
  unfold binary_round_aux, shr_fexp. cbn [Zdigits2]. rewrite Hq2.
  replace (Zpos (digits2_pos m + k) + (e + Zneg k)) with (Zpos (digits2_pos m) + e)
    by lia.
  rewrite Hc. replace (e - (e + Zneg k)) with (Zpos k) by lia. cbn [shr].
  replace (e + Zneg k + Zpos k) with e by lia.
  cbn [shr_record_of_loc]. rewrite shr_iter_xO.
  cbn [shr_m loc_of_shr_record round_nearest_even Zdigits2 shr_record_of_loc].
  rewrite Hc, Z.sub_diag. cbn [shr shr_m]. rewrite Hb. reflexivity.
Qed.

Lemma Prim2SF_one : Prim2SF 1 = S754_finite false (Pos.iter xO 1%positive 52) (Zneg 52).
Proof. vm_compute. reflexivity. Qed.

Lemma mul_one (x : double) : (x * 1)%float = x.
Proof.
  apply Prim2SF_inj. rewrite mul_spec, Prim2SF_one.
  pose proof (Prim2SF_valid x) as Hv.
  destruct (Prim2SF x) as [[]|[]| |s m e]; try reflexivity.
  apply SFmul_one, Hv.
Qed.

(** Alignment to a smaller exponent multiplies the mantissa by the power of
    two between the exponents. *)
Lemma shl_align_value (m : positive) (e ez : Z) :
  ez <= e -> Zpos (fst (shl_align m e ez)) = Zpos m * 2 ^ (e - ez).
Proof.
  intros H. unfold shl_align. destruct (ez - e) as [|d|d] eqn:E; cbn [fst]; [|lia|].
  - replace (e - ez) with 0 by lia. lia.
  - destruct (iter_xO_spec d m) as [Hv _]. rewrite Hv. do 2 f_equal. lia.
Qed.

(** Rounding an integer of at most 53 bits at a moderate exponent is
    exact. *)
Lemma binary_round_exact (p : positive) (e0 : Z) :
  Zpos p < 2 ^ 53 -> -1000 <= e0 <= 900 ->
  exists m e,
    (forall s, binary_round prec emax s p e0 = S754_finite s m e)
    /\ e <= e0 /\ Zpos m = Zpos p * 2 ^ (e0 - e).
Proof.
  intros Hp He0.
  pose proof (digits2_pos_bounds p) as Hb.
  set (d := digits2_pos p) in *.
  assert (Hd : Zpos d <= 53).
  { destruct (Z.le_gt_cases (Zpos d) 53) as [H|H]; [exact H|exfalso].
    assert (2 ^ 53 <= 2 ^ (Zpos d - 1)) by (apply Z.pow_le_mono_r; lia). lia. }
  assert (Hf : fexp prec emax (Zpos d + e0) = Zpos d + e0 - 53).
  { unfold fexp, emin, prec, emax. lia. }
  unfold binary_round. fold d. rewrite Hf. unfold shl_align.
  replace (Zpos d + e0 - 53 - e0) with (Zpos d - 53) by lia.
  destruct (Zpos d - 53) as [|q|q] eqn:E; [| lia |].
  - assert (Hd53 : d = 53%positive) by lia.
    exists p, e0. split; [|split; [lia|rewrite Z.sub_diag; lia]].
    intros s. apply binary_round_aux_exact; [exact Hd53|lia].
  - destruct (iter_xO_spec q p) as [Hv Hdig]. fold d in Hdig.
    assert (Hd53 : digits2_pos (Pos.iter xO p q) = 53%positive).
    { rewrite Hdig. apply Pos2Z.inj. rewrite Pos2Z.inj_add. lia. }
    exists (Pos.iter xO p q), (Zpos d + e0 - 53).
    split; [|split; [lia|]].
    + intros s. apply binary_round_aux_exact; [exact Hd53|lia].
    + rewrite Hv. do 2 f_equal. lia.
Qed.

(** The aligned mantissa of a number between the aligned truncation and
    its successor. *)
Lemma trunc_aligned (m : positive) (e ez v : Z) :
  ez <= e -> ez <= 0 ->
  (if 0 <=? e then Zpos m * 2 ^ e else Zpos m / 2 ^ (- e)) = v ->
  v * 2 ^ (- ez) <= Zpos m * 2 ^ (e - ez) < (v + 1) * 2 ^ (- ez).
Proof.
  intros H1 H2 Hv.
  assert (HY : 0 < 2 ^ (- ez)) by (apply Z.pow_pos_nonneg; lia).
  destruct (Z.leb_spec 0 e) as [He|He].
  - replace (e - ez) with (e + - ez) by lia. rewrite Z.pow_add_r by lia.
    rewrite Z.mul_assoc, Hv. nia.
  - assert (HX : 0 < 2 ^ (- e)) by (apply Z.pow_pos_nonneg; lia).
    assert (HZ : 0 < 2 ^ (e - ez)) by (apply Z.pow_pos_nonneg; lia).
    assert (E : 2 ^ (- ez) = 2 ^ (- e) * 2 ^ (e - ez)).
    { rewrite <- Z.pow_add_r by lia. f_equal. lia. }
    pose proof (Z.div_mod (Zpos m) (2 ^ (- e)) ltac:(lia)) as Hdm.
    pose proof (Z.mod_pos_bound (Zpos m) (2 ^ (- e)) HX) as Hr.
    rewrite Hv in Hdm. rewrite E.
    set (X := 2 ^ (- e)) in *. set (Y := 2 ^ (e - ez)) in *.
    set (r := Zpos m mod X) in *. nia.
Qed.

(** The aligned mantissa of the double of an integer of at most 53 bits. *)
Lemma double_aligned (n mi ei ez : Z) :
  ez <= ei <= 0 -> mi = n * 2 ^ (- ei) -> mi * 2 ^ (ei - ez) = n * 2 ^ (- ez).
Proof.
  intros H ->. rewrite <- Z.mul_assoc, <- Z.pow_add_r by lia. do 2 f_equal. lia.
Qed.

(** A finite number of integral part at least 1 has an exponent of at
    least -52. *)
Lemma exponent_of_integral (s : bool) (m : positive) (e : Z) :
  SpecFloat.valid_binary prec emax (S754_finite s m e) = true ->
  -1074 <= e /\ (e < 0 -> 1 <= Zpos m / 2 ^ (- e) -> -52 <= e).
Proof.
  intros Hv. cbn [SpecFloat.valid_binary] in Hv. unfold bounded in Hv.
  apply andb_true_iff in Hv. destruct Hv as [Hc _].
  unfold canonical_mantissa in Hc. apply Z.eqb_eq in Hc.
  unfold fexp, emin, prec, emax in Hc.
  split; [lia|]. intros He Hi.
  pose proof (digits2_pos_bounds m) as [_ Hb].
  assert (Hd : Zpos (digits2_pos m) <= 53) by lia.
  assert (Hm : Zpos m < 2 ^ 53).
  { eapply Z.lt_le_trans; [exact Hb|]. apply Z.pow_le_mono_r; lia. }
  destruct (Z.le_gt_cases (-52) e) as [H|H]; [exact H|exfalso].
  assert (2 ^ 53 <= 2 ^ (- e)) by (apply Z.pow_le_mono_r; lia).
  rewrite Z.div_small in Hi by lia. lia.
Qed.

(** The locals of [get_components] at the precision 0 for a number of
    integral part [i]: the fractional part truncates to 0, and the number
    less [i + 1] is below 0.5. *)
Lemma integral_remainder (a : double) (i : Z) :
  int64_of_double a = i -> 0 <= i -> i + 1 < 2 ^ 53 ->
  int64_of_double (a - double_of_Z i)%float = 0
  /\ (has_sign true (Prim2SF (a - double_of_Z (i + 1))%float)
      \/ exists s, Prim2SF (a - double_of_Z (i + 1))%float = S754_zero s).
Proof.
  intros Hi H0 H53.
  destruct (Prim2SF_double_of_Z (i + 1) ltac:(lia)) as (m1 & e1 & Hx1 & _ & He1 & Hm1 & _).
  replace (i + 1 <? 0) with false in Hx1 by (symmetry; apply Z.ltb_ge; lia).
  replace (Z.abs (i + 1)) with (i + 1) in Hm1 by lia.
  pose proof (Prim2SF_valid a) as Hvalid.
  unfold int64_of_double, trunc_double in Hi.
  destruct (Prim2SF a) as [s|s| |s m e] eqn:Ha.
  - (* zero *)
    change (if (INT64_MIN <=? 0) && (0 <=? INT64_MAX) then 0 else INT64_MIN)
      with 0 in Hi. subst i. split.
    + rewrite sub_zero. unfold int64_of_double, trunc_double. rewrite Ha. reflexivity.
    + left. rewrite sub_spec, Ha, Hx1. reflexivity.
  - unfold INT64_MIN in Hi. lia.
  - unfold INT64_MIN in Hi. lia.
  - cbv zeta in Hi.
    set (t := if 0 <=? e then Zpos m * 2 ^ e else Zpos m / 2 ^ (- e)) in *.
    assert (Ht : 0 <= t).
    { subst t. destruct (Z.leb_spec 0 e);
        [apply Z.mul_nonneg_nonneg; [lia|apply Z.pow_nonneg; lia]|].
      apply Z.div_pos; [lia|].
      apply Z.pow_pos_nonneg; lia. }
    assert (Hv : (if s then - t else t) = i).
    { destruct ((INT64_MIN <=? (if s then - t else t))
                && ((if s then - t else t) <=? INT64_MAX));
        [exact Hi|unfold INT64_MIN in Hi; lia]. }
    clear Hi.
    destruct (exponent_of_integral s m e Hvalid) as [Hemin He52].
    split.
    + destruct (Z.eq_dec i 0) as [->|Hnz].
      * rewrite sub_zero. unfold int64_of_double, trunc_double. rewrite Ha.
        cbv zeta. fold t. rewrite Hv. reflexivity.
      * assert (Hs : s = false) by (destruct s; [lia|reflexivity]).
        subst s. cbv iota in Hv. subst i.
        destruct (Prim2SF_double_of_Z t ltac:(lia)) as (mi & ei & Hxi & _ & Hei & Hmi & _).
        replace (t <? 0) with false in Hxi by (symmetry; apply Z.ltb_ge; lia).
        replace (Z.abs t) with t in Hmi by lia.
        assert (He : -52 <= e).
        { destruct (Z.lt_ge_cases e 0) as [Hneg|Hpos]; [|lia].
          apply He52; [exact Hneg|]. subst t.
          destruct (Z.leb_spec 0 e); lia. }
        unfold int64_of_double, trunc_double.
        rewrite sub_spec, Ha, Hxi. unfold SF64sub, SFsub. cbv zeta.
        set (ez := Z.min e ei).
        assert (Hez : ez <= e /\ ez <= ei /\ -52 <= ez) by (subst ez; lia).
        rewrite !shl_align_value by lia. cbn [cond_Zopp].
        rewrite (double_aligned t (Zpos mi) ei ez ltac:(lia) Hmi).
        pose proof (trunc_aligned m e ez t ltac:(lia) ltac:(lia) eq_refl) as Hal.
        assert (HY : 2 ^ (- ez) <= 2 ^ 52) by (apply Z.pow_le_mono_r; lia).
        set (D := Zpos m * 2 ^ (e - ez) - t * 2 ^ (- ez)) in *.
        assert (HD : 0 <= D < 2 ^ (- ez)) by (subst D; lia).
        destruct D as [|d|d] eqn:ED; [reflexivity| |lia].
        cbn [binary_normalize].
        destruct (binary_round_exact d ez ltac:(lia) ltac:(lia))
          as (m2 & e2 & Hr & He2 & Hm2).
        rewrite (Hr false). cbv zeta.
        assert (Hsmall : (if 0 <=? e2 then Zpos m2 * 2 ^ e2 else Zpos m2 / 2 ^ (- e2)) = 0).
        { destruct (Z.leb_spec 0 e2) as [Hp|Hn].
          - assert (ez = 0) by lia. subst ez.
            replace (- Z.min e ei) with 0 in HD by lia. change (2 ^ 0) with 1 in HD. lia.
          - apply Z.div_small. split; [lia|]. rewrite Hm2.
            replace (- e2) with (- ez + (ez - e2)) by lia.
            rewrite Z.pow_add_r by lia.
            assert (0 < 2 ^ (ez - e2)) by (apply Z.pow_pos_nonneg; lia).
            nia. }
        rewrite Hsmall. reflexivity.
    + rewrite sub_spec, Ha, Hx1. unfold SF64sub, SFsub. cbv zeta.
      set (ez := Z.min e e1).
      assert (Hez : ez <= e /\ ez <= e1) by (subst ez; lia).
      rewrite !shl_align_value by lia. cbn [cond_Zopp].
      rewrite (double_aligned (i + 1) (Zpos m1) e1 ez ltac:(lia) Hm1).
      pose proof (trunc_aligned m e ez t ltac:(lia) ltac:(lia) eq_refl) as Hal.
      assert (HY : 0 < 2 ^ (- ez)) by (apply Z.pow_pos_nonneg; lia).
      assert (HZ : 0 < 2 ^ (e - ez)) by (apply Z.pow_pos_nonneg; lia).
      set (D := cond_Zopp s (Zpos m * 2 ^ (e - ez)) - (i + 1) * 2 ^ (- ez)).
      assert (HD : D < 0).
      { subst D. destruct s; cbn [cond_Zopp]; cbv iota in Hv; [nia|].
        rewrite <- Hv. lia. }
      destruct D as [|d|d]; [lia|lia|].
      left. cbn [binary_normalize]. apply binary_round_sign.
Qed.

(** The double of a 53-bit mantissa shifted left is that mantissa with the
    shift as its exponent. *)
Lemma double_of_Z_shifted (m : positive) (e : Z) :
  digits2_pos m = 53%positive -> 0 <= e <= 900 ->
  Prim2SF (double_of_Z (Zpos m * 2 ^ e)) = S754_finite false m e.
Proof.
  intros Hd He.
  destruct (binary_round_aux_exact false m e Hd ltac:(lia)) as [_ Hvalid].
  assert (Hr : binary_normalize prec emax (Zpos m * 2 ^ e) 0 false
               = S754_finite false m e).
  { destruct e as [|k|k]; [| |lia].
    - rewrite Z.mul_1_r. cbn [binary_normalize]. unfold binary_round.
      rewrite Hd. change (fexp prec emax (Zpos 53 + 0)) with 0.
      change (shl_align m 0 0) with (m, 0).
      exact (proj1 (binary_round_aux_exact false m 0 Hd ltac:(lia))).
    - destruct (iter_xO_spec k m) as [Hv Hdig]. rewrite <- Hv.
      cbn [binary_normalize]. unfold binary_round. rewrite Hdig, Hd.
      assert (Hf : fexp prec emax (Zpos (53 + k) + 0) = Zpos k).
      { unfold fexp, emin, prec, emax. lia. }
      rewrite Hf. unfold shl_align. change (Zpos k - 0) with (Zpos k). cbv iota beta.
      unfold binary_round_aux, shr_fexp. cbn [Zdigits2]. rewrite Hdig, Hd, Hf.
      change (Zpos k - 0) with (Zpos k). cbn [shr shr_record_of_loc].
      rewrite shr_iter_xO.
      cbn [shr_m loc_of_shr_record round_nearest_even Zdigits2 shr_record_of_loc].
      rewrite Hd.
      assert (Hf2 : fexp prec emax (Zpos 53 + (0 + Zpos k)) - (0 + Zpos k) = 0).
      { unfold fexp, emin, prec, emax. lia. }
      rewrite Hf2. cbn [shr shr_m].
      replace (0 + Zpos k <=? emax - prec) with true
        by (symmetry; apply Z.leb_le; unfold emax, prec; lia).
      reflexivity. }
  unfold double_of_Z. rewrite Hr. apply Prim2SF_SF2Prim, Hvalid.
Qed.

(** A number of integral part [i] of at least [2 ^ 52] is the integer [i]:
    the number less the double of [i] is [+0]. *)
Lemma large_integral_exact (a : double) (i : Z) :
  int64_of_double a = i -> 2 ^ 52 <= i ->
  Prim2SF (a - double_of_Z i)%float = S754_zero false.
Proof.
  intros Hi Hlarge.
  change (2 ^ 52) with 4503599627370496 in Hlarge.
  pose proof (Prim2SF_valid a) as Hvalid.
  unfold int64_of_double, trunc_double in Hi.
  destruct (Prim2SF a) as [s|s| |s m e] eqn:Ha.
  - change (if (INT64_MIN <=? 0) && (0 <=? INT64_MAX) then 0 else INT64_MIN)
      with 0 in Hi. lia.
  - unfold INT64_MIN in Hi. lia.
  - unfold INT64_MIN in Hi. lia.
  - cbv zeta in Hi.
    set (t := if 0 <=? e then Zpos m * 2 ^ e else Zpos m / 2 ^ (- e)) in *.
    assert (Ht : 0 <= t).
    { subst t. destruct (Z.leb_spec 0 e);
        [apply Z.mul_nonneg_nonneg; [lia|apply Z.pow_nonneg; lia]|].
      apply Z.div_pos; [lia|]. apply Z.pow_pos_nonneg; lia. }
    assert (Hv : (if s then - t else t) = i /\ i <= INT64_MAX).
    { destruct (Z.leb_spec INT64_MIN (if s then - t else t)); cbn [andb] in Hi;
        [|unfold INT64_MIN in Hi; lia].
      destruct (Z.leb_spec (if s then - t else t) INT64_MAX);
        [split; [exact Hi|lia]|unfold INT64_MIN in Hi; lia]. }
    destruct Hv as [Hv Hmax]. clear Hi.
    assert (Hs : s = false) by (destruct s; [lia|reflexivity]).
    subst s. cbv iota in Hv. subst i.
    cbn [SpecFloat.valid_binary] in Hvalid. unfold bounded in Hvalid.
    apply andb_true_iff in Hvalid. destruct Hvalid as [Hc _].
    unfold canonical_mantissa in Hc. apply Z.eqb_eq in Hc.
    unfold fexp, emin, prec, emax in Hc.
    pose proof (digits2_pos_bounds m) as [Hlo Hhi].
    assert (Hd : Zpos (digits2_pos m) <= 53) by lia.
    assert (Hm : Zpos m < 2 ^ 53).
    { eapply Z.lt_le_trans; [exact Hhi|]. apply Z.pow_le_mono_r; lia. }
    change (2 ^ 53) with 9007199254740992 in Hm.
    assert (He : 0 <= e).
    { destruct (Z.leb_spec 0 e) as [H|H]; [exact H|exfalso]. subst t.
      assert (H2 : 2 ^ 1 <= 2 ^ (- e)) by (apply Z.pow_le_mono_r; lia).
      change (2 ^ 1) with 2 in H2.
      assert (Zpos m / 2 ^ (- e) <= Zpos m / 2)
        by (apply Z.div_le_compat_l; lia).
      assert (Zpos m / 2 < 4503599627370496)
        by (apply Z.div_lt_upper_bound; lia).
      lia. }
    assert (Et : t = Zpos m * 2 ^ e).
    { subst t. destruct (Z.leb_spec 0 e); [reflexivity|lia]. }
    assert (He63 : e <= 900).
    { destruct (Z.le_gt_cases e 900) as [H|H]; [exact H|exfalso].
      assert (2 ^ 64 <= 2 ^ e) by (apply Z.pow_le_mono_r; lia).
      unfold INT64_MAX in Hmax. nia. }
    assert (Hd53 : digits2_pos m = 53%positive) by lia.
    rewrite sub_spec, Ha, Et, (double_of_Z_shifted m e Hd53 ltac:(lia)).
    apply SFsub_diag. left. exists m, e. reflexivity.
Qed.

(** ** The carry test of [get_components] *)

(** The comparison of the doubles of two positive integers of at most 53
    bits is the comparison of the integers. *)
Lemma double_of_Z_leb (a b : Z) :
  0 < a < 2 ^ 53 -> 0 < b < 2 ^ 53 ->
  (double_of_Z a <=? double_of_Z b)%float = (a <=? b).
Proof.
  intros Ha Hb.
  destruct (Prim2SF_double_of_Z a ltac:(lia)) as (ma & ea & Hxa & _ & Hea & Hma & Hba).
  destruct (Prim2SF_double_of_Z b ltac:(lia)) as (mb & eb & Hxb & _ & Heb & Hmb & Hbb).
  replace (a <? 0) with false in Hxa by (symmetry; apply Z.ltb_ge; lia).
  replace (b <? 0) with false in Hxb by (symmetry; apply Z.ltb_ge; lia).
  replace (Z.abs a) with a in Hma by lia. replace (Z.abs b) with b in Hmb by lia.
  rewrite FloatAxioms.leb_spec, Hxa, Hxb. unfold SFleb, SFcompare.
  change (Pos.compare_cont Eq ma mb) with (Pos.compare ma mb).
  assert (HXa : 0 < 2 ^ (- ea)) by (apply Z.pow_pos_nonneg; lia).
  assert (HXb : 0 < 2 ^ (- eb)) by (apply Z.pow_pos_nonneg; lia).
  destruct (Z.compare_spec ea eb) as [E|E|E].
  - subst eb. rewrite Pos2Z.inj_compare.
    destruct (Z.compare_spec (Zpos ma) (Zpos mb)) as [C|C|C];
      symmetry; [apply Z.leb_le|apply Z.leb_le|apply Z.leb_gt]; nia.
  - symmetry. apply Z.leb_le.
    assert (E2 : 2 ^ (- ea) = 2 ^ (- eb) * 2 ^ (eb - ea)).
    { rewrite <- Z.pow_add_r by lia. f_equal. lia. }
    assert (HY : 2 ^ 1 <= 2 ^ (eb - ea)) by (apply Z.pow_le_mono_r; lia).
    change (2 ^ 1) with 2 in HY. rewrite E2 in Hma.
    set (X := 2 ^ (- eb)) in *. set (Y := 2 ^ (eb - ea)) in *.
    change (2 ^ 52) with 4503599627370496 in *.
    change (2 ^ 53) with 9007199254740992 in *. nia.
  - symmetry. apply Z.leb_gt.
    assert (E2 : 2 ^ (- eb) = 2 ^ (- ea) * 2 ^ (ea - eb)).
    { rewrite <- Z.pow_add_r by lia. f_equal. lia. }
    assert (HY : 2 ^ 1 <= 2 ^ (ea - eb)) by (apply Z.pow_le_mono_r; lia).
    change (2 ^ 1) with 2 in HY. rewrite E2 in Hmb.
    set (X := 2 ^ (- ea)) in *. set (Y := 2 ^ (ea - eb)) in *.
    change (2 ^ 52) with 4503599627370496 in *.
    change (2 ^ 53) with 9007199254740992 in *. nia.
Qed.

(** The entries of [powers_of_10] up to [1e15] are the doubles of the
    powers of ten; the last two are above every integer of 53 bits. *)
Lemma powers_of_10_at_exact (p : Z) :
  0 <= p < 16 -> powers_of_10_at p = Some (double_of_Z (10 ^ p)).
Proof.
  intros Hp.
  assert (Hcase : p = 0 \/ p = 1 \/ p = 2 \/ p = 3 \/ p = 4 \/ p = 5 \/ p = 6
                  \/ p = 7 \/ p = 8 \/ p = 9 \/ p = 10 \/ p = 11 \/ p = 12
                  \/ p = 13 \/ p = 14 \/ p = 15) by lia.
  repeat destruct Hcase as [->|Hcase]; try subst p; vm_compute; reflexivity.
Qed.

Lemma powers_of_10_at_large (p : Z) :
  16 <= p < 18 ->
  exists p10 q k,
    powers_of_10_at p = Some p10 /\ Prim2SF p10 = S754_finite false q k /\ 0 < k.
Proof.
  intros Hp. assert (Hcase : p = 16 \/ p = 17) by lia.
  destruct Hcase as [->| ->]; eexists; eexists; eexists;
    (split; [reflexivity|split; [vm_compute; reflexivity|reflexivity]]).
Qed.

Lemma power_of_10_leb (p g : Z) :
  0 <= p < NUM_DECIMAL_DIGITS_IN_INT64_T -> 0 < g < 2 ^ 53 ->
  exists p10,
    powers_of_10_at p = Some p10
    /\ (p10 <=? double_of_Z g)%float = (10 ^ p <=? g).
Proof.
  unfold NUM_DECIMAL_DIGITS_IN_INT64_T. intros Hp Hg.
  destruct (Z.lt_ge_cases p 16) as [Hs|Hl].
  - exists (double_of_Z (10 ^ p)). split; [apply powers_of_10_at_exact; lia|].
    apply double_of_Z_leb; [|exact Hg].
    split; [apply Z.pow_pos_nonneg; lia|].
    apply Z.le_lt_trans with (10 ^ 15); [apply Z.pow_le_mono_r; lia|reflexivity].
  - destruct (powers_of_10_at_large p ltac:(lia)) as (p10 & q & k & E & Hq & Hk).
    exists p10. split; [exact E|].
    destruct (Prim2SF_double_of_Z g ltac:(lia)) as (mg & eg & Hxg & _ & Heg & _).
    replace (g <? 0) with false in Hxg by (symmetry; apply Z.ltb_ge; lia).
    rewrite FloatAxioms.leb_spec, Hq, Hxg. unfold SFleb, SFcompare.
    destruct (Z.compare_spec k eg) as [C|C|C]; try lia.
    symmetry. apply Z.leb_gt.
    apply Z.lt_le_trans with (10 ^ 16); [|apply Z.pow_le_mono_r; lia].
    apply Z.lt_trans with (2 ^ 53); [lia|reflexivity].
Qed.

(** ** The rounding of [get_components] *)

Lemma int64_of_double_range (x : double) :
  INT64_MIN <= int64_of_double x <= INT64_MAX.
Proof.
  unfold int64_of_double.
  destruct (trunc_double x) as [v|]; [|split; [reflexivity|discriminate]].
  destruct (Z.leb_spec INT64_MIN v); cbn [andb]; [|split; [reflexivity|discriminate]].
  destruct (Z.leb_spec v INT64_MAX); [lia|split; [reflexivity|discriminate]].
Qed.

Lemma odd_bit (z : Z) : negb (Z.land z 1 =? 0) = Z.odd z.
Proof.
  change 1 with (Z.ones 1). rewrite Z.land_ones by lia.
  rewrite Z.pow_1_r, Zmod_odd. destruct (Z.odd z); reflexivity.
Qed.

(** The locals [scaled_fraction] returns, one by one. *)
Lemma scaled_fraction_locals (number : double) (precision i f : Z) (r : double) :
  scaled_fraction number precision = Some (i, f, r) ->
  exists p10,
    powers_of_10_at precision = Some p10
    /\ 0 <= precision < NUM_DECIMAL_DIGITS_IN_INT64_T
    /\ let a := (if get_sign number then - number else number)%float in
       i = int64_of_double a
       /\ f = int64_of_double ((a - double_of_Z i) * p10)%float
       /\ r = ((a - double_of_Z i) * p10 - double_of_Z f)%float.
Proof.
  unfold scaled_fraction. intros H.
  destruct (powers_of_10_at precision) as [p10|] eqn:Hp10;
    [|exfalso; exact (Some_ne_None _ (eq_sym H))].
  exists p10. split; [reflexivity|]. split.
  { unfold powers_of_10_at in Hp10.
    destruct (Z.leb_spec 0 precision) as [H0|H0];
      [|exfalso; exact (Some_ne_None _ (eq_sym Hp10))].
    destruct (Z.ltb_spec precision NUM_DECIMAL_DIGITS_IN_INT64_T) as [Hlt|Hge];
      [lia|exfalso; exact (Some_ne_None _ (eq_sym Hp10))]. }
  cbv zeta in H |- *.
  pose proof (f_equal (fun o => match o with Some (x, _, _) => x | None => 0 end) H)
    as Hi.
  pose proof (f_equal (fun o => match o with Some (_, x, _) => x | None => 0 end) H)
    as Hf.
  pose proof (f_equal (fun o => match o with
                                | Some (_, _, x) => x
                                | None => 0%float
                                end) H) as Hr.
  cbv beta iota in Hi, Hf, Hr.
  split; [symmetry; exact Hi|]. rewrite Hi in Hf, Hr.
  split; [symmetry; exact Hf|]. rewrite Hf in Hr. symmetry. exact Hr.
Qed.

(** [get_components] at the precision 0, for a number of integral part
    below [2 ^ 53 - 1]: the scaled fractional part truncates to 0 and the
    integral part is rounded. *)
Lemma get_components_precision_0_fraction (number : double) (i f : Z) (r : double) :
  scaled_fraction number 0 = Some (i, f, r) -> 0 <= i -> i + 1 < 2 ^ 53 ->
  f = 0
  /\ get_components number 0
     = Some {| integral :=
                 if (0.5 <? r)%float then i + 1
                 else if (r <? 0.5)%float then i
                 else if Z.even i then i else i + 1;
               fractional := if (r =? 0.5)%float then 1 else 0;
               is_negative := get_sign number |}.
Proof.
  intros H H0 H53.
  destruct (scaled_fraction_locals number 0 i f r H) as (p10 & Hp10 & _ & Hl).
  cbv zeta in Hl. destruct Hl as (Hi & Hf & Hr).
  unfold get_components. rewrite Hp10. cbv zeta.
  set (a := (if get_sign number then - number else number)%float) in *.
  rewrite <- Hi.
  assert (H1 : p10 = 1%float).
  { apply (f_equal (fun o => match o with Some x => x | None => 0%float end)) in Hp10.
    symmetry. exact Hp10. }
  subst p10. rewrite mul_one in *.
  destruct (integral_remainder a i (eq_sym Hi) H0 H53) as [Hz Hneg].
  rewrite Hz in Hf. subst f. rewrite sub_zero in Hr. rewrite Hz, sub_zero, <- Hr.
  split; [reflexivity|].
  change (0 =? 0) with true. cbn [orb].
  change (to_int64 (0 + 1)) with 1.
  replace (1 <=? double_of_Z 1)%float with true by (vm_compute; reflexivity).
  destruct (half_trichotomy r) as (T1 & T2 & T3).
  assert (Hup : to_int64 (i + 1) = i + 1).
  { apply to_int64_small. unfold INT64_MIN, INT64_MAX. lia. }
  rewrite Hup.
  assert (Hev : Z.even i = negb (Z.odd i)) by (symmetry; apply Z.negb_odd).
  rewrite Hev.
  destruct (below_half_of_sign _ Hneg) as (N1 & N2 & _).
  destruct (0.5 <? r)%float eqn:Habove.
  - destruct (T3 eq_refl) as [E1 E2]. rewrite E1. cbv iota.
    rewrite N1, N2. cbn [negb orb andb]. reflexivity.
  - destruct (r =? 0.5)%float eqn:Htie.
    + destruct (T1 eq_refl) as [E1 _]. rewrite E1. cbv iota.
      rewrite <- Hr, E1, Habove.
      cbn [negb orb andb]. rewrite odd_bit, Hup. destruct (Z.odd i); reflexivity.
    + cbv iota. rewrite <- Hr, Habove.
      rewrite orb_false_r, odd_bit, Hup.
      destruct (r <? 0.5)%float; destruct (Z.odd i); reflexivity.
Qed.

(** The same for a number of integral part of at least [2 ^ 52], which is
    an integer: the remainder is [+0] and nothing is rounded. *)
Lemma get_components_precision_0_integer (number : double) (i f : Z) (r : double) :
  scaled_fraction number 0 = Some (i, f, r) -> 2 ^ 52 <= i ->
  f = 0
  /\ get_components number 0
     = Some {| integral :=
                 if (0.5 <? r)%float then i + 1
                 else if (r <? 0.5)%float then i
                 else if Z.even i then i else i + 1;
               fractional := if (r =? 0.5)%float then 1 else 0;
               is_negative := get_sign number |}.
Proof.
  intros H Hlarge.
  destruct (scaled_fraction_locals number 0 i f r H) as (p10 & Hp10 & _ & Hl).
  cbv zeta in Hl. destruct Hl as (Hi & Hf & Hr).
  unfold get_components. rewrite Hp10. cbv zeta.
  set (a := (if get_sign number then - number else number)%float) in *.
  rewrite <- Hi.
  assert (H1 : p10 = 1%float).
  { apply (f_equal (fun o => match o with Some x => x | None => 0%float end)) in Hp10.
    symmetry. exact Hp10. }
  subst p10. rewrite mul_one in *.
  pose proof (large_integral_exact a i (eq_sym Hi) Hlarge) as Hz.
  assert (Hf0 : int64_of_double (a - double_of_Z i)%float = 0)
    by (apply int64_of_double_zero, Hz).
  rewrite Hf0 in Hf. subst f. rewrite sub_zero in Hr. rewrite Hf0, sub_zero, <- Hr.
  rewrite <- Hr in Hz.
  destruct (zero_vs_half r Hz) as (C1 & C2 & C3).
  split; [reflexivity|].
  rewrite C1, C2. cbv iota. rewrite <- Hr, C1, C3. reflexivity.
Qed.

(** [get_components] at the precision 0, for every number whose integral
    part fits [int_fast64_t]. *)
Lemma get_components_precision_0 (number : double) (i f : Z) (r : double) :
  scaled_fraction number 0 = Some (i, f, r) -> 0 <= i ->
  f = 0
  /\ get_components number 0
     = Some {| integral :=
                 if (0.5 <? r)%float then i + 1
                 else if (r <? 0.5)%float then i
                 else if Z.even i then i else i + 1;
               fractional := if (r =? 0.5)%float then 1 else 0;
               is_negative := get_sign number |}.
Proof.
  intros H H0.
  destruct (Z.lt_ge_cases (i + 1) (2 ^ 53)) as [Hs|Hl].
  - exact (get_components_precision_0_fraction number i f r H H0 Hs).
  - apply get_components_precision_0_integer; [exact H|].
    change (2 ^ 53) with 9007199254740992 in Hl.
    change (2 ^ 52) with 4503599627370496. lia.
Qed.

(** [get_components] at a precision of at least 1: the fractional part is
    rounded, with the carry test of the code. *)
Lemma get_components_precision_pos (number : double) (precision i f : Z)
    (r p10 : double) :
  scaled_fraction number precision = Some (i, f, r) -> 1 <= precision ->
  powers_of_10_at precision = Some p10 ->
  let carry := (p10 <=? double_of_Z (to_int64 (f + 1)))%float in
  get_components number precision
  = Some {| integral := if (0.5 <? r)%float && carry then to_int64 (i + 1) else i;
            fractional :=
              if (0.5 <? r)%float then if carry then 0 else to_int64 (f + 1)
              else if (r =? 0.5)%float && ((f =? 0) || Z.odd f)
                   then to_int64 (f + 1) else f;
            is_negative := get_sign number |}.
Proof.
  intros H Hp Hp10 carry.
  destruct (scaled_fraction_locals number precision i f r H) as (q & Hq & _ & Hl).
  cbv zeta in Hl. destruct Hl as (Hi & Hf & Hr).
  assert (E : q = p10).
  { rewrite Hp10 in Hq.
    apply (f_equal (fun o => match o with Some x => x | None => 0%float end)) in Hq.
    symmetry. exact Hq. }
  subst q.
  unfold get_components. rewrite Hp10. cbv zeta.
  set (a := (if get_sign number then - number else number)%float) in *.
  rewrite <- Hi, <- Hf, <- Hr. fold carry.
  destruct (Z.eqb_spec precision 0) as [->|_]; [lia|].
  rewrite odd_bit.
  destruct (0.5 <? r)%float; [destruct carry; reflexivity|].
  destruct (r =? 0.5)%float; [|reflexivity].
  cbn [andb]. destruct ((f =? 0) || Z.odd f); reflexivity.
Qed.

(** C2 (as amended).  With [i] the integral part, [f] the truncated scaled
    fractional part and [r] the remainder [get_components] compares with
    0.5.  For a precision from 1 to 17: on an exact tie a non-zero even [f]
    is kept and an odd [f] is incremented to the even neighbour (as long as
    that stays below the power of ten), but [f = 0] is incremented to 1;
    above the tie [f] is incremented, and exactly when the table entry of
    the precision is at most the double of the incremented value, which
    for [0 <= f] is when [f + 1] reaches the power of ten, it is set to 0
    with a carry into the integral part; below the tie [f] is kept.  For
    the precision 0 and [0 <= i], that is for every number whose integral
    part fits [int_fast64_t]: [f] is 0 and the integral part is rounded,
    on an exact tie to the even neighbour ([i] kept if even, incremented
    if odd), above the tie to [i + 1], below the tie to [i]. *)
Theorem tie_rounding (number : double) (precision i f : Z) (r : double) :
  scaled_fraction number precision = Some (i, f, r) ->
  exists c,
    get_components number precision = Some c
    /\ (1 <= precision ->
        ((r =? 0.5)%float = true ->
         integral c = i
         /\ (f = 0 -> fractional c = 1)
         /\ (f <> 0 -> Z.even f = true -> fractional c = f)
         /\ (Z.odd f = true -> f + 1 < 10 ^ precision -> fractional c = f + 1))
        /\ ((0.5 <? r)%float = true ->
            (forall p10, powers_of_10_at precision = Some p10 ->
               (integral c, fractional c)
               = if (p10 <=? double_of_Z (to_int64 (f + 1)))%float
                 then (to_int64 (i + 1), 0)
                 else (i, to_int64 (f + 1)))
            /\ (0 <= f ->
                (f + 1 < 10 ^ precision ->
                 integral c = i /\ fractional c = f + 1)
                /\ (10 ^ precision <= f + 1 ->
                    integral c = to_int64 (i + 1) /\ fractional c = 0)))
        /\ ((r =? 0.5)%float = false -> (0.5 <? r)%float = false ->
            integral c = i /\ fractional c = f))
    /\ (precision = 0 -> 0 <= i ->
        f = 0
        /\ ((r =? 0.5)%float = true ->
            integral c = (if Z.even i then i else i + 1) /\ fractional c = 1)
        /\ ((0.5 <? r)%float = true -> integral c = i + 1 /\ fractional c = 0)
        /\ ((r <? 0.5)%float = true -> integral c = i /\ fractional c = 0)).
Proof.
  intros H.
  destruct (scaled_fraction_locals number precision i f r H)
    as (p10 & Hp10 & Hprec & Hl).
  cbv zeta in Hl. destruct Hl as (_ & Hf & Hr).
  assert (Hrange : INT64_MIN <= f <= INT64_MAX)
    by (rewrite Hf; apply int64_of_double_range).
  destruct (half_trichotomy r) as (T1 & T2 & T3).
  destruct (Z.eq_dec precision 0) as [->|Hnz].
  - destruct (Z.le_gt_cases 0 i) as [H0|H0].
    + destruct (get_components_precision_0 number i f r H H0) as [Hf0 Hc].
      eexists. split; [exact Hc|]. cbn [integral fractional].
      split; [intros Hp; lia|]. intros _ _.
      split; [exact Hf0|].
      split; [|split].
      * intros Htie. destruct (T1 Htie) as [E1 E2]. rewrite Htie, E1, E2.
        split; reflexivity.
      * intros Habove. destruct (T3 Habove) as [E1 E2]. rewrite Habove, E1.
        split; reflexivity.
      * intros Hbelow. destruct (T2 Hbelow) as [E1 E2]. rewrite Hbelow, E1, E2.
        split; reflexivity.
    + unfold get_components. rewrite Hp10. cbv zeta.
      destruct (if (0.5 <? _)%float then _ else _) as [i' f'].
      eexists. split; [reflexivity|]. split; intros; lia.
  - assert (Hp : 1 <= precision) by lia.
    pose proof (get_components_precision_pos number precision i f r p10 H Hp Hp10) as Hc.
    cbv zeta in Hc.
    eexists. split; [exact Hc|]. cbn [integral fractional].
    split; [intros _|intros Hp0; lia].
    assert (Hup : f + 1 < 2 ^ 63 -> to_int64 (f + 1) = f + 1).
    { intros Hlt. apply to_int64_small. unfold INT64_MIN, INT64_MAX in *. lia. }
    assert (Hpow : 10 ^ precision <= 10 ^ 17).
    { apply Z.pow_le_mono_r; [lia|]. unfold NUM_DECIMAL_DIGITS_IN_INT64_T in Hprec. lia. }
    change (10 ^ 17) with 100000000000000000 in Hpow.
    split; [|split].
    + intros Htie. destruct (T1 Htie) as [_ E2]. rewrite Htie, E2. cbn [andb].
      split; [reflexivity|]. split; [|split].
      * intros ->. reflexivity.
      * intros Hn Hev. rewrite <- Z.negb_even, Hev.
        destruct (Z.eqb_spec f 0); [contradiction|reflexivity].
      * intros Hodd Hlt. rewrite Hodd, orb_true_r. apply Hup. lia.
    + intros Habove. rewrite Habove. cbn [andb]. split.
      * intros q Hq. rewrite Hp10 in Hq.
        apply (f_equal (fun o => match o with Some x => x | None => 0%float end)) in Hq.
        cbv beta iota in Hq. subst q.
        destruct (p10 <=? double_of_Z (to_int64 (f + 1)))%float; reflexivity.
      * intros Hf0.
        assert (Hf53 : f + 1 < 2 ^ 53).
        { destruct (Z.lt_ge_cases (f + 1) (2 ^ 53)) as [Hlt|Hge]; [exact Hlt|exfalso].
          assert (Hlarge : 2 ^ 52 <= f).
          { change (2 ^ 53) with 9007199254740992 in Hge.
            change (2 ^ 52) with 4503599627370496. lia. }
          pose proof (large_integral_exact _ f (eq_sym Hf) Hlarge) as Hz.
          rewrite <- Hr in Hz. destruct (zero_vs_half r Hz) as (C1 & _).
          rewrite C1 in Habove. exact (diff_false_true Habove). }
        rewrite Hup by (change (2 ^ 53) with 9007199254740992 in Hf53; lia).
        destruct (power_of_10_leb precision (f + 1) Hprec ltac:(lia)) as (q & Hq & Hleb).
        rewrite Hp10 in Hq.
        apply (f_equal (fun o => match o with Some x => x | None => 0%float end)) in Hq.
        cbv beta iota in Hq. subst q. rewrite Hleb.
        destruct (Z.leb_spec (10 ^ precision) (f + 1)); split; intros; try lia;
          split; reflexivity.
    + intros Htie Habove. rewrite Htie, Habove. split; reflexivity.
Qed.

(** C2 at work.  0.25 at the precision 1: the tie 2.5 goes to the even
    digit 2.  2.5 and 1.5 at the precision 0: both ties go to the even 2.
    0.26 at the precision 1: above the tie, the digit 2 becomes 3.  0.96 at
    the precision 1: above the tie, 9 becomes 10 and is carried, giving
    1.0. *)
Lemma tie_rounding_cases :
  (scaled_fraction 0.25 1 = Some (0, 2, 0.5%float)
   /\ exists c, get_components 0.25 1 = Some c /\ integral c = 0 /\ fractional c = 2)
  /\ (scaled_fraction 2.5 0 = Some (2, 0, 0.5%float)
      /\ exists c, get_components 2.5 0 = Some c /\ integral c = 2)
  /\ (scaled_fraction 1.5 0 = Some (1, 0, 0.5%float)
      /\ exists c, get_components 1.5 0 = Some c /\ integral c = 2)
  /\ (exists r, scaled_fraction 0.26 1 = Some (0, 2, r) /\ (0.5 <? r)%float = true
      /\ exists c, get_components 0.26 1 = Some c /\ integral c = 0 /\ fractional c = 3)
  /\ (exists r, scaled_fraction 0.96 1 = Some (0, 9, r) /\ (0.5 <? r)%float = true
      /\ exists c, get_components 0.96 1 = Some c /\ integral c = 1 /\ fractional c = 0).
Proof.
  assert (H1 : scaled_fraction 0.25 1 = Some (0, 2, 0.5%float))
    by (vm_compute; reflexivity).
  assert (H2 : scaled_fraction 2.5 0 = Some (2, 0, 0.5%float))
    by (vm_compute; reflexivity).
  assert (H3 : scaled_fraction 1.5 0 = Some (1, 0, 0.5%float))
    by (vm_compute; reflexivity).
  assert (H4 : exists r, scaled_fraction 0.26 1 = Some (0, 2, r)
                         /\ (0.5 <? r)%float = true)
    by (eexists; split; vm_compute; reflexivity).
  assert (H5 : exists r, scaled_fraction 0.96 1 = Some (0, 9, r)
                         /\ (0.5 <? r)%float = true)
    by (eexists; split; vm_compute; reflexivity).
  split; [|split; [|split; [|split]]].
  - split; [exact H1|].
    destruct (tie_rounding 0.25%float 1 0 2 0.5%float H1) as (c & Hc & Hpos & _).
    exists c. split; [exact Hc|].
    destruct (Hpos ltac:(lia)) as (Htie & _).
    destruct (Htie eq_refl) as (Hi & _ & Hev & _).
    split; [exact Hi|]. apply Hev; [lia|reflexivity].
  - split; [exact H2|].
    destruct (tie_rounding 2.5%float 0 2 0 0.5%float H2) as (c & Hc & _ & Hzero).
    exists c. split; [exact Hc|].
    destruct (Hzero eq_refl ltac:(lia)) as (_ & Htie & _).
    exact (proj1 (Htie eq_refl)).
  - split; [exact H3|].
    destruct (tie_rounding 1.5%float 0 1 0 0.5%float H3) as (c & Hc & _ & Hzero).
    exists c. split; [exact Hc|].
    destruct (Hzero eq_refl ltac:(lia)) as (_ & Htie & _).
    exact (proj1 (Htie eq_refl)).
  - destruct H4 as (r & Hs & Hr). exists r. split; [exact Hs|]. split; [exact Hr|].
    destruct (tie_rounding 0.26%float 1 0 2 r Hs) as (c & Hc & Hpos & _).
    exists c. split; [exact Hc|].
    destruct (Hpos ltac:(lia)) as (_ & Habove & _).
    destruct (Habove Hr) as (_ & Hint).
    destruct (Hint ltac:(lia)) as (Hkeep & _).
    exact (Hkeep ltac:(lia)).
  - destruct H5 as (r & Hs & Hr). exists r. split; [exact Hs|]. split; [exact Hr|].
    destruct (tie_rounding 0.96%float 1 0 9 r Hs) as (c & Hc & Hpos & _).
    exists c. split; [exact Hc|].
    destruct (Hpos ltac:(lia)) as (_ & Habove & _).
    destruct (Habove Hr) as (_ & Hint).
    destruct (Hint ltac:(lia)) as (_ & Hcarry).
    exact (Hcarry ltac:(lia)).
Defined.

(** C2, counterexample.  0.005 at precision 2: the scaled remainder is
    exactly 0.5 and the truncated fractional part is 0, yet the result is
    the odd 1, not the even 0. *)
Lemma tie_rounds_zero_up :
  scaled_fraction 0.005 2 = Some (0, 0, 0.5%float)
  /\ get_components 0.005 2
     = Some {| integral := 0; fractional := 1; is_negative := false |}
  /\ Z.even 1 = false.
Proof. repeat split; vm_compute; reflexivity. Qed.
